(** * catalogIQ: the event-driven photo pipeline

    A shallow embedding of the orchestration code of the repository
    (agent_worker.py, wordpress_agent.py, upload_photo.py) and the
    properties of its task state machine, its two handlers, its dispatcher
    and its reconnecting supervisor loop.

    The task store (a MongoDB collection) is a list of documents in
    insertion order.  Everything the code obtains from outside the process
    (the clock, the file system, the imaging library, the WordPress
    endpoint, the outcome of each database call) is read from a [World]
    record, one per invocation, so every theorem holds for whatever those
    collaborators answer.  What the invocation itself changes outside the
    store, the files Agent 2A saves, is threaded through its loop. *)

From Stdlib Require Import ZArith String Ascii List Bool Lia.
From stdpp Require Import base option list gmap strings pretty.

Open Scope string_scope.

(* ===================================================================== *)
(** ** Python values *)
(* ===================================================================== *)

(** What a call yields: a value, or an exception caught by `except Exception`
    (the message is `str(e)`). *)
Inductive result (A : Type) : Type :=
| Ok (a : A)
| Raise (msg : string).
Arguments Ok {A} a.
Arguments Raise {A} msg.

(** The `adjustments` dict of agent_worker.py; each multiplier is kept in
    hundredths (1.05 is 105). *)
Record Adjustments : Type := {
  brightness : Z;
  contrast : Z;
  saturation : Z;
  sharpness : Z
}.

(** The values stored under the keys of the per-photo dicts. *)
Inductive val : Type :=
| VNone
| VBool (b : bool)
| VInt (n : Z)
| VStr (s : string)
| VAdjust (a : Adjustments).

#[global] Instance Adjustments_eq_dec : EqDecision Adjustments.
Proof. solve_decision. Defined.

#[global] Instance val_eq_dec : EqDecision val.
Proof. solve_decision. Defined.

(** A per-photo dict: string keys, [val] values. *)
Abbreviation dict := (gmap string val).

(** `d.get(k)`: [VNone] when the key is missing. *)
Definition get (d : dict) (k : string) : val := default VNone (d !! k).

(** Python truthiness, as used by `not x`, `if x` and `x if c else y`. *)
Definition truthy (v : val) : bool :=
  match v with
  | VNone => false
  | VBool b => b
  | VInt n => negb (n =? 0)%Z
  | VStr s => negb (String.eqb s "")
  | VAdjust _ => true
  end.

(** A `str` is held as the bytes of its UTF-8 encoding.  The separators the
    code searches for (`/`, `.`) are single bytes that occur in no multi-byte
    sequence, so searching, splitting and stripping act on bytes as they do
    on characters; only slicing by a number of characters has to count code
    points: a character is a byte that is not a continuation byte
    (10xxxxxx), followed by its continuation bytes. *)
Definition is_continuation (c : ascii) : bool :=
  match c with
  | Ascii _ _ _ _ _ _ b6 b7 => b7 && negb b6
  end.

(** `s[:n]`: the first [n] characters. *)
Fixpoint take_chars (n : nat) (s : string) : string :=
  match s with
  | EmptyString => EmptyString
  | String c r =>
      if is_continuation c then String c (take_chars n r)
      else match n with
           | 0 => EmptyString
           | S m => String c (take_chars m r)
           end
  end.

(** `len(s)`: the number of characters. *)
Fixpoint py_len (s : string) : nat :=
  match s with
  | EmptyString => 0
  | String c r => (if is_continuation c then 0 else 1) + py_len r
  end.

(** `s.startswith(p)` *)
Definition startswith (s p : string) : bool := String.prefix p s.

(** `s.rstrip("/")` *)
Fixpoint rstrip_slash (s : string) : string :=
  match s with
  | EmptyString => EmptyString
  | String c r =>
      match rstrip_slash r with
      | EmptyString => if Ascii.eqb c "/" then EmptyString else String c EmptyString
      | r' => String c r'
      end
  end.

(** `s.split(sep)` for a one-character separator. *)
Fixpoint split_on (sep : ascii) (s : string) : list string :=
  match s with
  | EmptyString => [EmptyString]
  | String c r =>
      if Ascii.eqb c sep then EmptyString :: split_on sep r
      else match split_on sep r with
           | h :: t => String c h :: t
           | [] => [String c EmptyString]
           end
  end.

(** `os.path.basename(p)`: what follows the last slash. *)
Definition basename (p : string) : string :=
  List.last (split_on "/" p) EmptyString.

(** `Path(p).name`: the last component that is neither empty nor a dot. *)
Definition path_name (p : string) : string :=
  List.last
    (List.filter (fun c => negb (String.eqb c "") && negb (String.eqb c "."))
       (split_on "/" p))
    EmptyString.

(** `p.rfind(c)`, scanning from index [i] with [last] the best so far;
    -1 when [c] does not occur. *)
Fixpoint rfind_from (c : ascii) (p : string) (i last : Z) : Z :=
  match p with
  | EmptyString => last
  | String x r => rfind_from c r (i + 1)%Z (if Ascii.eqb x c then i else last)
  end.

Definition rfind (c : ascii) (p : string) : Z := rfind_from c p 0%Z (-1)%Z.

(** `p[a:b]` for 0 <= a, with [a] and [b] positions found by `rfind`
    (byte offsets of single-byte characters). *)
Definition slice (p : string) (a b : Z) : string :=
  String.substring (Z.to_nat a) (Z.to_nat (b - a)) p.

(** The loop of `genericpath._splitext` that skips the leading dots of the
    file name: true when some character before the last dot is not a dot. *)
Fixpoint has_non_dot (s : string) : bool :=
  match s with
  | EmptyString => false
  | String x r => if Ascii.eqb x "." then has_non_dot r else true
  end.

(** `os.path.splitext(p)[0]` on a POSIX path. *)
Definition splitext_root (p : string) : string :=
  let sepIndex := rfind "/" p in
  let dotIndex := rfind "." p in
  if (sepIndex <? dotIndex)%Z
  then if has_non_dot (slice p (sepIndex + 1) dotIndex)
       then slice p 0 dotIndex
       else p
  else p.

(* ===================================================================== *)
(** ** Task documents and the task store *)
(* ===================================================================== *)

(** `bson.ObjectId`: an opaque identifier; every instance is truthy. *)
Definition ObjectId : Type := nat.

Record LogEntry : Type := {
  timestamp : string;
  agent : string;
  action : string;
  thought : string
}.

Record Metadata : Type := {
  product_name : option string;
  country : option string;
  photo_urls : list string          (* a missing key reads as [] *)
}.

Record RetryMetadata : Type := {
  count : Z;                        (* `$inc` reads a missing counter as 0 *)
  last_error : option string
}.

(** A document of `db.tasks`.  A field the code reads with `.get(k, d)` is
    an option: [None] is the missing key. *)
Record Task : Type := {
  _id : ObjectId;
  sku_code : option string;
  status : option string;
  workflow_step : option Z;
  metadata : Metadata;
  agent_log : list LogEntry;
  retry_metadata : RetryMetadata;
  color_analysis : option (list dict);
  wordpress_publish_results : option (list dict)
}.

Definition Store : Type := list Task.

(** `db.tasks.find_one({"_id": task_id})` *)
Definition find_one (db : Store) (task_id : ObjectId) : option Task :=
  List.find (fun t => Nat.eqb (_id t) task_id) db.

(** `db.tasks.find_one({"sku_code": task_sku})` *)
Definition find_one_sku (db : Store) (task_sku : string) : option Task :=
  List.find (fun t => bool_decide (sku_code t = Some task_sku)) db.

(** The document change of `db.tasks.update_one({"_id": task_id}, u)`: the
    first document with that id is rewritten by [u]; with no such document
    nothing changes. *)
Fixpoint apply_update (db : Store) (task_id : ObjectId) (u : Task -> Task) : Store :=
  match db with
  | [] => []
  | t :: rest =>
      if Nat.eqb (_id t) task_id then u t :: rest
      else t :: apply_update rest task_id u
  end.

(** A database call either raises ([err] is the text of the exception) or
    is applied. *)
Definition update_one (err : option string) (db : Store) (task_id : ObjectId)
    (u : Task -> Task) : result Store :=
  match err with
  | Some e => Raise e
  | None => Ok (apply_update db task_id u)
  end.

(** `db.tasks.insert_one(t)`: `_id` is a unique key. *)
Definition insert_one (err : option string) (db : Store) (t : Task) : result Store :=
  match err with
  | Some e => Raise e
  | None =>
      match find_one db (_id t) with
      | Some _ => Raise "E11000 duplicate key error"
      | None => Ok (db ++ [t])%list
      end
  end.

(* ===================================================================== *)
(** ** The outside world *)
(* ===================================================================== *)

(** `requests.Response`, as far as upload_to_wordpress reads it. *)
Record Response : Type := {
  status_code : Z;
  text : string;
  json : result dict                (* `response.json()` and the `.get`s on it *)
}.

(** What is observable of an invocation besides the store. *)
Inductive effect : Type :=
| SaveImage (corrected_path : string)       (* img.save *)
| CallWordPress (file_path filename : string) (* requests.post(.../media) *)
| Invoke (agent_name : string) (task_id : ObjectId)
| Sleep (seconds : Z)                       (* time.sleep *)
| FatalLog.                                 (* "Failed to connect after ..." *)

(** The answers of the collaborators during one invocation. *)
Record World : Type := {
  now : string;                                   (* datetime.now(utc).isoformat(), first read *)
  now_again : string;                             (* the same, read a second time *)
  os_path_exists : val -> result bool;            (* os.path.exists, as the invocation finds
                                                     the file system when it starts *)
  path_type_error : val -> string;                (* str of the TypeError of Path(v), v not a str *)
  abspath : string -> string;                     (* os.path.abspath *)
  pil_enhance_save : string -> Adjustments -> string -> option string;
                                                  (* Image.open .. img.save; Some e: it raised e *)
  client_messages_error : string;                 (* str of the AttributeError of `client.messages` *)
  read_bytes : string -> option string;           (* open(p,'rb').read(); Some e: it raised e *)
  requests_post : string -> string -> result Response;
  new_object_id : ObjectId;                       (* ObjectId() *)
  find_error : option string;                     (* find_one raises *)
  insert_error : option string;                   (* insert_one raises *)
  commit_error : option string;                   (* the update_one of the try body raises *)
  recovery_error : option string                  (* the update_one of the except body raises *)
}.

(* ===================================================================== *)
(** ** Agent 2A: color correction (agent_worker.py) *)
(* ===================================================================== *)

(** The defaults of apply_color_corrections when no adjustments are given. *)
Definition default_adjustments : Adjustments :=
  {| brightness := 100; contrast := 110; saturation := 115; sharpness := 120 |}.

(** The adjustments color_correct_agent passes for every local file. *)
Definition agent_adjustments : Adjustments :=
  {| brightness := 105; contrast := 110; saturation := 115; sharpness := 120 |}.

(** `os.path.exists(v)` once the invocation has saved the files [saved]: a
    file it has written is there, whatever the file system held before. *)
Definition path_exists (w : World) (saved : list string) (v : val) : result bool :=
  match v with
  | VStr p => if bool_decide (p ∈ saved) then Ok true else os_path_exists w v
  | _ => os_path_exists w v
  end.

(** The files a list of effects has saved. *)
Definition saved_files (effs : list effect) : list string :=
  omap (fun e => match e with SaveImage p => Some p | _ => None end) effs.

(** apply_color_corrections: the corrected path, or [None] when the file is
    missing or anything raised on the way.  [saved] are the files saved
    earlier in the same invocation. *)
Definition apply_color_corrections (w : World) (saved : list string)
    (image_path : string) (adjustments : option Adjustments)
    : option string * list effect :=
  match path_exists w saved (VStr image_path) with
  | Raise _ => (None, [])
  | Ok false => (None, [])
  | Ok true =>
      let adjustments := default default_adjustments adjustments in
      let base_path := splitext_root image_path in
      let corrected_path := base_path ++ "_color_corrected.jpg" in
      match pil_enhance_save w image_path adjustments corrected_path with
      | Some _ => (None, [])
      | None => (Some corrected_path, [SaveImage corrected_path])
      end
  end.

Definition correction_note : string :=
  "Applied color corrections: brightness +5%, contrast +10%, saturation +15%, sharpness +20%".

(** `corrected_path` as a Python value. *)
Definition path_val (p : option string) : val :=
  match p with
  | Some s => VStr s
  | None => VNone
  end.

(** "Check if it's a local file or URL" *)
Definition is_local (photo_url : string) : bool :=
  startswith photo_url "/" || startswith photo_url "file://".

(** The body of the `for idx, photo_url in enumerate(photo_urls)` loop:
    the entry appended to `vision_results`.  The branch for a URL starts
    with `client.messages.create(...)`; `client` is an `openai.OpenAI`
    (agent_worker.py 8, 19), which has no attribute `messages`, so that line
    raises before any request is made and the `except` of the loop body
    writes the error entry. *)
Definition analyze_photo (w : World) (saved : list string) (idx : nat)
    (photo_url : string) : dict * list effect :=
  if is_local photo_url then
    let '(corrected_path, eff) :=
      apply_color_corrections w saved photo_url (Some agent_adjustments) in
    (<["photo_index" := VInt (Z.of_nat idx + 1)]>
     (<["file_path" := VStr photo_url]>
     (<["corrected_path" := path_val corrected_path]>
     (<["color_correction_analysis" := VStr correction_note]>
     (<["suggested_adjustments" := VAdjust agent_adjustments]>
     (<["status" := VStr (if truthy (path_val corrected_path)
                          then "completed" else "failed")]> ∅))))),
     eff)
  else
    (<["photo_index" := VInt (Z.of_nat idx + 1)]>
     (<["photo_url" := VStr photo_url]>
     (<["error" := VStr (client_messages_error w)]> ∅)),
     []).

(** The loop from position [idx] on, the files [saved] written before it. *)
Fixpoint color_loop (w : World) (saved : list string) (idx : nat)
    (photo_urls : list string) : list (dict * list effect) :=
  match photo_urls with
  | [] => []
  | photo_url :: rest =>
      let r := analyze_photo w saved idx photo_url in
      r :: color_loop w (saved ++ saved_files r.2) (S idx) rest
  end.

(** The whole loop, in input order. *)
Definition color_batch (w : World) (photo_urls : list string)
    : list (dict * list effect) :=
  color_loop w [] 0 photo_urls.

(** The files the loop has saved when it reaches position [n]. *)
Definition saved_before (w : World) (photo_urls : list string) (n : nat)
    : list string :=
  saved_files (concat (take n (color_batch w photo_urls)).*2).

(** The `$set` / `$push` of the commit of Agent 2A. *)
Definition set_color_corrected (vision_results : list dict)
    (agent_log_entry : LogEntry) (t : Task) : Task :=
  {| _id := _id t;
     sku_code := sku_code t;
     status := Some "COLOR_CORRECTED";
     workflow_step := Some 2%Z;
     metadata := metadata t;
     agent_log := (agent_log t ++ [agent_log_entry])%list;
     retry_metadata := retry_metadata t;
     color_analysis := Some vision_results;
     wordpress_publish_results := wordpress_publish_results t |}.

(** The `$set retry_metadata.last_error` / `$inc retry_metadata.count` of
    both `except` bodies. *)
Definition record_failure (e : string) (t : Task) : Task :=
  {| _id := _id t;
     sku_code := sku_code t;
     status := status t;
     workflow_step := workflow_step t;
     metadata := metadata t;
     agent_log := agent_log t;
     retry_metadata :=
       {| count := (count (retry_metadata t) + 1)%Z; last_error := Some e |};
     color_analysis := color_analysis t;
     wordpress_publish_results := wordpress_publish_results t |}.

(** The `except Exception as e` body shared by the two agents: try to record
    the failure; if that raises too it is only logged. *)
Definition on_batch_error (w : World) (task_id : ObjectId) (e : string)
    (db : Store) : Store :=
  match update_one (recovery_error w) db task_id (record_failure e) with
  | Ok db' => db'
  | Raise _ => db
  end.

Definition color_log_entry (w : World) (photo_urls : list string) : LogEntry :=
  {| timestamp := now w;
     agent := "color_correct_agent_2a";
     action := "color_correction_completed";
     thought := "Processed " ++ pretty (length photo_urls)
                ++ " photos for color correction using GPT-4o Vision" |}.

(** color_correct_agent(task_id, task_data) *)
Definition color_correct_agent (w : World) (task_id : ObjectId)
    (task_data : Task) (db : Store) : Store * list effect :=
  let photo_urls := photo_urls (metadata task_data) in
  let batch := color_batch w photo_urls in
  let vision_results := batch.*1 in
  let agent_log_entry := color_log_entry w photo_urls in
  match update_one (commit_error w) db task_id
          (set_color_corrected vision_results agent_log_entry) with
  | Ok db' => (db', concat batch.*2)
  | Raise e => (on_batch_error w task_id e db, concat batch.*2)
  end.

(* ===================================================================== *)
(** ** Agent 2B: WordPress publishing (wordpress_agent.py) *)
(* ===================================================================== *)

(** The module-level configuration, read from the environment. *)
Record Config : Type := {
  WORDPRESS_URL : string;
  WORDPRESS_USER : string;
  WORDPRESS_PASSWORD : string
}.

(** `os.getenv(k, "")`, with the trailing slashes of the URL stripped. *)
Definition load_config (env : gmap string string) : Config :=
  {| WORDPRESS_URL := rstrip_slash (default "" (env !! "WORDPRESS_URL"));
     WORDPRESS_USER := default "" (env !! "WORDPRESS_USER");
     WORDPRESS_PASSWORD := default "" (env !! "WORDPRESS_PASSWORD") |}.

(** `not WORDPRESS_URL or not WORDPRESS_USER or not WORDPRESS_PASSWORD` *)
Definition not_configured (cfg : Config) : bool :=
  String.eqb (WORDPRESS_URL cfg) ""
  || String.eqb (WORDPRESS_USER cfg) ""
  || String.eqb (WORDPRESS_PASSWORD cfg) "".

(** The dict returned by the `except` body of upload_to_wordpress. *)
Definition upload_exception (e : string) : dict :=
  <["success" := VBool false]> (<["error" := VStr e]> ∅).

(** upload_to_wordpress(file_path, filename) *)
Definition upload_to_wordpress (w : World) (file_path filename : string)
    : dict * list effect :=
  match os_path_exists w (VStr file_path) with
  | Raise e => (upload_exception e, [])
  | Ok false => (upload_exception ("File not found: " ++ file_path), [])
  | Ok true =>
      match read_bytes w file_path with
      | Some e => (upload_exception e, [])
      | None =>
          let call := [CallWordPress file_path filename] in
          match requests_post w file_path filename with
          | Raise e => (upload_exception e, call)
          | Ok response =>
              if (status_code response =? 200)%Z || (status_code response =? 201)%Z
              then
                match json response with
                | Raise e => (upload_exception e, call)
                | Ok media_data =>
                    (<["success" := VBool true]>
                     (<["media_id" := get media_data "id"]>
                     (<["media_url" := get media_data "source_url"]>
                     (<["status_code" := VInt (status_code response)]> ∅))),
                     call)
                end
              else
                (<["success" := VBool false]>
                 (<["status_code" := VInt (status_code response)]>
                 (<["error" := VStr (if String.eqb (text response) ""
                                     then "Unknown error"
                                     else take_chars 200 (text response))]> ∅)),
                 call)
          end
      end
  end.

(** The three shapes of a failed or skipped entry. *)
Definition entry_reason (idx : nat) (st reason : string) : dict :=
  <["photo_index" := VInt (Z.of_nat idx + 1)]>
  (<["status" := VStr st]>
  (<["reason" := VStr reason]> ∅)).

Definition entry_exception (idx : nat) (e : string) : dict :=
  <["photo_index" := VInt (Z.of_nat idx + 1)]>
  (<["status" := VStr "failed"]>
  (<["error" := VStr e]> ∅)).

(** The part of the loop body after `corrected_path` is known to be a usable
    string: upload and translate the answer. *)
Definition publish_file (w : World) (idx : nat) (corrected_path : string)
    : dict * list effect :=
  let filename := path_name corrected_path in
  let '(result, eff) := upload_to_wordpress w corrected_path filename in
  if truthy (get result "success") then
    match result !! "media_id", result !! "media_url" with
    | Some media_id, Some media_url =>
        (<["photo_index" := VInt (Z.of_nat idx + 1)]>
         (<["status" := VStr "published"]>
         (<["media_id" := media_id]>
         (<["media_url" := media_url]>
         (<["file_path" := VStr corrected_path]> ∅)))),
         eff)
    | None, _ => (entry_exception idx "'media_id'", eff)
    | Some _, None => (entry_exception idx "'media_url'", eff)
    end
  else
    (<["photo_index" := VInt (Z.of_nat idx + 1)]>
     (<["status" := VStr "failed"]>
     (<["error" := get result "error"]>
     (<["status_code" := get result "status_code"]> ∅))),
     eff).

(** The body of the `for idx, analysis in enumerate(color_analysis)` loop. *)
Definition publish_one (w : World) (idx : nat) (analysis : dict)
    : dict * list effect :=
  let corrected_path := get analysis "corrected_path" in
  if negb (truthy corrected_path) then
    (entry_reason idx "failed" "Corrected image not found", [])
  else
    match os_path_exists w corrected_path with
    | Raise e => (entry_exception idx e, [])
    | Ok false => (entry_reason idx "failed" "Corrected image not found", [])
    | Ok true =>
        match corrected_path with
        | VStr p => publish_file w idx p
        | v => (entry_exception idx (path_type_error w v), [])
        end
    end.

(** `publish_results`, with what was called to build it. *)
Definition publish_batch (cfg : Config) (w : World) (color_analysis : list dict)
    : list (dict * list effect) :=
  if not_configured cfg then
    imap (fun idx _ =>
            (entry_reason idx "skipped" "WordPress credentials not fully configured",
             [])) color_analysis
  else
    imap (publish_one w) color_analysis.

(** `r.get('status') == 'published'` *)
Definition is_published (r : dict) : bool :=
  bool_decide (get r "status" = VStr "published").

Definition publish_log_entry (w : World) (publish_results : list dict) : LogEntry :=
  {| timestamp := now w;
     agent := "wordpress_publish_agent_2b";
     action := "wordpress_publish_completed";
     thought := "Published " ++ pretty (length (List.filter is_published publish_results))
                ++ " photos to WordPress" |}.

Definition next_status (publish_results : list dict) : string :=
  if List.existsb is_published publish_results
  then "WORDPRESS_PUBLISHED" else "PUBLISH_FAILED".

(** The `$set` / `$push` of the commit of Agent 2B. *)
Definition set_published (publish_results : list dict)
    (agent_log_entry : LogEntry) (t : Task) : Task :=
  {| _id := _id t;
     sku_code := sku_code t;
     status := Some (next_status publish_results);
     workflow_step := Some 3%Z;
     metadata := metadata t;
     agent_log := (agent_log t ++ [agent_log_entry])%list;
     retry_metadata := retry_metadata t;
     color_analysis := color_analysis t;
     wordpress_publish_results := Some publish_results |}.

(** publish_to_wordpress(task_id, task_data) *)
Definition publish_to_wordpress (cfg : Config) (w : World) (task_id : ObjectId)
    (task_data : Task) (db : Store) : Store * list effect :=
  let color_analysis := default [] (color_analysis task_data) in
  let batch := publish_batch cfg w color_analysis in
  let publish_results := batch.*1 in
  let agent_log_entry := publish_log_entry w publish_results in
  match update_one (commit_error w) db task_id
          (set_published publish_results agent_log_entry) with
  | Ok db' => (db', concat batch.*2)
  | Raise e => (on_batch_error w task_id e db, concat batch.*2)
  end.

(* ===================================================================== *)
(** ** The upload step (upload_photo.py) *)
(* ===================================================================== *)

(** The document inserted for a SKU that has no task yet. *)
Definition new_task (w : World) (task_id : ObjectId)
    (task_sku product_name country : string) : Task :=
  {| _id := task_id;
     sku_code := Some task_sku;
     status := Some "INITIATED";
     workflow_step := Some 1%Z;
     metadata := {| product_name := Some product_name;
                    country := Some country;
                    photo_urls := [] |};
     agent_log := [ {| timestamp := now w;
                       agent := "upload_photo";
                       action := "task_created";
                       thought := "Created task for SKU " ++ task_sku |} ];
     retry_metadata := {| count := 0; last_error := None |};
     color_analysis := None;
     wordpress_publish_results := None |}.

(** The `$set` / `$push` of the upload step. *)
Definition set_photos_uploaded (absolute_path : string)
    (agent_log_entry : LogEntry) (t : Task) : Task :=
  {| _id := _id t;
     sku_code := sku_code t;
     status := Some "PHOTOS_UPLOADED";
     workflow_step := workflow_step t;
     metadata := {| product_name := product_name (metadata t);
                    country := country (metadata t);
                    photo_urls := (photo_urls (metadata t) ++ [absolute_path])%list |};
     agent_log := (agent_log t ++ [agent_log_entry])%list;
     retry_metadata := retry_metadata t;
     color_analysis := color_analysis t;
     wordpress_publish_results := wordpress_publish_results t |}.

(** The audit entry of the upload; [read_at] is what the clock gives when
    the entry is built. *)
Definition upload_log_entry (read_at file_path : string) : LogEntry :=
  {| timestamp := read_at;
     agent := "upload_photo";
     action := "photo_uploaded";
     thought := "Uploaded photo: " ++ basename file_path |}.

(** Step 2 of upload_real_photo: the id of the task with this SKU, creating
    the task when there is none.  Yields the id, the store, the states
    written so far and what the clock gives at its next reading: building
    the new document has read it once. *)
Definition find_or_create (w : World) (task_sku product_name country : string)
    (db : Store) : result (ObjectId * Store * list Store * string) :=
  match find_error w with
  | Some e => Raise e
  | None =>
      match find_one_sku db task_sku with
      | Some existing_task => Ok (_id existing_task, db, [], now w)
      | None =>
          let task_id := new_object_id w in
          match insert_one (insert_error w) db
                  (new_task w task_id task_sku product_name country) with
          | Ok db1 => Ok (task_id, db1, [db1], now_again w)
          | Raise e => Raise e
          end
      end
  end.

(** upload_real_photo(task_sku, file_path, product_name, country): the
    states of the store it writes, one after the other, and its return
    value. *)
Definition upload_real_photo (w : World)
    (task_sku file_path product_name country : string) (db : Store)
    : list Store * bool :=
  let absolute_path := abspath w file_path in
  match os_path_exists w (VStr absolute_path) with
  | Raise _ => ([], false)
  | Ok false => ([], false)
  | Ok true =>
      match find_or_create w task_sku product_name country db with
      | Raise _ => ([], false)
      | Ok (task_id, db1, written, read_at) =>
          match update_one (commit_error w) db1 task_id
                  (set_photos_uploaded absolute_path
                     (upload_log_entry read_at file_path)) with
          | Raise _ => (written, false)
          | Ok db2 =>
              (* result.modified_count > 0 *)
              match find_one db1 task_id with
              | Some _ => ((written ++ [db2])%list, true)
              | None => (written, false)
              end
          end
      end
  end.

(* ===================================================================== *)
(** ** The dispatcher and the supervisor loop (agent_worker.py) *)
(* ===================================================================== *)

(** A change-stream event, as far as the loop reads it. *)
Record ChangeEvent : Type := {
  documentKey_id : option ObjectId;   (* change.get("documentKey", {}).get("_id") *)
  operationType : option string
}.

(** The body of `for change in stream`. *)
Definition dispatch (cfg : Config) (w : World) (change : ChangeEvent) (db : Store)
    : Store * list effect :=
  match documentKey_id change with
  | None => (db, [])
  | Some task_id =>
      match find_error w with
      | Some _ => (db, [])
      | None =>
          match find_one db task_id with
          | None => (db, [])
          | Some task =>
              let current_status := default "UNKNOWN" (status task) in
              if String.eqb current_status "PHOTOS_UPLOADED" then
                let '(db', eff) := color_correct_agent w task_id task db in
                (db', Invoke "color_correct_agent" task_id :: eff)
              else if String.eqb current_status "COLOR_CORRECTED" then
                let '(db', eff) := publish_to_wordpress cfg w task_id task db in
                (db', Invoke "publish_to_wordpress" task_id :: eff)
              else (db, [])
          end
      end
  end.

(** The events one subscription delivers, each with the world it is
    processed in. *)
Fixpoint process_changes (cfg : Config) (changes : list (World * ChangeEvent))
    (db : Store) : Store * list effect :=
  match changes with
  | [] => (db, [])
  | (w, change) :: rest =>
      let '(db1, eff1) := dispatch cfg w change db in
      let '(db2, eff2) := process_changes cfg rest db1 in
      (db2, (eff1 ++ eff2)%list)
  end.

(** How one pass through the `while` body ends: the subscription never ends
    by itself. *)
Inductive Ending : Type :=
| Exception (e : string)
| KeyboardInterrupt.

(** One pass: [opened] is [None] when `db.tasks.watch` itself raised, and
    the changes delivered before the end otherwise. *)
Record Attempt : Type := {
  opened : option (list (World * ChangeEvent));
  ending : Ending
}.

Definition max_retries : nat := 5.

Record LoopState : Type := {
  ls_retry_count : nat;                (* `retry_count` *)
  ls_store : Store;
  ls_effects : list effect;
  ls_shut_down : bool                  (* the `while` loop was left *)
}.

(** The same state with [effs] having happened before its effects. *)
Definition after_effects (effs : list effect) (s : LoopState) : LoopState :=
  {| ls_retry_count := ls_retry_count s;
     ls_store := ls_store s;
     ls_effects := (effs ++ ls_effects s)%list;
     ls_shut_down := ls_shut_down s |}.

(** The `while retry_count < max_retries` loop, run over the passes that
    happen; with no pass left the loop is still listening. *)
Fixpoint agent_loop (cfg : Config) (attempts : list Attempt)
    (retry_count : nat) (db : Store) : LoopState :=
  if negb (Nat.ltb retry_count max_retries) then
    {| ls_retry_count := retry_count; ls_store := db; ls_effects := [];
       ls_shut_down := true |}
  else
    match attempts with
    | [] => {| ls_retry_count := retry_count; ls_store := db; ls_effects := [];
               ls_shut_down := false |}
    | a :: rest =>
        let retry_count := match opened a with Some _ => 0 | None => retry_count end in
        let '(db1, eff) := process_changes cfg (default [] (opened a)) db in
        match ending a with
        | KeyboardInterrupt =>
            {| ls_retry_count := retry_count; ls_store := db1; ls_effects := eff;
               ls_shut_down := true |}
        | Exception _ =>
            let retry_count := S retry_count in
            if Nat.ltb retry_count max_retries then
              let wait_time := (2 ^ Z.of_nat retry_count)%Z in
              after_effects (eff ++ [Sleep wait_time])
                (agent_loop cfg rest retry_count db1)
            else
              {| ls_retry_count := retry_count; ls_store := db1;
                 ls_effects := (eff ++ [FatalLog])%list; ls_shut_down := true |}
        end
    end.

(** The worker as started: `retry_count = 0`. *)
Definition agent_worker (cfg : Config) (attempts : list Attempt) (db : Store)
    : LoopState :=
  agent_loop cfg attempts 0 db.

(** A pass in which `db.tasks.watch` raises [e]. *)
Definition watch_fails (e : string) : Attempt :=
  {| opened := None; ending := Exception e |}.

(** The waits after failures number [r + 1] to [r + n]. *)
Definition backoff (r n : nat) : list effect :=
  List.map (fun k => Sleep (2 ^ Z.of_nat k)) (List.seq (S r) n).

Definition is_invoke (e : effect) : bool :=
  match e with
  | Invoke _ _ => true
  | _ => false
  end.


(* ===================================================================== *)
(** ** Runs of the pipeline and the order of statuses *)
(* ===================================================================== *)

(** What acts on the store: the upload script, and the worker handling a
    change event (which runs at most one of the two agents). *)
Inductive Step : Type :=
| UploadPhoto (w : World) (task_sku file_path product_name country : string)
| Deliver (w : World) (change : ChangeEvent).

(** The states of the store a step writes, in order. *)
Definition step_states (cfg : Config) (st : Step) (db : Store) : list Store :=
  match st with
  | UploadPhoto w task_sku file_path product_name country =>
      (upload_real_photo w task_sku file_path product_name country db).1
  | Deliver w change => [(dispatch cfg w change db).1]
  end.

Fixpoint run_states (cfg : Config) (steps : list Step) (db : Store) : list Store :=
  match steps with
  | [] => []
  | st :: rest =>
      let written := step_states cfg st db in
      (written ++ run_states cfg rest (List.last written db))%list
  end.

(** The initial store followed by every state written during the run. *)
Definition history (cfg : Config) (steps : list Step) (db : Store) : list Store :=
  db :: run_states cfg steps db.

(** The statuses of one task over a list of states (states in which the
    task does not exist yet are passed over). *)
Definition observed (task_id : ObjectId) (states : list Store)
    : list (option string) :=
  omap (fun db => status <$> find_one db task_id) states.

(** The place of a status in INITIATED -> PHOTOS_UPLOADED -> COLOR_CORRECTED
    -> {WORDPRESS_PUBLISHED | PUBLISH_FAILED}. *)
Definition stage (s : option string) : option nat :=
  match s with
  | Some s =>
      if String.eqb s "INITIATED" then Some 0
      else if String.eqb s "PHOTOS_UPLOADED" then Some 1
      else if String.eqb s "COLOR_CORRECTED" then Some 2
      else if String.eqb s "WORDPRESS_PUBLISHED" then Some 3
      else if String.eqb s "PUBLISH_FAILED" then Some 3
      else None
  | None => None
  end.

(** From one observation to the next the status is the same, or one stage
    further. *)
Definition advance_ok (a b : option string) : bool :=
  bool_decide (a = b)
  || match stage a, stage b with
     | Some i, Some j => Nat.eqb j (S i)
     | _, _ => false
     end.

Fixpoint in_order (l : list (option string)) : bool :=
  match l with
  | a :: rest =>
      match rest with
      | b :: _ => advance_ok a b && in_order rest
      | [] => true
      end
  | [] => true
  end.

(** An upload step is guarded when the document it is about to rewrite is
    at INITIATED or PHOTOS_UPLOADED, or when its SKU has no task yet. *)
Definition upload_guarded (st : Step) (db : Store) : bool :=
  match st with
  | UploadPhoto _ task_sku _ _ _ =>
      match find_one_sku db task_sku with
      | None => true
      | Some existing_task =>
          match find_one db (_id existing_task) with
          | None => true
          | Some t =>
              bool_decide (status t = Some "INITIATED")
              || bool_decide (status t = Some "PHOTOS_UPLOADED")
          end
      end
  | Deliver _ _ => true
  end.

Fixpoint guarded (cfg : Config) (steps : list Step) (db : Store) : bool :=
  match steps with
  | [] => true
  | st :: rest =>
      upload_guarded st db
      && guarded cfg rest (List.last (step_states cfg st db) db)
  end.

(* ===================================================================== *)
(** ** Predicates used in the statements *)
(* ===================================================================== *)

(** From [db] to [db'] no task disappears and every status is kept or moved
    one stage on. *)
Definition store_advance (db db' : Store) : Prop :=
  forall task_id t,
    find_one db task_id = Some t ->
    exists t', find_one db' task_id = Some t'
               /\ advance_ok (status t) (status t') = true.

(** Every state in [states] advances the one before it, starting from [db]. *)
Fixpoint chain (db : Store) (states : list Store) : Prop :=
  match states with
  | [] => True
  | s :: rest => store_advance db s /\ chain s rest
  end.

(** [results] is parallel to the photo references [urls]: one entry per
    reference, the n-th numbered n+1 and carrying the n-th reference. *)
Definition aligned_color (urls : list string) (results : list dict) : Prop :=
  length results = length urls
  /\ forall n url, urls !! n = Some url ->
       exists entry, results !! n = Some entry
         /\ entry !! "photo_index" = Some (VInt (Z.of_nat n + 1))
         /\ (entry !! "file_path" = Some (VStr url)
             \/ entry !! "photo_url" = Some (VStr url)).

(** [results] is parallel to the analysis entries it was built from; a
    published entry names the corrected file of its analysis entry. *)
Definition aligned_publish (analysis results : list dict) : Prop :=
  length results = length analysis
  /\ forall n a, analysis !! n = Some a ->
       exists entry, results !! n = Some entry
         /\ entry !! "photo_index" = Some (VInt (Z.of_nat n + 1))
         /\ (is_published entry = true ->
             entry !! "file_path" = Some (get a "corrected_path")).

(** Publish results parallel to the photo references the analysis came
    from: a published entry names the corrected copy of the n-th photo. *)
Definition aligned_end_to_end (urls : list string) (results : list dict) : Prop :=
  length results = length urls
  /\ forall n url, urls !! n = Some url ->
       exists entry, results !! n = Some entry
         /\ entry !! "photo_index" = Some (VInt (Z.of_nat n + 1))
         /\ (is_published entry = true ->
             entry !! "file_path"
             = Some (VStr (splitext_root url ++ "_color_corrected.jpg"))).

(** An entry with a status of completed or failed, or with an error. *)
Definition status_or_error (entry : dict) : Prop :=
  entry !! "status" = Some (VStr "completed")
  \/ entry !! "status" = Some (VStr "failed")
  \/ is_Some (entry !! "error").

(** What the entry written for the photo [url] at position [n] holds. *)
Definition entry_shape (w : World) (n : nat) (url : string) (entry : dict) : Prop :=
  entry !! "photo_index" = Some (VInt (Z.of_nat n + 1))
  /\ if is_local url then
       entry !! "file_path" = Some (VStr url)
       /\ (entry !! "status" = Some (VStr "completed")
           \/ entry !! "status" = Some (VStr "failed"))
       /\ entry !! "error" = None
     else
       entry !! "photo_url" = Some (VStr url)
       /\ entry !! "status" = None
       /\ entry !! "error" = Some (VStr (client_messages_error w)).

(** The per-photo step of the publish loop succeeds for the analysis entry
    [a]: the credentials are configured, the entry names a corrected file
    [p] that exists and is read, and WordPress answers the upload of [p]
    with 200 or 201 and a body that parses to [media_data]. *)
Definition upload_succeeds (cfg : Config) (w : World) (a : dict) (p : string)
    (media_data : dict) : Prop :=
  not_configured cfg = false
  /\ get a "corrected_path" = VStr p
  /\ p <> ""
  /\ os_path_exists w (VStr p) = Ok true
  /\ read_bytes w p = None
  /\ exists response,
       requests_post w p (path_name p) = Ok response
       /\ (status_code response = 200 \/ status_code response = 201)%Z
       /\ json response = Ok media_data.

(** The retry bookkeeping of a batch failure with error text [e]. *)
Definition failure_recorded (e : string) (t t' : Task) : Prop :=
  count (retry_metadata t') = (count (retry_metadata t) + 1)%Z
  /\ last_error (retry_metadata t') = Some e.

(** Nothing of a handler's result went into the document. *)
Definition results_untouched (t t' : Task) : Prop :=
  status t' = status t
  /\ workflow_step t' = workflow_step t
  /\ color_analysis t' = color_analysis t
  /\ wordpress_publish_results t' = wordpress_publish_results t
  /\ agent_log t' = agent_log t.

(* ===================================================================== *)
(** ** Sample worlds and documents *)
(* ===================================================================== *)

(** A WordPress answer: 201 with an id and a source URL. *)
Definition created_response : Response :=
  {| status_code := 201;
     text := "";
     json := Ok (<["id" := VInt 42]>
                 (<["source_url" := VStr "https://shop.example/wp-content/uploads/a_color_corrected.jpg"]> ∅)) |}.

(** A world given by the files that exist, the files the imaging library
    cannot process, the answer of WordPress to an upload and the outcome of
    the two database updates. *)
Definition sample_world (files unreadable : list string)
    (answer : Response) (commit recovery : option string) : World :=
  {| now := "2024-05-01T12:00:00.000120+00:00";
     now_again := "2024-05-01T12:00:00.004310+00:00";
     os_path_exists := fun v =>
       match v with
       | VStr p => Ok (bool_decide (p ∈ files))
       | VInt _ | VBool _ => Ok false
       | _ => Raise "stat: path should be string, bytes, os.PathLike or integer"
       end;
     path_type_error := fun _ => "expected str, bytes or os.PathLike object";
     abspath := fun p => if startswith p "/" then p else "/srv/photos/" ++ p;
     pil_enhance_save := fun src _ _ =>
       if bool_decide (src ∈ unreadable)
       then Some "cannot identify image file" else None;
     client_messages_error := "'OpenAI' object has no attribute 'messages'";
     read_bytes := fun _ => None;
     requests_post := fun _ _ => Ok answer;
     new_object_id := 100;
     find_error := None;
     insert_error := None;
     commit_error := commit;
     recovery_error := recovery |}.

Definition sample_task (task_id : ObjectId) (st : string) (urls : list string)
    (analysis : option (list dict)) : Task :=
  {| _id := task_id;
     sku_code := Some "NIKE-USA-101";
     status := Some st;
     workflow_step := Some 1%Z;
     metadata := {| product_name := Some "Nike Running Shoe";
                    country := Some "US";
                    photo_urls := urls |};
     agent_log := [];
     retry_metadata := {| count := 0; last_error := None |};
     color_analysis := analysis;
     wordpress_publish_results := None |}.

Definition sample_config : Config :=
  {| WORDPRESS_URL := "https://shop.example";
     WORDPRESS_USER := "editor";
     WORDPRESS_PASSWORD := "app-password" |}.

Definition sample_event (task_id : ObjectId) : ChangeEvent :=
  {| documentKey_id := Some task_id; operationType := Some "update" |}.

Definition photo_a : string := "/srv/photos/a.jpg".
Definition photo_missing : string := "/srv/photos/missing.jpg".
Definition photo_remote : string := "https://example.com/photo1.jpg".

(** A 200 answer whose body is the empty JSON object. *)
Definition bare_response : Response :=
  {| status_code := 200; text := "{}"; json := Ok ∅ |}.

(** [photo_a] and its corrected copy exist, every collaborator answers. *)
Definition calm_world : World :=
  sample_world [photo_a; "/srv/photos/a_color_corrected.jpg"] []
    created_response None None.

(** As [calm_world], but WordPress answers 200 with an empty object. *)
Definition bare_answer_world : World :=
  sample_world [photo_a; "/srv/photos/a_color_corrected.jpg"] []
    bare_response None None.

(** [photo_a] exists but the imaging library cannot read it. *)
Definition unreadable_world : World :=
  sample_world [photo_a] [photo_a] created_response None None.

(** The commit is refused, the bookkeeping update goes through. *)
Definition commit_fails_world : World :=
  sample_world [photo_a] [] created_response (Some "document too large") None.

(** The store is unreachable for both updates. *)
Definition store_down_world : World :=
  sample_world [photo_a] [] created_response
    (Some "connection closed") (Some "connection closed").

Definition uploaded_task : Task :=
  sample_task 1 "PHOTOS_UPLOADED" [photo_a; photo_missing] None.

Definition remote_task : Task :=
  sample_task 1 "PHOTOS_UPLOADED" [photo_remote] None.

(** [uploaded_task] as Agent 2A leaves it in [calm_world]. *)
Definition corrected_task : Task :=
  set_color_corrected
    (color_batch calm_world [photo_a; photo_missing]).*1
    (color_log_entry calm_world [photo_a; photo_missing]) uploaded_task.

Definition empty_task : Task :=
  sample_task 1 "COLOR_CORRECTED" [] (Some []).

(** A first upload for a new SKU, then three deliveries for its task. *)
Definition pipeline_run : list Step :=
  [ UploadPhoto calm_world "NIKE-USA-101" "a.jpg" "Nike Running Shoe" "US";
    Deliver calm_world (sample_event 100);
    Deliver calm_world (sample_event 100);
    Deliver calm_world (sample_event 100) ].

(** A first upload, the color correction, then a second upload for the
    same SKU. *)
Definition second_upload_run : list Step :=
  [ UploadPhoto calm_world "NIKE-USA-101" "a.jpg" "Nike Running Shoe" "US";
    Deliver calm_world (sample_event 100);
    UploadPhoto calm_world "NIKE-USA-101" "a.jpg" "Nike Running Shoe" "US" ].

(** An environment with the WordPress password missing. *)
Definition env_without_password : gmap string string :=
  <["WORDPRESS_URL" := "https://shop.example/"]>
  (<["WORDPRESS_USER" := "editor"]> ∅).

(* ===================================================================== *)
(** ** Predicates for what a run keeps *)
(* ===================================================================== *)

(** [t'] is a later version of the document [t]: the same identity, the
    photo references and the audit log only extended at their end, the
    retry counter not lower. *)
Definition task_grows (t t' : Task) : Prop :=
  _id t' = _id t
  /\ sku_code t' = sku_code t
  /\ product_name (metadata t') = product_name (metadata t)
  /\ country (metadata t') = country (metadata t)
  /\ photo_urls (metadata t) `prefix_of` photo_urls (metadata t')
  /\ agent_log t `prefix_of` agent_log t'
  /\ (count (retry_metadata t) <= count (retry_metadata t'))%Z.

(** Every task of [db] is found in [db'] as a later version of itself. *)
Definition store_grows (db db' : Store) : Prop :=
  forall task_id t,
    find_one db task_id = Some t ->
    exists t', find_one db' task_id = Some t' /\ task_grows t t'.

(** The SKU codes present in the store, in document order. *)
Definition sku_codes (db : Store) : list string := omap sku_code db.

(** The ids of the store, in document order. *)
Definition task_ids (db : Store) : list ObjectId := _id <$> db.

(** The ids the events of a subscription name. *)
Definition named_ids (changes : list (World * ChangeEvent)) : list ObjectId :=
  omap (fun wc => documentKey_id wc.2) changes.

(** A status no handler applies to. *)
Definition settled (t : Task) : Prop :=
  status t <> Some "PHOTOS_UPLOADED" /\ status t <> Some "COLOR_CORRECTED".

(** Effects only the supervisor loop produces. *)
Definition is_supervisor_effect (e : effect) : bool :=
  match e with
  | Sleep _ | FatalLog => true
  | _ => false
  end.

(** Each state of [states] is related by [R] to the one before it, the
    first to [db]. *)
Fixpoint linked (R : Store -> Store -> Prop) (db : Store) (states : list Store)
    : Prop :=
  match states with
  | [] => True
  | s :: rest => R db s /\ linked R s rest
  end.

(** From [db] to [db'] no document is removed or moved, and ids and SKU
    codes that were unique stay unique. *)
Definition store_keeps_keys (db db' : Store) : Prop :=
  task_ids db `prefix_of` task_ids db'
  /\ (NoDup (task_ids db) -> NoDup (task_ids db'))
  /\ (NoDup (sku_codes db) -> NoDup (sku_codes db')).


(** The strings `s.rstrip("/")` empties: those made of slashes only. *)
Fixpoint only_slashes (s : string) : bool :=
  match s with
  | EmptyString => true
  | String c r => Ascii.eqb c "/" && only_slashes r
  end.

(** `s.endswith("/")` *)
Fixpoint ends_with_slash (s : string) : bool :=
  match s with
  | EmptyString => false
  | String c EmptyString => Ascii.eqb c "/"
  | String _ r => ends_with_slash r
  end.

(* ===================================================================== *)
(** * Properties *)
(* ===================================================================== *)

(** Lookups in a dict written as a chain of inserts with literal keys. *)
Ltac dict_lookup :=
  unfold get;
  repeat first
    [ rewrite lookup_insert_eq
    | rewrite lookup_insert_ne by discriminate
    | rewrite lookup_empty ];
  simpl.

(* ===================================================================== *)
(** ** The task store *)
(* ===================================================================== *)

Section StoreLemmas.
Variable u : Task -> Task.
Hypothesis u_id : forall t, _id (u t) = _id t.

Lemma find_one_apply_update (db : Store) (task_id other : ObjectId) :
  find_one (apply_update db task_id u) other =
  if Nat.eqb task_id other then u <$> find_one db task_id
  else find_one db other.
Proof.
  unfold find_one.
  induction db as [|t rest IH]; simpl.
  - by destruct (Nat.eqb task_id other).
  - destruct (Nat.eqb (_id t) task_id) eqn:Ht; simpl.
    + rewrite u_id. apply Nat.eqb_eq in Ht. subst task_id.
      destruct (Nat.eqb (_id t) other) eqn:Ho; simpl; done.
    + destruct (Nat.eqb (_id t) other) eqn:Ho; simpl.
      * destruct (Nat.eqb task_id other) eqn:Hto; [|done].
        apply Nat.eqb_eq in Ho, Hto. subst. rewrite Nat.eqb_refl in Ht. done.
      * exact IH.
Qed.

Lemma find_one_apply_update_same (db : Store) (task_id : ObjectId) :
  find_one (apply_update db task_id u) task_id = u <$> find_one db task_id.
Proof. by rewrite find_one_apply_update, Nat.eqb_refl. Qed.
End StoreLemmas.

Lemma find_one_app_new (db : Store) (t : Task) (other : ObjectId) :
  find_one db (_id t) = None ->
  find_one (db ++ [t])%list other =
  if Nat.eqb (_id t) other then Some t else find_one db other.
Proof.
  unfold find_one. intros Hnew.
  induction db as [|t0 rest IH]; simpl in *.
  - by destruct (Nat.eqb (_id t) other).
  - destruct (Nat.eqb (_id t0) (_id t)) eqn:H0; [done|].
    destruct (Nat.eqb (_id t0) other) eqn:H1.
    + destruct (Nat.eqb (_id t) other) eqn:H2; [|done].
      apply Nat.eqb_eq in H1, H2. apply Nat.eqb_neq in H0. congruence.
    + by apply IH.
Qed.

(* ===================================================================== *)
(** ** What a handler leaves in the store *)
(* ===================================================================== *)

Lemma color_commit (w : World) (task_id : ObjectId) (task_data t : Task) (db : Store) :
  find_one db task_id = Some t ->
  commit_error w = None ->
  find_one (color_correct_agent w task_id task_data db).1 task_id =
  Some (set_color_corrected (color_batch w (photo_urls (metadata task_data))).*1
          (color_log_entry w (photo_urls (metadata task_data))) t).
Proof.
  intros Hf Hc. unfold color_correct_agent, update_one. rewrite Hc. simpl.
  rewrite find_one_apply_update_same by done. by rewrite Hf.
Qed.

Lemma publish_commit (cfg : Config) (w : World) (task_id : ObjectId)
    (task_data t : Task) (db : Store) :
  find_one db task_id = Some t ->
  commit_error w = None ->
  find_one (publish_to_wordpress cfg w task_id task_data db).1 task_id =
  Some (set_published (publish_batch cfg w (default [] (color_analysis task_data))).*1
          (publish_log_entry w
             (publish_batch cfg w (default [] (color_analysis task_data))).*1) t).
Proof.
  intros Hf Hc. unfold publish_to_wordpress, update_one. rewrite Hc. simpl.
  rewrite find_one_apply_update_same by done. by rewrite Hf.
Qed.

Lemma on_batch_error_lookup (w : World) (task_id : ObjectId) (e : string)
    (t : Task) (db : Store) :
  find_one db task_id = Some t ->
  find_one (on_batch_error w task_id e db) task_id =
  Some (match recovery_error w with Some _ => t | None => record_failure e t end).
Proof.
  intros Hf. unfold on_batch_error, update_one.
  destruct (recovery_error w); [done|].
  rewrite find_one_apply_update_same by done. by rewrite Hf.
Qed.

Lemma publish_effects (cfg : Config) (w : World) (task_id : ObjectId)
    (task_data : Task) (db : Store) :
  (publish_to_wordpress cfg w task_id task_data db).2 =
  concat (publish_batch cfg w (default [] (color_analysis task_data))).*2.
Proof. unfold publish_to_wordpress. by destruct (update_one _ _ _ _). Qed.

(* ===================================================================== *)
(** ** Entries of the color-correction batch *)
(* ===================================================================== *)

Lemma saved_files_app (e1 e2 : list effect) :
  saved_files (e1 ++ e2) = (saved_files e1 ++ saved_files e2)%list.
Proof. apply omap_app. Qed.

Lemma color_loop_lookup (w : World) (saved : list string) (idx : nat)
    (urls : list string) (n : nat) :
  color_loop w saved idx urls !! n =
  (fun url =>
     analyze_photo w
       (saved ++ saved_files (concat (take n (color_loop w saved idx urls)).*2))
       (idx + n) url) <$> urls !! n.
Proof.
  revert saved idx n. induction urls as [|url rest IH]; intros saved idx n.
  - by destruct n.
  - destruct n as [|n]; cbn [color_loop].
    + simpl. by rewrite app_nil_r, Nat.add_0_r.
    + cbn [lookup list_lookup take fmap list_fmap concat]. rewrite IH.
      rewrite saved_files_app, app_assoc.
      by replace (S idx + n) with (idx + S n) by lia.
Qed.

Lemma color_batch_lookup (w : World) (urls : list string) (n : nat) :
  (color_batch w urls).*1 !! n =
  (fun url => (analyze_photo w (saved_before w urls n) n url).1) <$> urls !! n.
Proof.
  unfold saved_before, color_batch.
  rewrite list_lookup_fmap, color_loop_lookup. by destruct (urls !! n).
Qed.

Lemma color_loop_length (w : World) (saved : list string) (idx : nat)
    (urls : list string) :
  length (color_loop w saved idx urls) = length urls.
Proof.
  revert saved idx. induction urls as [|url rest IH]; intros saved idx; [done|].
  simpl. by rewrite IH.
Qed.

Lemma color_batch_length (w : World) (urls : list string) :
  length (color_batch w urls).*1 = length urls.
Proof. unfold color_batch. by rewrite length_fmap, color_loop_length. Qed.

Lemma analyze_photo_shape (w : World) (saved : list string) (n : nat) (url : string) :
  entry_shape w n url (analyze_photo w saved n url).1.
Proof.
  unfold entry_shape, analyze_photo. destruct (is_local url).
  - destruct (apply_color_corrections w saved url (Some agent_adjustments))
      as [cp eff].
    simpl. split; [done|]. split; [done|]. split; [|done].
    destruct (truthy (path_val cp)); auto.
  - done.
Qed.

Lemma color_batch_aligned (w : World) (urls : list string) :
  aligned_color urls (color_batch w urls).*1.
Proof.
  split; [apply color_batch_length|].
  intros n url Hn. rewrite color_batch_lookup, Hn. simpl.
  eexists. split; [done|].
  destruct (analyze_photo_shape w (saved_before w urls n) n url) as [Hidx Hshape].
  split; [done|].
  destruct (is_local url).
  - left. apply Hshape.
  - right. apply Hshape.
Qed.

Lemma analyze_photo_corrected_path (w : World) (saved : list string) (idx : nat)
    (url p : string) :
  get (analyze_photo w saved idx url).1 "corrected_path" = VStr p ->
  p = splitext_root url ++ "_color_corrected.jpg".
Proof.
  unfold analyze_photo. destruct (is_local url).
  - unfold apply_color_corrections.
    destruct (path_exists w saved (VStr url)) as [[|]|]; try done.
    destruct (pil_enhance_save w url _ _); [done|].
    simpl. dict_lookup. by intros [= <-].
  - done.
Qed.

Lemma corrected_name_nonempty (base : string) :
  String.eqb (base ++ "_color_corrected.jpg") "" = false.
Proof. by destruct base. Qed.

Lemma analyze_photo_completed (w : World) (saved : list string) (n : nat)
    (url : string) :
  is_local url = true ->
  path_exists w saved (VStr url) = Ok true ->
  pil_enhance_save w url agent_adjustments
    (splitext_root url ++ "_color_corrected.jpg") = None ->
  (analyze_photo w saved n url).1 !! "status" = Some (VStr "completed")
  /\ (analyze_photo w saved n url).1 !! "corrected_path"
     = Some (VStr (splitext_root url ++ "_color_corrected.jpg"))
  /\ (analyze_photo w saved n url).2
     = [SaveImage (splitext_root url ++ "_color_corrected.jpg")].
Proof.
  unfold analyze_photo, apply_color_corrections.
  intros -> -> Hpil. simpl. rewrite Hpil. simpl.
  rewrite corrected_name_nonempty. simpl. repeat split; by dict_lookup.
Qed.

Lemma analyze_photo_missing (w : World) (saved : list string) (n : nat)
    (url : string) :
  is_local url = true ->
  path_exists w saved (VStr url) = Ok false ->
  (analyze_photo w saved n url).1 !! "status" = Some (VStr "failed")
  /\ (analyze_photo w saved n url).1 !! "corrected_path" = Some VNone.
Proof.
  unfold analyze_photo, apply_color_corrections.
  intros -> ->. simpl. split; by dict_lookup.
Qed.

(* ===================================================================== *)
(** ** Entries of the publish batch *)
(* ===================================================================== *)

Lemma publish_batch_lookup (cfg : Config) (w : World) (analysis : list dict) (n : nat) :
  (publish_batch cfg w analysis).*1 !! n =
  (fun a => if not_configured cfg
            then entry_reason n "skipped" "WordPress credentials not fully configured"
            else (publish_one w n a).1) <$> analysis !! n.
Proof.
  unfold publish_batch. destruct (not_configured cfg);
    rewrite list_lookup_fmap, list_lookup_imap; by destruct (analysis !! n).
Qed.

Lemma publish_batch_length (cfg : Config) (w : World) (analysis : list dict) :
  length (publish_batch cfg w analysis).*1 = length analysis.
Proof.
  unfold publish_batch. destruct (not_configured cfg);
    by rewrite length_fmap, length_imap.
Qed.

(** What upload_to_wordpress reports as a success is what WordPress
    answered with 200 or 201. *)
Lemma upload_success (w : World) (file_path filename : string) :
  truthy (get (upload_to_wordpress w file_path filename).1 "success") = true ->
  exists response media_data,
    requests_post w file_path filename = Ok response
    /\ (status_code response = 200 \/ status_code response = 201)%Z
    /\ json response = Ok media_data
    /\ (upload_to_wordpress w file_path filename).1 !! "media_id"
       = Some (get media_data "id")
    /\ (upload_to_wordpress w file_path filename).1 !! "media_url"
       = Some (get media_data "source_url").
Proof.
  unfold upload_to_wordpress.
  destruct (os_path_exists w (VStr file_path)) as [[|]|]; try done.
  destruct (read_bytes w file_path); [done|].
  destruct (requests_post w file_path filename) as [response|]; [|done].
  destruct ((status_code response =? 200)%Z || (status_code response =? 201)%Z) eqn:Hc;
    [|done].
  destruct (json response) as [media_data|] eqn:Hjson; [|done].
  intros _. exists response, media_data.
  split; [done|]. split.
  { apply orb_true_iff in Hc. destruct Hc as [Hc|Hc]; apply Z.eqb_eq in Hc; auto. }
  by repeat split.
Qed.

Lemma publish_file_index (w : World) (idx : nat) (p : string) :
  (publish_file w idx p).1 !! "photo_index" = Some (VInt (Z.of_nat idx + 1)).
Proof.
  unfold publish_file. destruct (upload_to_wordpress w p (path_name p)) as [r eff].
  destruct (truthy (get r "success")); [|done].
  destruct (r !! "media_id"); [|done]. by destruct (r !! "media_url").
Qed.

Lemma publish_one_index (w : World) (idx : nat) (analysis : dict) :
  (publish_one w idx analysis).1 !! "photo_index" = Some (VInt (Z.of_nat idx + 1)).
Proof.
  unfold publish_one. destruct (negb _); [done|].
  destruct (os_path_exists w _) as [[|]|]; try done.
  destruct (get analysis "corrected_path"); try done. apply publish_file_index.
Qed.

Lemma publish_file_published (w : World) (idx : nat) (p : string) :
  is_published (publish_file w idx p).1 = true ->
  (publish_file w idx p).1 !! "file_path" = Some (VStr p)
  /\ exists response media_data,
       requests_post w p (path_name p) = Ok response
       /\ (status_code response = 200 \/ status_code response = 201)%Z
       /\ json response = Ok media_data
       /\ (publish_file w idx p).1 !! "media_id" = Some (get media_data "id")
       /\ (publish_file w idx p).1 !! "media_url" = Some (get media_data "source_url").
Proof.
  unfold publish_file.
  pose proof (upload_success w p (path_name p)) as Hup.
  destruct (upload_to_wordpress w p (path_name p)) as [r eff]. simpl in Hup.
  destruct (truthy (get r "success")); [|done].
  destruct (Hup eq_refl) as (response & media_data & Hpost & Hcode & Hjson & Hid & Hurl).
  rewrite Hid, Hurl. intros _. split; [done|].
  exists response, media_data. by repeat split.
Qed.

Lemma publish_one_published (w : World) (idx : nat) (analysis : dict) :
  is_published (publish_one w idx analysis).1 = true ->
  exists p,
    get analysis "corrected_path" = VStr p
    /\ (publish_one w idx analysis).1 !! "file_path" = Some (VStr p)
    /\ exists response media_data,
         requests_post w p (path_name p) = Ok response
         /\ (status_code response = 200 \/ status_code response = 201)%Z
         /\ json response = Ok media_data
         /\ (publish_one w idx analysis).1 !! "media_id" = Some (get media_data "id")
         /\ (publish_one w idx analysis).1 !! "media_url"
            = Some (get media_data "source_url").
Proof.
  unfold publish_one. destruct (negb _); [done|].
  destruct (os_path_exists w _) as [[|]|]; try done.
  destruct (get analysis "corrected_path") as [| | |p|]; try done.
  intros Hp. exists p. split; [done|]. by apply publish_file_published.
Qed.

Lemma publish_batch_aligned (cfg : Config) (w : World) (analysis : list dict) :
  aligned_publish analysis (publish_batch cfg w analysis).*1.
Proof.
  split; [apply publish_batch_length|].
  intros n a Hn. rewrite publish_batch_lookup, Hn. simpl.
  eexists. split; [done|]. destruct (not_configured cfg).
  - split; done.
  - split; [apply publish_one_index|].
    intros Hp. destruct (publish_one_published w n a Hp) as (p & Hcp & Hfp & _).
    by rewrite Hcp.
Qed.

Lemma end_to_end_aligned (cfg : Config) (w1 w2 : World) (urls : list string) :
  aligned_end_to_end urls (publish_batch cfg w2 (color_batch w1 urls).*1).*1.
Proof.
  split; [by rewrite publish_batch_length, color_batch_length|].
  intros n url Hn.
  destruct (publish_batch_aligned cfg w2 (color_batch w1 urls).*1) as [_ Hal].
  destruct (Hal n (analyze_photo w1 (saved_before w1 urls n) n url).1)
    as (entry & He & Hidx & Hfp).
  { by rewrite color_batch_lookup, Hn. }
  exists entry. split; [done|]. split; [done|].
  intros Hp. specialize (Hfp Hp). rewrite Hfp. f_equal.
  rewrite publish_batch_lookup, color_batch_lookup, Hn in He. simpl in He.
  injection He as <-. destruct (not_configured cfg); [done|].
  destruct (publish_one_published w2 n _ Hp) as (p & Hcp & _).
  rewrite Hcp. f_equal. by apply analyze_photo_corrected_path in Hcp.
Qed.

Lemma upload_answer (w : World) (p filename : string) (response : Response)
    (media_data : dict) :
  os_path_exists w (VStr p) = Ok true ->
  read_bytes w p = None ->
  requests_post w p filename = Ok response ->
  (status_code response = 200 \/ status_code response = 201)%Z ->
  json response = Ok media_data ->
  (upload_to_wordpress w p filename).1 =
  <["success" := VBool true]>
  (<["media_id" := get media_data "id"]>
  (<["media_url" := get media_data "source_url"]>
  (<["status_code" := VInt (status_code response)]> ∅))).
Proof.
  unfold upload_to_wordpress. intros -> -> -> Hcode ->.
  by destruct Hcode as [-> | ->].
Qed.

Lemma publish_one_succeeds (cfg : Config) (w : World) (idx : nat) (a : dict)
    (p : string) (media_data : dict) :
  upload_succeeds cfg w a p media_data ->
  (publish_one w idx a).1 =
  <["photo_index" := VInt (Z.of_nat idx + 1)]>
  (<["status" := VStr "published"]>
  (<["media_id" := get media_data "id"]>
  (<["media_url" := get media_data "source_url"]>
  (<["file_path" := VStr p]> ∅)))).
Proof.
  intros (_ & Hcp & Hp & Hex & Hrd & response & Hpost & Hcode & Hjson).
  unfold publish_one. rewrite Hcp. simpl.
  apply String.eqb_neq in Hp. rewrite Hp. simpl. rewrite Hex.
  unfold publish_file.
  pose proof (upload_answer w p (path_name p) response media_data
                Hex Hrd Hpost Hcode Hjson) as Hup.
  destruct (upload_to_wordpress w p (path_name p)) as [r eff].
  simpl in Hup. subst r. by dict_lookup.
Qed.

Lemma publish_one_published_file (w : World) (idx : nat) (a : dict) :
  is_published (publish_one w idx a).1 = true ->
  exists p,
    get a "corrected_path" = VStr p
    /\ p <> ""
    /\ os_path_exists w (VStr p) = Ok true
    /\ read_bytes w p = None.
Proof.
  unfold publish_one. destruct (negb _) eqn:Ht; [done|].
  destruct (os_path_exists w _) as [[|]|] eqn:Hex; try done.
  destruct (get a "corrected_path") as [| | |p|]; try done.
  intros Hp. exists p. split; [done|]. split.
  { intros ->. done. }
  split; [done|].
  revert Hp. unfold publish_file, upload_to_wordpress. rewrite Hex.
  by destruct (read_bytes w p).
Qed.

Lemma is_published_get (r : dict) :
  is_published r = true <-> get r "status" = VStr "published".
Proof. unfold is_published. apply bool_decide_eq_true. Qed.

Lemma existsb_published (results : list dict) :
  existsb is_published results = true <->
  exists r, r ∈ results /\ get r "status" = VStr "published".
Proof.
  rewrite existsb_exists. split; intros (r & Hin & Hp); exists r.
  - split; [by apply list_elem_of_In | by apply is_published_get].
  - split; [by apply list_elem_of_In | by apply is_published_get].
Qed.

Lemma published_entry_upload (cfg : Config) (w : World) (analysis : list dict)
    (n : nat) (r : dict) :
  (publish_batch cfg w analysis).*1 !! n = Some r ->
  get r "status" = VStr "published" ->
  exists a p media_data,
    analysis !! n = Some a
    /\ upload_succeeds cfg w a p media_data
    /\ r !! "media_id" = Some (get media_data "id")
    /\ r !! "media_url" = Some (get media_data "source_url")
    /\ r !! "file_path" = Some (VStr p).
Proof.
  intros Hn Hp. rewrite publish_batch_lookup in Hn.
  destruct (analysis !! n) as [a|]; [|done]. simpl in Hn. injection Hn as <-.
  destruct (not_configured cfg) eqn:Hcfg; [done|].
  apply is_published_get in Hp.
  destruct (publish_one_published w n a Hp)
    as (p & Hcp & Hfp & response & media_data & Hpost & Hcode & Hjson & Hid & Hurl).
  destruct (publish_one_published_file w n a Hp) as (p' & Hcp' & Hne & Hex & Hrd).
  assert (p' = p) as -> by congruence.
  exists a, p, media_data. split; [done|]. split; [|done].
  repeat split; try done. by exists response.
Qed.

Lemma published_entry_media (cfg : Config) (w : World) (analysis : list dict) (r : dict) :
  r ∈ (publish_batch cfg w analysis).*1 ->
  get r "status" = VStr "published" ->
  exists p response media_data,
    requests_post w p (path_name p) = Ok response
    /\ (status_code response = 200 \/ status_code response = 201)%Z
    /\ json response = Ok media_data
    /\ r !! "media_id" = Some (get media_data "id")
    /\ r !! "media_url" = Some (get media_data "source_url").
Proof.
  intros Hin Hp. apply list_elem_of_lookup in Hin. destruct Hin as [n Hn].
  rewrite publish_batch_lookup in Hn.
  destruct (analysis !! n) as [a|]; [|done]. simpl in Hn. injection Hn as <-.
  destruct (not_configured cfg); [done|].
  apply is_published_get in Hp.
  destruct (publish_one_published w n a Hp) as (p & _ & _ & response & media_data & H).
  by exists p, response, media_data.
Qed.

Lemma concat_imap_no_effects {A B : Type} (f : nat -> A -> B * list effect)
    (l : list A) :
  (forall i x, (f i x).2 = []) -> concat (imap f l).*2 = [].
Proof.
  revert f. induction l as [|x l IH]; intros f Hf; [done|].
  simpl. rewrite Hf. simpl. apply IH. intros i y. apply Hf.
Qed.

Lemma load_config_absent (env : gmap string string) :
  env !! "WORDPRESS_URL" = None
  \/ env !! "WORDPRESS_USER" = None
  \/ env !! "WORDPRESS_PASSWORD" = None ->
  not_configured (load_config env) = true.
Proof.
  unfold not_configured, load_config. simpl.
  intros [H|[H|H]]; rewrite H; simpl.
  - done.
  - by rewrite orb_true_r.
  - by rewrite orb_true_r.
Qed.

Lemma skipped_batch (cfg : Config) (w : World) (analysis : list dict) :
  not_configured cfg = true ->
  concat (publish_batch cfg w analysis).*2 = []
  /\ forall entry, entry ∈ (publish_batch cfg w analysis).*1 ->
       entry !! "status" = Some (VStr "skipped").
Proof.
  intros Hnc. split.
  - unfold publish_batch. rewrite Hnc. by apply concat_imap_no_effects.
  - intros entry Hin. apply list_elem_of_lookup in Hin. destruct Hin as [n Hn].
    rewrite publish_batch_lookup, Hnc in Hn.
    destruct (analysis !! n); [|done]. simpl in Hn. by injection Hn as <-.
Qed.

Lemma skipped_not_published (results : list dict) :
  (forall entry, entry ∈ results -> entry !! "status" = Some (VStr "skipped")) ->
  existsb is_published results = false.
Proof.
  intros Hall. destruct (existsb is_published results) eqn:Hb; [|done].
  apply existsb_published in Hb. destruct Hb as (r & Hin & Hp).
  apply Hall in Hin. unfold get in Hp. rewrite Hin in Hp. done.
Qed.

Lemma batch_error_outcome (w : World) (task_id : ObjectId) (e : string)
    (t : Task) (db : Store) :
  find_one db task_id = Some t ->
  exists t',
    find_one (on_batch_error w task_id e db) task_id = Some t'
    /\ results_untouched t t'
    /\ (recovery_error w = None -> failure_recorded e t t')
    /\ (recovery_error w <> None -> t' = t).
Proof.
  intros Hf. eexists. split; [by apply on_batch_error_lookup|].
  destruct (recovery_error w); by repeat split.
Qed.

(* ===================================================================== *)
(** ** Successive states of the store *)
(* ===================================================================== *)

Lemma advance_ok_refl (a : option string) : advance_ok a a = true.
Proof. unfold advance_ok. by rewrite bool_decide_eq_true_2. Qed.

Lemma store_advance_refl (db : Store) : store_advance db db.
Proof. intros task_id t Ht. exists t. split; [done | apply advance_ok_refl]. Qed.

Lemma last_cons_default {A : Type} (x d : A) (l : list A) :
  List.last (x :: l) d = List.last l x.
Proof.
  revert x d. induction l as [|y l IH]; intros x d; [done|].
  change (List.last (y :: l) d = List.last (y :: l) x).
  by rewrite !IH.
Qed.

Lemma chain_app (db : Store) (l1 l2 : list Store) :
  chain db l1 -> chain (List.last l1 db) l2 -> chain db (l1 ++ l2)%list.
Proof.
  revert db. induction l1 as [|s l1 IH]; intros db H1 H2; simpl in *; [done|].
  destruct H1 as [Hs H1]. split; [done|].
  apply IH; [done|]. by rewrite <- (last_cons_default s db).
Qed.

Lemma in_order_observed (task_id : ObjectId) (db : Store) (states : list Store) :
  chain db states -> in_order (observed task_id (db :: states)) = true.
Proof.
  revert db. induction states as [|s rest IH]; intros db Hc.
  - unfold observed. simpl. by destruct (find_one db task_id).
  - destruct Hc as [Hs Hc]. specialize (IH s Hc).
    unfold observed in *. simpl in *.
    destruct (find_one db task_id) as [t|] eqn:Ht; simpl; [|done].
    destruct (Hs _ _ Ht) as (t' & Ht' & Hadv).
    rewrite Ht' in IH |- *. simpl in *. by rewrite Hadv.
Qed.

Lemma store_advance_update (db : Store) (task_id : ObjectId) (u : Task -> Task) :
  (forall t, _id (u t) = _id t) ->
  (forall t, find_one db task_id = Some t ->
             advance_ok (status t) (status (u t)) = true) ->
  store_advance db (apply_update db task_id u).
Proof.
  intros Hid Hadv other t Ht.
  rewrite find_one_apply_update by done.
  destruct (Nat.eqb task_id other) eqn:Ho.
  - apply Nat.eqb_eq in Ho. subst other. rewrite Ht. simpl. eauto.
  - exists t. split; [done | apply advance_ok_refl].
Qed.

Lemma store_advance_insert (db : Store) (t : Task) :
  find_one db (_id t) = None -> store_advance db (db ++ [t])%list.
Proof.
  intros Hnew other t0 Ht0. rewrite find_one_app_new by done.
  destruct (Nat.eqb (_id t) other) eqn:Ho.
  - apply Nat.eqb_eq in Ho. subst other. congruence.
  - exists t0. split; [done | apply advance_ok_refl].
Qed.

Lemma store_advance_on_batch_error (w : World) (task_id : ObjectId) (e : string)
    (db : Store) :
  store_advance db (on_batch_error w task_id e db).
Proof.
  unfold on_batch_error, update_one. destruct (recovery_error w).
  - apply store_advance_refl.
  - apply store_advance_update; [done|]. intros t _. apply advance_ok_refl.
Qed.

Lemma store_advance_color (w : World) (task_id : ObjectId) (task : Task) (db : Store) :
  find_one db task_id = Some task ->
  status task = Some "PHOTOS_UPLOADED" ->
  store_advance db (color_correct_agent w task_id task db).1.
Proof.
  intros Hf Hs. unfold color_correct_agent, update_one.
  destruct (commit_error w); simpl.
  - apply store_advance_on_batch_error.
  - apply store_advance_update; [done|].
    intros t Ht. assert (t = task) by congruence. subst t. by rewrite Hs.
Qed.

Lemma store_advance_publish (cfg : Config) (w : World) (task_id : ObjectId)
    (task : Task) (db : Store) :
  find_one db task_id = Some task ->
  status task = Some "COLOR_CORRECTED" ->
  store_advance db (publish_to_wordpress cfg w task_id task db).1.
Proof.
  intros Hf Hs. unfold publish_to_wordpress, update_one.
  destruct (commit_error w); simpl.
  - apply store_advance_on_batch_error.
  - apply store_advance_update; [done|].
    intros t Ht. assert (t = task) by congruence. subst t. rewrite Hs.
    simpl. unfold next_status. by destruct (existsb _ _).
Qed.

Lemma status_of_default (t : Task) (s : string) :
  s <> "UNKNOWN" ->
  String.eqb (default "UNKNOWN" (status t)) s = true -> status t = Some s.
Proof.
  intros Hs H. apply String.eqb_eq in H. destruct (status t); simpl in *; congruence.
Qed.

Lemma store_advance_dispatch (cfg : Config) (w : World) (change : ChangeEvent)
    (db : Store) :
  store_advance db (dispatch cfg w change db).1.
Proof.
  unfold dispatch.
  destruct (documentKey_id change) as [task_id|]; [|apply store_advance_refl].
  destruct (find_error w); [apply store_advance_refl|].
  destruct (find_one db task_id) as [task|] eqn:Hf; [|apply store_advance_refl].
  destruct (String.eqb _ "PHOTOS_UPLOADED") eqn:H1.
  - apply status_of_default in H1; [|done].
    pose proof (store_advance_color w task_id task db Hf H1) as Hadv.
    by destruct (color_correct_agent w task_id task db).
  - destruct (String.eqb _ "COLOR_CORRECTED") eqn:H2; [|apply store_advance_refl].
    apply status_of_default in H2; [|done].
    pose proof (store_advance_publish cfg w task_id task db Hf H2) as Hadv.
    by destruct (publish_to_wordpress cfg w task_id task db).
Qed.

Lemma chain_upload (w : World) (task_sku file_path product_name country : string)
    (db : Store) :
  upload_guarded (UploadPhoto w task_sku file_path product_name country) db = true ->
  chain db (upload_real_photo w task_sku file_path product_name country db).1.
Proof.
  unfold upload_guarded, upload_real_photo, find_or_create. intros Hg.
  destruct (os_path_exists w _) as [[|]|]; simpl; try done.
  destruct (find_error w); simpl; [done|].
  destruct (find_one_sku db task_sku) as [existing|] eqn:Hsku.
  - unfold update_one. destruct (commit_error w); simpl; [done|].
    destruct (find_one db (_id existing)) as [t|] eqn:Hf; simpl; [|done].
    split; [|done]. apply store_advance_update; [done|].
    intros t0 Ht0. assert (t0 = t) by congruence. subst t0.
    apply orb_true_iff in Hg. destruct Hg as [Hg|Hg];
      apply bool_decide_eq_true_1 in Hg; rewrite Hg; done.
  - unfold insert_one. destruct (insert_error w); simpl; [done|].
    destruct (find_one db (new_object_id w)) eqn:Hnew; simpl; [done|].
    set (nt := new_task w (new_object_id w) task_sku product_name country).
    assert (Hins : store_advance db (db ++ [nt])%list)
      by (apply store_advance_insert; done).
    unfold update_one. destruct (commit_error w); simpl; [done|].
    destruct (find_one (db ++ [nt])%list (new_object_id w)) as [t|] eqn:Hf;
      simpl; [|done].
    split; [done|]. split; [|done].
    apply store_advance_update; [done|].
    intros t0 Ht0. assert (t0 = t) by congruence. subst t0.
    rewrite (find_one_app_new db nt) in Hf by done.
    simpl in Hf. rewrite Nat.eqb_refl in Hf. by injection Hf as <-.
Qed.

Lemma upload_sets_status (w : World) (task_sku file_path name ctry : string)
    (db : Store) (written : list Store) (existing : Task) :
  find_one_sku db task_sku = Some existing ->
  upload_real_photo w task_sku file_path name ctry db = (written, true) ->
  exists t',
    find_one (List.last written db) (_id existing) = Some t'
    /\ status t' = Some "PHOTOS_UPLOADED".
Proof.
  intros Hsku. unfold upload_real_photo, find_or_create.
  destruct (os_path_exists w _) as [[|]|]; simpl; try done.
  destruct (find_error w); simpl; [done|]. rewrite Hsku.
  unfold update_one. destruct (commit_error w); simpl; [done|].
  destruct (find_one db (_id existing)) as [t0|] eqn:Hf; simpl; [|done].
  intros [= <-]. simpl. rewrite find_one_apply_update_same, Hf by done.
  by eexists.
Qed.

Lemma chain_step (cfg : Config) (st : Step) (db : Store) :
  upload_guarded st db = true -> chain db (step_states cfg st db).
Proof.
  destruct st as [w sku fp pn c | w change]; intros Hg.
  - by apply chain_upload.
  - simpl. split; [apply store_advance_dispatch | done].
Qed.

Lemma chain_run (cfg : Config) (steps : list Step) (db : Store) :
  guarded cfg steps db = true -> chain db (run_states cfg steps db).
Proof.
  revert db. induction steps as [|st rest IH]; intros db Hg; simpl in *; [done|].
  apply andb_true_iff in Hg. destruct Hg as [Hst Hrest].
  apply chain_app; [by apply chain_step | by apply IH].
Qed.

(* ===================================================================== *)
(** ** Effects of the handlers *)
(* ===================================================================== *)

Lemma concat_imap_Forall {A B : Type} (P : effect -> Prop)
    (f : nat -> A -> B * list effect) (l : list A) :
  (forall i x, Forall P (f i x).2) -> Forall P (concat (imap f l).*2).
Proof.
  revert f. induction l as [|x l IH]; intros f Hf; simpl; [constructor|].
  apply Forall_app. split; [apply Hf|]. apply IH. intros i y. apply Hf.
Qed.

Lemma color_loop_Forall (P : effect -> Prop) (w : World) (saved : list string)
    (idx : nat) (urls : list string) :
  (forall saved i x, Forall P (analyze_photo w saved i x).2) ->
  Forall P (concat (color_loop w saved idx urls).*2).
Proof.
  intros Hf. revert saved idx.
  induction urls as [|url rest IH]; intros saved idx; simpl; [constructor|].
  apply Forall_app. split; [apply Hf | apply IH].
Qed.

Lemma apply_color_corrections_effects (w : World) (saved : list string)
    (p : string) (a : option Adjustments) :
  Forall (fun e => is_invoke e = false) (apply_color_corrections w saved p a).2.
Proof.
  unfold apply_color_corrections.
  destruct (path_exists w saved (VStr p)) as [[|]|]; simpl; try constructor.
  destruct (pil_enhance_save w p _ _); simpl; repeat constructor.
Qed.

Lemma analyze_photo_effects (w : World) (saved : list string) (idx : nat)
    (url : string) :
  Forall (fun e => is_invoke e = false) (analyze_photo w saved idx url).2.
Proof.
  unfold analyze_photo. destruct (is_local url).
  - pose proof (apply_color_corrections_effects w saved url
                  (Some agent_adjustments)) as H.
    by destruct (apply_color_corrections w saved url (Some agent_adjustments)).
  - constructor.
Qed.

Lemma upload_to_wordpress_effects (w : World) (p f : string) :
  Forall (fun e => is_invoke e = false) (upload_to_wordpress w p f).2.
Proof.
  unfold upload_to_wordpress.
  destruct (os_path_exists w (VStr p)) as [[|]|]; simpl; try constructor.
  destruct (read_bytes w p); simpl; [constructor|].
  destruct (requests_post w p f) as [response|]; simpl; [|repeat constructor].
  destruct (_ || _); [destruct (json response)|]; repeat constructor.
Qed.

Lemma publish_one_effects (w : World) (idx : nat) (analysis : dict) :
  Forall (fun e => is_invoke e = false) (publish_one w idx analysis).2.
Proof.
  unfold publish_one. destruct (negb _); [constructor|].
  destruct (os_path_exists w _) as [[|]|]; simpl; try constructor.
  destruct (get analysis "corrected_path") as [| | |p|]; simpl; try constructor.
  unfold publish_file.
  pose proof (upload_to_wordpress_effects w p (path_name p)) as H.
  destruct (upload_to_wordpress w p (path_name p)) as [r eff].
  destruct (truthy _); [|done].
  destruct (r !! "media_id"); [|done]. by destruct (r !! "media_url").
Qed.

Lemma color_agent_effects (w : World) (task_id : ObjectId) (task : Task) (db : Store) :
  Forall (fun e => is_invoke e = false) (color_correct_agent w task_id task db).2.
Proof.
  unfold color_correct_agent.
  assert (H : Forall (fun e => is_invoke e = false)
                (concat (color_batch w (photo_urls (metadata task))).*2)).
  { apply color_loop_Forall. intros saved i x. apply analyze_photo_effects. }
  by destruct (update_one _ _ _ _).
Qed.

Lemma publish_agent_effects (cfg : Config) (w : World) (task_id : ObjectId)
    (task : Task) (db : Store) :
  Forall (fun e => is_invoke e = false) (publish_to_wordpress cfg w task_id task db).2.
Proof.
  rewrite publish_effects. unfold publish_batch.
  destruct (not_configured cfg); apply concat_imap_Forall; intros i x.
  - constructor.
  - apply publish_one_effects.
Qed.


(* ===================================================================== *)
(** ** The dispatcher *)
(* ===================================================================== *)

Lemma dispatch_photos_uploaded (cfg : Config) (w : World) (change : ChangeEvent)
    (db : Store) (task_id : ObjectId) (t : Task) :
  documentKey_id change = Some task_id ->
  find_error w = None ->
  find_one db task_id = Some t ->
  status t = Some "PHOTOS_UPLOADED" ->
  dispatch cfg w change db =
  ((color_correct_agent w task_id t db).1,
   Invoke "color_correct_agent" task_id :: (color_correct_agent w task_id t db).2).
Proof.
  intros Hid Hfe Hf Hs. unfold dispatch. rewrite Hid, Hfe, Hf, Hs. simpl.
  by destruct (color_correct_agent w task_id t db).
Qed.

Lemma dispatch_other_status (cfg : Config) (w : World) (change : ChangeEvent)
    (db : Store) (task_id : ObjectId) (t : Task) :
  documentKey_id change = Some task_id ->
  find_one db task_id = Some t ->
  status t <> Some "PHOTOS_UPLOADED" ->
  status t <> Some "COLOR_CORRECTED" ->
  dispatch cfg w change db = (db, []).
Proof.
  intros Hid Hf H1 H2. unfold dispatch. rewrite Hid, Hf.
  destruct (find_error w); [done|].
  destruct (String.eqb _ "PHOTOS_UPLOADED") eqn:E1.
  { apply status_of_default in E1; done. }
  destruct (String.eqb _ "COLOR_CORRECTED") eqn:E2; [|done].
  apply status_of_default in E2; done.
Qed.



(* ===================================================================== *)
(** ** The supervisor loop *)
(* ===================================================================== *)

Lemma after_effects_nil (s : LoopState) : after_effects [] s = s.
Proof. by destruct s. Qed.

Lemma after_effects_app (e1 e2 : list effect) (s : LoopState) :
  after_effects e1 (after_effects e2 s) = after_effects (e1 ++ e2)%list s.
Proof. unfold after_effects. simpl. by rewrite app_assoc. Qed.

Lemma agent_loop_watch_fails (cfg : Config) (e : string) (rest : list Attempt)
    (r : nat) (db : Store) :
  S r < max_retries ->
  agent_loop cfg (watch_fails e :: rest) r db =
  after_effects [Sleep (2 ^ Z.of_nat (S r))] (agent_loop cfg rest (S r) db).
Proof.
  intros Hr. assert (Hr' : r < max_retries) by lia.
  apply Nat.ltb_lt in Hr, Hr'.
  cbn [agent_loop watch_fails opened ending default process_changes].
  by rewrite Hr, Hr'.
Qed.

Lemma agent_loop_failures (cfg : Config) (errors : list string)
    (rest : list Attempt) (r : nat) (db : Store) :
  r + length errors < max_retries ->
  agent_loop cfg (List.map watch_fails errors ++ rest)%list r db =
  after_effects (backoff r (length errors))
    (agent_loop cfg rest (r + length errors) db).
Proof.
  revert r. induction errors as [|e errors IH]; intros r Hr.
  - simpl. by rewrite Nat.add_0_r, after_effects_nil.
  - cbn [length List.map app] in Hr |- *.
    rewrite agent_loop_watch_fails by lia.
    rewrite IH by lia. rewrite after_effects_app.
    by replace (S r + length errors) with (r + S (length errors)) by lia.
Qed.

Lemma agent_loop_reconnected (cfg : Config) (changes : list (World * ChangeEvent))
    (e : string) (rest : list Attempt) (r : nat) (db : Store) :
  r < max_retries ->
  agent_loop cfg ({| opened := Some changes; ending := Exception e |} :: rest) r db =
  after_effects ((process_changes cfg changes db).2 ++ [Sleep 2])
    (agent_loop cfg rest 1 (process_changes cfg changes db).1).
Proof.
  intros Hr. apply Nat.ltb_lt in Hr.
  cbn [agent_loop opened ending default from_option id negb]. rewrite Hr.
  cbn [negb]. by destruct (process_changes cfg changes db).
Qed.

Lemma agent_loop_interrupted (cfg : Config) (changes : list (World * ChangeEvent))
    (rest : list Attempt) (r : nat) (db : Store) :
  r < max_retries ->
  agent_loop cfg ({| opened := Some changes; ending := KeyboardInterrupt |} :: rest) r db =
  {| ls_retry_count := 0;
     ls_store := (process_changes cfg changes db).1;
     ls_effects := (process_changes cfg changes db).2;
     ls_shut_down := true |}.
Proof.
  intros Hr. apply Nat.ltb_lt in Hr.
  cbn [agent_loop opened ending default from_option id negb]. rewrite Hr.
  cbn [negb]. by destruct (process_changes cfg changes db).
Qed.

(* ===================================================================== *)
(** ** The task state machine *)
(* ===================================================================== *)

(** C1, amended.  In a run made of upload steps and deliveries of change
    events (each handled to its end, as the sequential worker loop does), in
    which every upload step finds its SKU without a task or with a task at
    INITIATED or PHOTOS_UPLOADED, the statuses observed for any task follow
    INITIATED -> PHOTOS_UPLOADED -> COLOR_CORRECTED ->
    {WORDPRESS_PUBLISHED | PUBLISH_FAILED}: from one state of the store to
    the next a status stays or moves exactly one stage on.  The upload step
    itself is not bound to that order: when it succeeds for a SKU that has a
    task, that task is at PHOTOS_UPLOADED afterwards, whatever its status
    was. *)
Theorem status_order_in_guarded_runs (cfg : Config) (steps : list Step) (db : Store)
    (Hguard : guarded cfg steps db = true) (task_id : ObjectId) :
  in_order (observed task_id (history cfg steps db)) = true
  /\ (forall w task_sku file_path name ctry db0 written existing,
        find_one_sku db0 task_sku = Some existing ->
        upload_real_photo w task_sku file_path name ctry db0 = (written, true) ->
        exists t',
          find_one (List.last written db0) (_id existing) = Some t'
          /\ status t' = Some "PHOTOS_UPLOADED").
Proof.
  split.
  - unfold history. apply in_order_observed. by apply chain_run.
  - intros w task_sku file_path name ctry db0 written existing.
    apply upload_sets_status.
Qed.

Lemma status_order_in_guarded_runs_witness :
  guarded sample_config pipeline_run [] = true
  /\ observed 100 (history sample_config pipeline_run [])
     = [ Some "INITIATED"; Some "PHOTOS_UPLOADED"; Some "COLOR_CORRECTED";
         Some "WORDPRESS_PUBLISHED"; Some "WORDPRESS_PUBLISHED" ]
  /\ in_order (observed 100 (history sample_config pipeline_run [])) = true.
Proof.
  split; [vm_compute; reflexivity|]. split; [vm_compute; reflexivity|].
  apply (status_order_in_guarded_runs sample_config pipeline_run []).
  vm_compute. reflexivity.
Defined.

(** C1 as stated fails: a second upload for a SKU whose task is already at
    COLOR_CORRECTED sets the status back to PHOTOS_UPLOADED. *)
Lemma second_upload_regresses_status :
  observed 100 (history sample_config second_upload_run [])
  = [ Some "INITIATED"; Some "PHOTOS_UPLOADED"; Some "COLOR_CORRECTED";
      Some "PHOTOS_UPLOADED" ]
  /\ in_order (observed 100 (history sample_config second_upload_run [])) = false.
Proof. split; vm_compute; reflexivity. Qed.

(* ===================================================================== *)
(** ** Index alignment *)
(* ===================================================================== *)

(** C2.  The array a handler builds and commits has one entry per input
    item, in input order: the n-th entry of `color_analysis` is numbered n+1
    and carries the n-th photo reference; the n-th entry of
    `wordpress_publish_results` is numbered n+1 and, when published, names
    the corrected file of the n-th analysis entry, hence (for an analysis
    written by Agent 2A) the corrected copy of the n-th photo.  This holds
    whatever individual items fail, and these are the arrays found in the
    task once the commit is applied. *)
Theorem result_arrays_index_aligned (cfg : Config) (w : World) (task_id : ObjectId)
    (task_data : Task) (db : Store) :
  aligned_color (photo_urls (metadata task_data))
    (color_batch w (photo_urls (metadata task_data))).*1
  /\ aligned_publish (default [] (color_analysis task_data))
       (publish_batch cfg w (default [] (color_analysis task_data))).*1
  /\ (forall w0 urls,
        aligned_end_to_end urls (publish_batch cfg w (color_batch w0 urls).*1).*1)
  /\ (forall t,
        find_one db task_id = Some t ->
        commit_error w = None ->
        color_analysis
          <$> find_one (color_correct_agent w task_id task_data db).1 task_id
        = Some (Some (color_batch w (photo_urls (metadata task_data))).*1)
        /\ wordpress_publish_results
             <$> find_one (publish_to_wordpress cfg w task_id task_data db).1 task_id
           = Some (Some (publish_batch cfg w
                           (default [] (color_analysis task_data))).*1)).
Proof.
  split; [apply color_batch_aligned|].
  split; [apply publish_batch_aligned|].
  split; [intros w0 urls; apply end_to_end_aligned|].
  intros t Hfound Hcommit.
  by rewrite (color_commit w task_id task_data t db),
             (publish_commit cfg w task_id task_data t db).
Qed.

Lemma result_arrays_index_aligned_witness :
  find_one [corrected_task] 1 = Some corrected_task
  /\ commit_error calm_world = None
  /\ aligned_color [photo_a; photo_missing]
       (color_batch calm_world [photo_a; photo_missing]).*1
  /\ aligned_end_to_end [photo_a; photo_missing]
       (publish_batch sample_config calm_world
          (color_batch calm_world [photo_a; photo_missing]).*1).*1
  /\ wordpress_publish_results
       <$> find_one (publish_to_wordpress sample_config calm_world 1
                       corrected_task [corrected_task]).1 1
     = Some (Some (publish_batch sample_config calm_world
                     (color_batch calm_world [photo_a; photo_missing]).*1).*1).
Proof.
  destruct (result_arrays_index_aligned sample_config calm_world 1
              corrected_task [corrected_task])
    as (Hcolor & _ & Hboth & Hstored).
  split; [reflexivity|]. split; [reflexivity|].
  split; [exact Hcolor|].
  split; [apply Hboth|].
  apply (Hstored corrected_task); reflexivity.
Defined.

(* ===================================================================== *)
(** ** Batch failures *)
(* ===================================================================== *)

(** C3, amended.  When the commit of a handler (color correction or publish)
    raises, the status, the workflow step, both result arrays and the audit
    log of the task are left as they were; if the bookkeeping update that
    follows is applied, `retry_metadata.count` is one more than before and
    `retry_metadata.last_error` is the text of the error; if that update
    raises too, it is only logged and the task is unchanged. *)
Theorem batch_failure_bookkeeping (cfg : Config) (w : World) (task_id : ObjectId)
    (task_data t : Task) (db : Store) (e : string)
    (Hfound : find_one db task_id = Some t)
    (Hraised : commit_error w = Some e) :
  (exists t',
      find_one (color_correct_agent w task_id task_data db).1 task_id = Some t'
      /\ results_untouched t t'
      /\ (recovery_error w = None -> failure_recorded e t t')
      /\ (recovery_error w <> None -> t' = t))
  /\ (exists t',
      find_one (publish_to_wordpress cfg w task_id task_data db).1 task_id = Some t'
      /\ results_untouched t t'
      /\ (recovery_error w = None -> failure_recorded e t t')
      /\ (recovery_error w <> None -> t' = t)).
Proof.
  unfold color_correct_agent, publish_to_wordpress, update_one.
  rewrite Hraised. simpl. split; by apply batch_error_outcome.
Qed.

Lemma batch_failure_bookkeeping_witness :
  let cfg := sample_config in
  let w := commit_fails_world in
  let task_id := 1 in
  let task_data := uploaded_task in
  let t := uploaded_task in
  let db := [uploaded_task] in
  let e := "document too large" in
  find_one db task_id = Some t
  /\ commit_error w = Some e
  /\ recovery_error w = None
  /\ (exists t',
        find_one (color_correct_agent w task_id task_data db).1 task_id = Some t'
        /\ results_untouched t t'
        /\ failure_recorded e t t')
  /\ (exists t',
        find_one (publish_to_wordpress cfg w task_id task_data db).1 task_id = Some t'
        /\ results_untouched t t'
        /\ failure_recorded e t t').
Proof.
  intros.
  destruct (batch_failure_bookkeeping cfg w task_id task_data t db e)
    as ((t1 & Hf1 & Hu1 & Hr1 & _) & (t2 & Hf2 & Hu2 & Hr2 & _));
    [reflexivity | reflexivity |].
  split; [reflexivity|]. split; [reflexivity|]. split; [reflexivity|].
  split.
  - exists t1. split; [exact Hf1|]. split; [exact Hu1|]. apply Hr1. reflexivity.
  - exists t2. split; [exact Hf2|]. split; [exact Hu2|]. apply Hr2. reflexivity.
Defined.

(** C3 as stated fails: with the store unreachable the commit of Agent 2A
    raises, the bookkeeping update raises as well, and the task keeps
    `retry_metadata.count = 0`. *)
Lemma unrecorded_batch_failure :
  find_one [remote_task] 1 = Some remote_task
  /\ commit_error store_down_world = Some "connection closed"
  /\ find_one (color_correct_agent store_down_world 1 remote_task [remote_task]).1 1
     = Some remote_task
  /\ find_one
       (publish_to_wordpress sample_config store_down_world 1 remote_task
          [remote_task]).1 1
     = Some remote_task
  /\ count (retry_metadata remote_task) = 0%Z
  /\ ~ failure_recorded "connection closed" remote_task remote_task.
Proof.
  repeat (split; [reflexivity|]).
  intros [Hcount _]. vm_compute in Hcount. discriminate.
Qed.

(* ===================================================================== *)
(** ** Agent 2B: the outcome of a publish batch *)
(* ===================================================================== *)

(** C4, amended.  When the publish handler does not raise (its commit is
    applied), the task holds one result entry per analysis entry.  The n-th
    entry is published exactly when the per-photo step for the n-th analysis
    entry succeeded (credentials configured, corrected file present and
    read, upload answered with 200 or 201 and a body that parses), and it
    then holds the index, under `media_id` and `media_url` the `id` and
    `source_url` fields of that body ([VNone], Python's None, for a field
    the body lacks) and under `file_path` the corrected file.  The status is
    WORDPRESS_PUBLISHED if some per-photo step succeeded and PUBLISH_FAILED
    otherwise; `workflow_step` is 3; exactly one audit entry is appended,
    whose text states the number of published entries. *)
Theorem publish_outcome (cfg : Config) (w : World) (task_id : ObjectId)
    (task_data t : Task) (db : Store)
    (Hfound : find_one db task_id = Some t)
    (Hcommit : commit_error w = None) :
  let analysis := default [] (color_analysis task_data) in
  exists t' results,
    find_one (publish_to_wordpress cfg w task_id task_data db).1 task_id = Some t'
    /\ wordpress_publish_results t' = Some results
    /\ length results = length analysis
    /\ (forall n a p media_data,
          analysis !! n = Some a ->
          upload_succeeds cfg w a p media_data ->
          results !! n =
          Some (<["photo_index" := VInt (Z.of_nat n + 1)]>
                (<["status" := VStr "published"]>
                (<["media_id" := get media_data "id"]>
                (<["media_url" := get media_data "source_url"]>
                (<["file_path" := VStr p]> ∅))))))
    /\ (forall n r,
          results !! n = Some r ->
          get r "status" = VStr "published" ->
          exists a p media_data,
            analysis !! n = Some a
            /\ upload_succeeds cfg w a p media_data
            /\ r !! "media_id" = Some (get media_data "id")
            /\ r !! "media_url" = Some (get media_data "source_url")
            /\ r !! "file_path" = Some (VStr p))
    /\ ((exists n a p media_data,
           analysis !! n = Some a /\ upload_succeeds cfg w a p media_data) ->
        status t' = Some "WORDPRESS_PUBLISHED")
    /\ (~ (exists n a p media_data,
             analysis !! n = Some a /\ upload_succeeds cfg w a p media_data) ->
        status t' = Some "PUBLISH_FAILED")
    /\ workflow_step t' = Some 3%Z
    /\ agent_log t' =
       (agent_log t ++
        [ {| timestamp := now w;
             agent := "wordpress_publish_agent_2b";
             action := "wordpress_publish_completed";
             thought := "Published "
                        ++ pretty (length (List.filter is_published results))
                        ++ " photos to WordPress" |} ])%list.
Proof.
  intros analysis.
  set (results := (publish_batch cfg w analysis).*1).
  assert (Hforward : forall n a p media_data,
            analysis !! n = Some a ->
            upload_succeeds cfg w a p media_data ->
            results !! n =
            Some (<["photo_index" := VInt (Z.of_nat n + 1)]>
                  (<["status" := VStr "published"]>
                  (<["media_id" := get media_data "id"]>
                  (<["media_url" := get media_data "source_url"]>
                  (<["file_path" := VStr p]> ∅)))))).
  { intros n a p media_data Hn Hup. unfold results.
    rewrite publish_batch_lookup, Hn. simpl.
    destruct Hup as [Hcfg Hrest]. rewrite Hcfg. f_equal.
    by apply (publish_one_succeeds cfg). }
  exists (set_published results (publish_log_entry w results) t), results.
  split; [by apply publish_commit|]. split; [done|].
  split; [apply publish_batch_length|]. split; [exact Hforward|].
  split; [intros n r; apply published_entry_upload|].
  simpl. unfold next_status. split; [|split; [|done]].
  - intros (n & a & p & media_data & Hn & Hup).
    assert (Hex : existsb is_published results = true).
    { apply existsb_published. eexists. split.
      - apply list_elem_of_lookup. exists n. by apply (Hforward n a p media_data).
      - by dict_lookup. }
    by rewrite Hex.
  - intros Hnone. destruct (existsb is_published results) eqn:Hb; [|done].
    apply existsb_published in Hb. destruct Hb as (r & Hin & Hp).
    apply list_elem_of_lookup in Hin. destruct Hin as [n Hn].
    destruct (published_entry_upload cfg w analysis n r Hn Hp)
      as (a & p & media_data & Ha & Hup & _).
    destruct Hnone. by exists n, a, p, media_data.
Qed.

Lemma publish_outcome_witness :
  let cfg := sample_config in
  let w := calm_world in
  let task_id := 1 in
  let task_data := corrected_task in
  let t := corrected_task in
  let db := [corrected_task] in
  let analysis := default [] (color_analysis task_data) in
  find_one db task_id = Some t
  /\ commit_error w = None
  /\ (exists a,
        analysis !! 0 = Some a
        /\ upload_succeeds cfg w a "/srv/photos/a_color_corrected.jpg"
             (<["id" := VInt 42]>
              (<["source_url" :=
                   VStr "https://shop.example/wp-content/uploads/a_color_corrected.jpg"]>
                 ∅)))
  /\ exists t' results,
       find_one (publish_to_wordpress cfg w task_id task_data db).1 task_id = Some t'
       /\ wordpress_publish_results t' = Some results
       /\ length results = 2
       /\ (exists r,
             results !! 0 = Some r
             /\ r !! "status" = Some (VStr "published")
             /\ r !! "media_id" = Some (VInt 42))
       /\ status t' = Some "WORDPRESS_PUBLISHED"
       /\ workflow_step t' = Some 3%Z
       /\ agent_log t' =
          (agent_log t ++
           [ {| timestamp := now w;
                agent := "wordpress_publish_agent_2b";
                action := "wordpress_publish_completed";
                thought := "Published 1 photos to WordPress" |} ])%list.
Proof.
  cbv zeta.
  assert (Hup : upload_succeeds sample_config calm_world
            (analyze_photo calm_world [] 0 photo_a).1
            "/srv/photos/a_color_corrected.jpg"
            (<["id" := VInt 42]>
             (<["source_url" :=
                  VStr "https://shop.example/wp-content/uploads/a_color_corrected.jpg"]>
                ∅))).
  { split; [reflexivity|]. split; [reflexivity|]. split; [discriminate|].
    split; [reflexivity|]. split; [reflexivity|].
    exists created_response. split; [reflexivity|]. split; [by right | reflexivity]. }
  split; [reflexivity|]. split; [reflexivity|].
  split; [eexists; split; [reflexivity | exact Hup]|].
  destruct (publish_outcome sample_config calm_world 1 corrected_task corrected_task
              [corrected_task] eq_refl eq_refl)
    as (t' & results & Hf & Hres & Hlen & Hfwd & _ & Hpub & _ & Hstep & Hlog).
  exists t', results. split; [exact Hf|]. split; [exact Hres|].
  split; [exact Hlen|].
  split.
  { eexists. split; [apply (Hfwd 0 _ _ _ eq_refl Hup)|]. split; reflexivity. }
  split; [apply Hpub; eexists 0, _, _, _; split; [reflexivity | exact Hup]|].
  split; [exact Hstep|].
  rewrite Hlog. do 3 f_equal.
  assert (Hsame : Some results
                  = Some (publish_batch sample_config calm_world
                            (default [] (color_analysis corrected_task))).*1).
  { rewrite <- Hres.
    assert (Ht' : Some t' = Some (set_published
              (publish_batch sample_config calm_world
                 (default [] (color_analysis corrected_task))).*1
              (publish_log_entry calm_world
                 (publish_batch sample_config calm_world
                    (default [] (color_analysis corrected_task))).*1)
              corrected_task)).
    { rewrite <- Hf. by apply publish_commit. }
    by injection Ht' as ->. }
  injection Hsame as ->. reflexivity.
Defined.

(** C4 as stated fails: WordPress answers an upload with 200 and the empty
    JSON object; the entry is marked published and the task
    WORDPRESS_PUBLISHED, but `media_id` and `media_url` are None: the entry
    carries neither an identifier nor a URL. *)
Lemma published_entry_without_media_id :
  find_one [corrected_task] 1 = Some corrected_task
  /\ commit_error bare_answer_world = None
  /\ requests_post bare_answer_world "/srv/photos/a_color_corrected.jpg"
       "a_color_corrected.jpg" = Ok bare_response
  /\ status_code bare_response = 200%Z
  /\ json bare_response = Ok ∅
  /\ exists t' r1 r2,
       find_one (publish_to_wordpress sample_config bare_answer_world 1
                   corrected_task [corrected_task]).1 1 = Some t'
       /\ status t' = Some "WORDPRESS_PUBLISHED"
       /\ wordpress_publish_results t' = Some [r1; r2]
       /\ r1 !! "status" = Some (VStr "published")
       /\ r1 !! "media_id" = Some VNone
       /\ r1 !! "media_url" = Some VNone
       /\ r1 !! "file_path" = Some (VStr "/srv/photos/a_color_corrected.jpg").
Proof.
  do 5 (split; [reflexivity|]).
  eexists _, _, _. split; [reflexivity|]. split; [reflexivity|].
  split; [reflexivity|]. repeat split; reflexivity.
Qed.

(* ===================================================================== *)
(** ** Agent 2A: the entries of `color_analysis` *)
(* ===================================================================== *)

(** C5.  The `color_analysis` built by the color-correction handler, which
    is the array found in the task once the commit is applied, has one entry
    per photo reference, and every entry carries its index, its photo
    reference (`file_path` for a local file, `photo_url` for a URL), and a
    status, completed or failed, or an error.  The entry of a local file
    carries the status and no error.  The entry of a URL carries the error
    and no status: the call of the vision API raises on every run, so no
    entry is written for a call that succeeded. *)
Theorem color_analysis_entry_shape (w : World) (task_id : ObjectId)
    (task_data : Task) (db : Store) :
  length (color_batch w (photo_urls (metadata task_data))).*1
  = length (photo_urls (metadata task_data))
  /\ (forall n url,
        photo_urls (metadata task_data) !! n = Some url ->
        exists entry,
          (color_batch w (photo_urls (metadata task_data))).*1 !! n = Some entry
          /\ entry_shape w n url entry
          /\ status_or_error entry)
  /\ (forall entry,
        entry ∈ (color_batch w (photo_urls (metadata task_data))).*1 ->
        (exists n, entry !! "photo_index" = Some (VInt (Z.of_nat n + 1)))
        /\ (exists url,
              entry !! "file_path" = Some (VStr url)
              \/ entry !! "photo_url" = Some (VStr url))
        /\ status_or_error entry)
  /\ (forall t,
        find_one db task_id = Some t ->
        commit_error w = None ->
        color_analysis
          <$> find_one (color_correct_agent w task_id task_data db).1 task_id
        = Some (Some (color_batch w (photo_urls (metadata task_data))).*1)).
Proof.
  assert (Hshape : forall saved n url,
            status_or_error (analyze_photo w saved n url).1).
  { intros saved n url.
    destruct (analyze_photo_shape w saved n url) as [_ H].
    unfold status_or_error. destruct (is_local url).
    - destruct H as (_ & [H|H] & _); auto.
    - destruct H as (_ & _ & H). right. right. by eexists. }
  split; [apply color_batch_length|]. split; [|split].
  - intros n url Hn. rewrite color_batch_lookup, Hn. simpl.
    eexists. split; [done|]. split; [apply analyze_photo_shape | apply Hshape].
  - intros entry Hin. apply list_elem_of_lookup in Hin. destruct Hin as [n Hn].
    rewrite color_batch_lookup in Hn.
    destruct (photo_urls (metadata task_data) !! n) as [url|]; [|done].
    simpl in Hn. injection Hn as <-.
    destruct (analyze_photo_shape w (saved_before w (photo_urls (metadata task_data)) n)
                n url) as [Hidx H].
    split; [by exists n|]. split; [|apply Hshape].
    exists url. destruct (is_local url); [left | right]; apply H.
  - intros t Hfound Hcommit.
    by rewrite (color_commit w task_id task_data t db).
Qed.

Lemma color_analysis_entry_shape_witness :
  photo_urls (metadata remote_task) !! 0 = Some photo_remote
  /\ find_one [remote_task] 1 = Some remote_task
  /\ commit_error calm_world = None
  /\ (exists entry,
        (color_batch calm_world (photo_urls (metadata remote_task))).*1 !! 0
        = Some entry
        /\ entry_shape calm_world 0 photo_remote entry
        /\ status_or_error entry
        /\ entry !! "error"
           = Some (VStr "'OpenAI' object has no attribute 'messages'"))
  /\ color_analysis
       <$> find_one (color_correct_agent calm_world 1 remote_task [remote_task]).1 1
     = Some (Some (color_batch calm_world (photo_urls (metadata remote_task))).*1).
Proof.
  destruct (color_analysis_entry_shape calm_world 1 remote_task [remote_task])
    as (_ & Hshape & _ & Hstored).
  split; [reflexivity|]. split; [reflexivity|]. split; [reflexivity|].
  split.
  { destruct (Hshape 0 photo_remote eq_refl) as (entry & He & Hs & Hse).
    exists entry. split; [exact He|]. split; [exact Hs|]. split; [exact Hse|].
    destruct Hs as (_ & _ & _ & Herr). exact Herr. }
  apply (Hstored remote_task); reflexivity.
Defined.

(* ===================================================================== *)
(** ** Agent 2A: one file present, one missing *)
(* ===================================================================== *)

(** C6, amended.  For a task at PHOTOS_UPLOADED with two local photo
    references, the first an existing file that is opened, enhanced and
    saved without error, the second a file that is missing and is not the
    corrected copy the first one is saved to, the color-correction handler
    builds a `color_analysis` of exactly two entries, the first completed
    and carrying the path of the corrected file, the second failed; when its
    commit is applied, the task holds these two entries, its status is
    COLOR_CORRECTED, its workflow step 2, and one audit entry is
    appended. *)
Theorem two_local_photos_scenario (w : World) (task_id : ObjectId)
    (t : Task) (db : Store) (p1 p2 : string)
    (Hfound : find_one db task_id = Some t)
    (Hstatus : status t = Some "PHOTOS_UPLOADED")
    (Hurls : photo_urls (metadata t) = [p1; p2])
    (Hlocal1 : is_local p1 = true)
    (Hlocal2 : is_local p2 = true)
    (Hexists1 : os_path_exists w (VStr p1) = Ok true)
    (Hsaved1 : pil_enhance_save w p1 agent_adjustments
                 (splitext_root p1 ++ "_color_corrected.jpg") = None)
    (Hmissing2 : os_path_exists w (VStr p2) = Ok false)
    (Hother : p2 <> splitext_root p1 ++ "_color_corrected.jpg")
    (Hcommit : commit_error w = None) :
  exists e1 e2 t',
    (color_batch w (photo_urls (metadata t))).*1 = [e1; e2]
    /\ e1 !! "status" = Some (VStr "completed")
    /\ e1 !! "corrected_path" = Some (VStr (splitext_root p1 ++ "_color_corrected.jpg"))
    /\ e2 !! "status" = Some (VStr "failed")
    /\ find_one (color_correct_agent w task_id t db).1 task_id = Some t'
    /\ color_analysis t' = Some [e1; e2]
    /\ status t' = Some "COLOR_CORRECTED"
    /\ workflow_step t' = Some 2%Z
    /\ agent_log t' = (agent_log t ++ [color_log_entry w [p1; p2]])%list.
Proof.
  destruct (analyze_photo_completed w [] 0 p1) as (Hs1 & Hc1 & Heff1); [done..|].
  destruct (analyze_photo_missing w
              [splitext_root p1 ++ "_color_corrected.jpg"] 1 p2) as [Hs2 _];
    [done | |].
  { unfold path_exists. rewrite bool_decide_eq_false_2; [done|].
    intros Hin. apply list_elem_of_singleton in Hin. done. }
  assert (Hbatch : (color_batch w [p1; p2]).*1
                   = [(analyze_photo w [] 0 p1).1;
                      (analyze_photo w [splitext_root p1 ++ "_color_corrected.jpg"]
                         1 p2).1]).
  { unfold color_batch. cbn [color_loop fmap list_fmap]. by rewrite Heff1. }
  exists (analyze_photo w [] 0 p1).1,
         (analyze_photo w [splitext_root p1 ++ "_color_corrected.jpg"] 1 p2).1,
         (set_color_corrected (color_batch w [p1; p2]).*1
            (color_log_entry w [p1; p2]) t).
  rewrite Hurls.
  split; [exact Hbatch|]. split; [done|]. split; [done|]. split; [done|].
  split; [by rewrite (color_commit w task_id t t db), Hurls|].
  split; [exact (f_equal Some Hbatch)|]. by repeat split.
Qed.

Lemma two_local_photos_scenario_witness :
  let w := calm_world in
  let task_id := 1 in
  let t := uploaded_task in
  let db := [uploaded_task] in
  let p1 := photo_a in
  let p2 := photo_missing in
  find_one db task_id = Some t
  /\ status t = Some "PHOTOS_UPLOADED"
  /\ photo_urls (metadata t) = [p1; p2]
  /\ is_local p1 = true
  /\ is_local p2 = true
  /\ os_path_exists w (VStr p1) = Ok true
  /\ pil_enhance_save w p1 agent_adjustments
       (splitext_root p1 ++ "_color_corrected.jpg") = None
  /\ os_path_exists w (VStr p2) = Ok false
  /\ p2 <> splitext_root p1 ++ "_color_corrected.jpg"
  /\ commit_error w = None
  /\ exists e1 e2 t',
       (color_batch w (photo_urls (metadata t))).*1 = [e1; e2]
       /\ e1 !! "status" = Some (VStr "completed")
       /\ e1 !! "corrected_path"
          = Some (VStr (splitext_root p1 ++ "_color_corrected.jpg"))
       /\ e2 !! "status" = Some (VStr "failed")
       /\ find_one (color_correct_agent w task_id t db).1 task_id = Some t'
       /\ color_analysis t' = Some [e1; e2]
       /\ status t' = Some "COLOR_CORRECTED"
       /\ workflow_step t' = Some 2%Z
       /\ agent_log t' = (agent_log t ++ [color_log_entry w [p1; p2]])%list.
Proof.
  intros. do 8 (split; [reflexivity|]). split; [discriminate|].
  split; [reflexivity|].
  apply (two_local_photos_scenario w task_id t db p1 p2);
    first [reflexivity | discriminate].
Defined.

(** C6 as stated fails: a first file that exists but that the imaging
    library cannot read is recorded as failed, with no corrected file. *)
Lemma existing_unreadable_file_fails :
  status uploaded_task = Some "PHOTOS_UPLOADED"
  /\ photo_urls (metadata uploaded_task) = [photo_a; photo_missing]
  /\ os_path_exists unreadable_world (VStr photo_a) = Ok true
  /\ os_path_exists unreadable_world (VStr photo_missing) = Ok false
  /\ commit_error unreadable_world = None
  /\ exists t' e1 e2,
       find_one (color_correct_agent unreadable_world 1 uploaded_task
                   [uploaded_task]).1 1 = Some t'
       /\ color_analysis t' = Some [e1; e2]
       /\ e1 !! "status" = Some (VStr "failed")
       /\ e1 !! "corrected_path" = Some VNone
       /\ status t' = Some "COLOR_CORRECTED".
Proof.
  repeat (split; [reflexivity|]).
  eexists _, _, _. split; [reflexivity|]. split; [reflexivity|].
  repeat split; reflexivity.
Qed.

(** It fails in two more ways.  When the commit is refused the two entries
    are built but the task stays at PHOTOS_UPLOADED without them. *)
Lemma refused_commit_keeps_photos_uploaded :
  os_path_exists commit_fails_world (VStr photo_a) = Ok true
  /\ os_path_exists commit_fails_world (VStr photo_missing) = Ok false
  /\ commit_error commit_fails_world = Some "document too large"
  /\ exists t',
       find_one (color_correct_agent commit_fails_world 1 uploaded_task
                   [uploaded_task]).1 1 = Some t'
       /\ status t' = Some "PHOTOS_UPLOADED"
       /\ color_analysis t' = None
       /\ workflow_step t' = Some 1%Z.
Proof.
  do 3 (split; [reflexivity|]). eexists. split; [reflexivity|].
  repeat split; reflexivity.
Qed.

(** And a second reference that is missing when the handler starts, but is
    the very file the first correction is saved to, is there when the loop
    reaches it: its entry is completed. *)
Lemma second_reference_saved_by_first :
  let copy := "/srv/photos/a_color_corrected.jpg" in
  let w := sample_world [photo_a] [] created_response None None in
  os_path_exists w (VStr photo_a) = Ok true
  /\ os_path_exists w (VStr copy) = Ok false
  /\ exists e1 e2,
       (color_batch w [photo_a; copy]).*1 = [e1; e2]
       /\ e1 !! "corrected_path" = Some (VStr copy)
       /\ e2 !! "file_path" = Some (VStr copy)
       /\ e2 !! "status" = Some (VStr "completed").
Proof.
  cbv zeta. do 2 (split; [reflexivity|]).
  eexists _, _. split; [reflexivity|]. repeat split; reflexivity.
Qed.

(* ===================================================================== *)
(** ** Agent 2B without credentials, and with nothing to publish *)
(* ===================================================================== *)

(** C7, amended.  If any of WORDPRESS_URL, WORDPRESS_USER,
    WORDPRESS_PASSWORD is absent from the environment, the publish handler
    calls nothing outside (no upload request for any entry), every entry of
    the batch it builds is marked skipped and the status it computes is
    PUBLISH_FAILED.  When its commit is applied, the task holds these
    entries, one per analysis entry, with status PUBLISH_FAILED; when its
    commit raises, the task keeps the status and the result array it had. *)
Theorem unconfigured_credentials_skip_batch (env : gmap string string) (w : World)
    (task_id : ObjectId) (task_data : Task) (db : Store)
    (Habsent : env !! "WORDPRESS_URL" = None
               \/ env !! "WORDPRESS_USER" = None
               \/ env !! "WORDPRESS_PASSWORD" = None) :
  (publish_to_wordpress (load_config env) w task_id task_data db).2 = []
  /\ (forall entry,
        entry ∈ (publish_batch (load_config env) w
                   (default [] (color_analysis task_data))).*1 ->
        entry !! "status" = Some (VStr "skipped"))
  /\ next_status (publish_batch (load_config env) w
                    (default [] (color_analysis task_data))).*1
     = "PUBLISH_FAILED"
  /\ (forall t, find_one db task_id = Some t -> commit_error w = None ->
        exists t' results,
          find_one (publish_to_wordpress (load_config env) w task_id task_data db).1
            task_id = Some t'
          /\ wordpress_publish_results t' = Some results
          /\ length results = length (default [] (color_analysis task_data))
          /\ (forall entry, entry ∈ results ->
                entry !! "status" = Some (VStr "skipped"))
          /\ status t' = Some "PUBLISH_FAILED")
  /\ (forall t e, find_one db task_id = Some t -> commit_error w = Some e ->
        exists t',
          find_one (publish_to_wordpress (load_config env) w task_id task_data db).1
            task_id = Some t'
          /\ status t' = status t
          /\ wordpress_publish_results t' = wordpress_publish_results t).
Proof.
  apply load_config_absent in Habsent.
  destruct (skipped_batch (load_config env) w
              (default [] (color_analysis task_data)) Habsent) as [Heff Hall].
  assert (Hnext : next_status (publish_batch (load_config env) w
                                 (default [] (color_analysis task_data))).*1
                  = "PUBLISH_FAILED").
  { unfold next_status. by rewrite skipped_not_published. }
  split; [by rewrite publish_effects|]. split; [done|]. split; [done|]. split.
  - intros t Hfound Hcommit. eexists _, _.
    split; [by apply publish_commit|]. split; [done|].
    split; [apply publish_batch_length|]. split; [done|].
    simpl. by rewrite Hnext.
  - intros t e Hfound Hraised.
    unfold publish_to_wordpress, update_one. rewrite Hraised. simpl.
    destruct (batch_error_outcome w task_id e t db Hfound)
      as (t' & Hf & (Hst & _ & _ & Hres & _) & _).
    by exists t'.
Qed.

Lemma unconfigured_credentials_skip_batch_witness :
  let env := env_without_password in
  let w := calm_world in
  let task_id := 1 in
  let task_data := corrected_task in
  let db := [corrected_task] in
  env !! "WORDPRESS_PASSWORD" = None
  /\ (publish_to_wordpress (load_config env) w task_id task_data db).2 = []
  /\ exists t' results,
       find_one (publish_to_wordpress (load_config env) w task_id task_data db).1
         task_id = Some t'
       /\ wordpress_publish_results t' = Some results
       /\ length results = length (default [] (color_analysis task_data))
       /\ (forall entry, entry ∈ results ->
             entry !! "status" = Some (VStr "skipped"))
       /\ status t' = Some "PUBLISH_FAILED".
Proof.
  intros.
  destruct (unconfigured_credentials_skip_batch env w task_id task_data db)
    as (Heff & _ & _ & Hstored & _); [right; right; reflexivity|].
  split; [reflexivity|]. split; [exact Heff|].
  apply (Hstored corrected_task); reflexivity.
Defined.

(** C7 as stated fails: the password is absent and the store is unreachable;
    the commit raises, and the task is left at COLOR_CORRECTED with no
    result array: its final status is not PUBLISH_FAILED. *)
Lemma unconfigured_commit_refused :
  env_without_password !! "WORDPRESS_PASSWORD" = None
  /\ find_one [corrected_task] 1 = Some corrected_task
  /\ commit_error store_down_world = Some "connection closed"
  /\ exists t',
       find_one (publish_to_wordpress (load_config env_without_password)
                   store_down_world 1 corrected_task [corrected_task]).1 1 = Some t'
       /\ status t' = Some "COLOR_CORRECTED"
       /\ wordpress_publish_results t' = None.
Proof.
  do 3 (split; [reflexivity|]). eexists. split; [reflexivity|].
  split; reflexivity.
Qed.

(** C10, amended.  For a task whose `color_analysis` is the empty sequence
    the publish handler builds an empty batch and computes the status
    PUBLISH_FAILED, whether or not the WordPress credentials are configured,
    and calls nothing outside.  When its commit is applied, the task holds
    `wordpress_publish_results = []` and the status PUBLISH_FAILED, never
    WORDPRESS_PUBLISHED; when its commit raises, the task keeps the status
    and the result array it had. *)
Theorem empty_analysis_publish_failed (cfg : Config) (w : World) (task_id : ObjectId)
    (task_data : Task) (db : Store)
    (Hempty : default [] (color_analysis task_data) = []) :
  (publish_batch cfg w (default [] (color_analysis task_data))).*1 = []
  /\ next_status (publish_batch cfg w (default [] (color_analysis task_data))).*1
     = "PUBLISH_FAILED"
  /\ (publish_to_wordpress cfg w task_id task_data db).2 = []
  /\ (forall t,
        find_one db task_id = Some t ->
        commit_error w = None ->
        exists t',
          find_one (publish_to_wordpress cfg w task_id task_data db).1 task_id
          = Some t'
          /\ wordpress_publish_results t' = Some []
          /\ status t' = Some "PUBLISH_FAILED"
          /\ status t' <> Some "WORDPRESS_PUBLISHED")
  /\ (forall t e,
        find_one db task_id = Some t ->
        commit_error w = Some e ->
        exists t',
          find_one (publish_to_wordpress cfg w task_id task_data db).1 task_id
          = Some t'
          /\ status t' = status t
          /\ wordpress_publish_results t' = wordpress_publish_results t).
Proof.
  assert (Hbatch : publish_batch cfg w (default [] (color_analysis task_data)) = []).
  { rewrite Hempty. unfold publish_batch. by destruct (not_configured cfg). }
  rewrite publish_effects, Hbatch.
  split; [done|]. split; [done|]. split; [done|]. split.
  - intros t Hfound Hcommit. eexists.
    split; [by apply publish_commit|]. by rewrite Hbatch.
  - intros t e Hfound Hraised.
    unfold publish_to_wordpress, update_one. rewrite Hraised. simpl.
    destruct (batch_error_outcome w task_id e t db Hfound)
      as (t' & Hf & (Hst & _ & _ & Hres & _) & _).
    by exists t'.
Qed.

Lemma empty_analysis_publish_failed_witness :
  not_configured sample_config = false
  /\ default [] (color_analysis empty_task) = []
  /\ find_one [empty_task] 1 = Some empty_task
  /\ commit_error calm_world = None
  /\ next_status
       (publish_batch sample_config calm_world
          (default [] (color_analysis empty_task))).*1
     = "PUBLISH_FAILED"
  /\ exists t',
       find_one (publish_to_wordpress sample_config calm_world 1 empty_task
                   [empty_task]).1 1 = Some t'
       /\ wordpress_publish_results t' = Some []
       /\ status t' = Some "PUBLISH_FAILED"
       /\ status t' <> Some "WORDPRESS_PUBLISHED".
Proof.
  destruct (empty_analysis_publish_failed sample_config calm_world 1 empty_task
              [empty_task]) as (_ & Hstatus & _ & Hstored & _); [reflexivity|].
  do 4 (split; [reflexivity|]).
  split; [exact Hstatus|].
  apply (Hstored empty_task); reflexivity.
Defined.

(** C10 as stated fails: the analysis is empty and the store is unreachable;
    the commit raises, and the task is left at COLOR_CORRECTED with
    `wordpress_publish_results` unset: nothing was committed and the status
    is not PUBLISH_FAILED. *)
Lemma empty_analysis_commit_refused :
  default [] (color_analysis empty_task) = []
  /\ find_one [empty_task] 1 = Some empty_task
  /\ commit_error store_down_world = Some "connection closed"
  /\ exists t',
       find_one (publish_to_wordpress sample_config store_down_world 1 empty_task
                   [empty_task]).1 1 = Some t'
       /\ status t' = Some "COLOR_CORRECTED"
       /\ wordpress_publish_results t' = None.
Proof.
  do 3 (split; [reflexivity|]). eexists. split; [reflexivity|].
  split; reflexivity.
Qed.

(* ===================================================================== *)
(** ** The dispatcher: which handler runs *)
(* ===================================================================== *)



(* ===================================================================== *)
(** ** The supervisor: reconnecting with backoff *)
(* ===================================================================== *)

(** C9.  From a fresh start, n < 5 consecutive failures to open the change
    stream are followed by waits of 2, 4, ..., 2^n seconds, one after each
    failure, and the loop goes on with `retry_count = n`; once the stream
    has opened the counter is 0 again, so a later failure waits 2 seconds;
    and the fifth consecutive failure is followed by no wait and no further
    attempt: the loop logs the fatal error and is left. *)
Theorem supervisor_backoff (cfg : Config) (db : Store) :
  (forall errors rest,
      length errors < max_retries ->
      agent_worker cfg (List.map watch_fails errors ++ rest)%list db =
      after_effects
        (List.map (fun k => Sleep (2 ^ Z.of_nat k)) (List.seq 1 (length errors)))
        (agent_loop cfg rest (length errors) db))
  /\ (forall r changes e rest,
        r < max_retries ->
        agent_loop cfg ({| opened := Some changes; ending := Exception e |} :: rest) r db =
        after_effects ((process_changes cfg changes db).2 ++ [Sleep 2])
          (agent_loop cfg rest 1 (process_changes cfg changes db).1))
  /\ (forall r changes rest,
        r < max_retries ->
        ls_retry_count
          (agent_loop cfg
             ({| opened := Some changes; ending := KeyboardInterrupt |} :: rest) r db)
        = 0)
  /\ (forall e1 e2 e3 e4 changes rest,
        ls_effects
          (agent_worker cfg
             (watch_fails e1 :: watch_fails e2 :: watch_fails e3
              :: {| opened := Some changes; ending := Exception e4 |} :: rest) db)
        = ([Sleep 2; Sleep 4; Sleep 8]
           ++ (process_changes cfg changes db).2
           ++ [Sleep 2]
           ++ ls_effects (agent_loop cfg rest 1 (process_changes cfg changes db).1))%list)
  /\ (forall errors rest,
        length errors = max_retries ->
        agent_worker cfg (List.map watch_fails errors ++ rest)%list db =
        {| ls_retry_count := max_retries;
           ls_store := db;
           ls_effects := [Sleep 2; Sleep 4; Sleep 8; Sleep 16; FatalLog];
           ls_shut_down := true |}).
Proof.
  split; [|split; [|split; [|split]]].
  - intros errors rest Hlen. unfold agent_worker.
    by rewrite agent_loop_failures.
  - intros r changes e rest. apply agent_loop_reconnected.
  - intros r changes rest Hr. by rewrite agent_loop_interrupted.
  - intros e1 e2 e3 e4 changes rest. unfold agent_worker.
    rewrite !agent_loop_watch_fails by (unfold max_retries; lia).
    rewrite agent_loop_reconnected by (unfold max_retries; lia).
    simpl. by rewrite <- !app_assoc.
  - intros errors rest Hlen. unfold agent_worker.
    destruct errors as [|e1 [|e2 [|e3 [|e4 [|e5 [|e6 errors]]]]]]; try done.
Qed.

Lemma supervisor_backoff_witness :
  agent_worker sample_config
    (List.map watch_fails ["timeout"; "timeout"; "timeout"]
     ++ [ {| opened := Some []; ending := KeyboardInterrupt |} ])%list []
  = {| ls_retry_count := 0; ls_store := [];
       ls_effects := [Sleep 2; Sleep 4; Sleep 8]; ls_shut_down := true |}
  /\ agent_worker sample_config
       (List.map watch_fails ["timeout"; "timeout"; "timeout"; "timeout"; "timeout"]
        ++ [watch_fails "never tried"])%list []
     = {| ls_retry_count := 5; ls_store := [];
          ls_effects := [Sleep 2; Sleep 4; Sleep 8; Sleep 16; FatalLog];
          ls_shut_down := true |}.
Proof.
  destruct (supervisor_backoff sample_config []) as (Hwaits & _ & _ & _ & Hfatal).
  split.
  - rewrite Hwaits by (vm_compute; lia). reflexivity.
  - apply Hfatal. reflexivity.
Defined.

(* ===================================================================== *)
(** ** What a run keeps of every task *)
(* ===================================================================== *)

Lemma task_grows_refl (t : Task) : task_grows t t.
Proof. unfold task_grows. repeat split; first [done | lia]. Qed.

Lemma task_grows_trans (t1 t2 t3 : Task) :
  task_grows t1 t2 -> task_grows t2 t3 -> task_grows t1 t3.
Proof.
  intros (Ha1 & Ha2 & Ha3 & Ha4 & Ha5 & Ha6 & Ha7)
         (Hb1 & Hb2 & Hb3 & Hb4 & Hb5 & Hb6 & Hb7).
  unfold task_grows. repeat split; first [congruence | by etrans | lia].
Qed.

Lemma store_grows_refl (db : Store) : store_grows db db.
Proof. intros task_id t Ht. exists t. split; [done | apply task_grows_refl]. Qed.

Lemma store_grows_trans (db1 db2 db3 : Store) :
  store_grows db1 db2 -> store_grows db2 db3 -> store_grows db1 db3.
Proof.
  intros H12 H23 task_id t Ht.
  destruct (H12 _ _ Ht) as (t2 & Ht2 & Hg2).
  destruct (H23 _ _ Ht2) as (t3 & Ht3 & Hg3).
  exists t3. split; [done|]. by eapply task_grows_trans.
Qed.

Lemma store_grows_update (db : Store) (task_id : ObjectId) (u : Task -> Task) :
  (forall t, task_grows t (u t)) -> store_grows db (apply_update db task_id u).
Proof.
  intros Hu other t Ht.
  rewrite find_one_apply_update by (intros t0; apply Hu).
  destruct (Nat.eqb task_id other) eqn:Ho.
  - apply Nat.eqb_eq in Ho. subst other. rewrite Ht. simpl. eauto.
  - exists t. split; [done | apply task_grows_refl].
Qed.

Lemma store_grows_insert (db : Store) (t : Task) :
  find_one db (_id t) = None -> store_grows db (db ++ [t])%list.
Proof.
  intros Hnew other t0 Ht0. rewrite find_one_app_new by done.
  destruct (Nat.eqb (_id t) other) eqn:Ho.
  - apply Nat.eqb_eq in Ho. subst other. congruence.
  - exists t0. split; [done | apply task_grows_refl].
Qed.

Lemma task_grows_set_color_corrected (results : list dict) (entry : LogEntry)
    (t : Task) :
  task_grows t (set_color_corrected results entry t).
Proof.
  unfold task_grows. simpl. repeat split; first [done | by apply prefix_app_r | lia].
Qed.

Lemma task_grows_set_published (results : list dict) (entry : LogEntry) (t : Task) :
  task_grows t (set_published results entry t).
Proof.
  unfold task_grows. simpl. repeat split; first [done | by apply prefix_app_r | lia].
Qed.

Lemma task_grows_record_failure (e : string) (t : Task) :
  task_grows t (record_failure e t).
Proof. unfold task_grows. simpl. repeat split; try done. lia. Qed.

Lemma task_grows_set_photos_uploaded (p : string) (entry : LogEntry) (t : Task) :
  task_grows t (set_photos_uploaded p entry t).
Proof.
  unfold task_grows. simpl. repeat split; first [done | by apply prefix_app_r | lia].
Qed.

Lemma store_grows_on_batch_error (w : World) (task_id : ObjectId) (e : string)
    (db : Store) :
  store_grows db (on_batch_error w task_id e db).
Proof.
  unfold on_batch_error, update_one. destruct (recovery_error w).
  - apply store_grows_refl.
  - apply store_grows_update. apply task_grows_record_failure.
Qed.

Lemma store_grows_color (w : World) (task_id : ObjectId) (task : Task) (db : Store) :
  store_grows db (color_correct_agent w task_id task db).1.
Proof.
  unfold color_correct_agent, update_one. destruct (commit_error w); simpl.
  - apply store_grows_on_batch_error.
  - apply store_grows_update. apply task_grows_set_color_corrected.
Qed.

Lemma store_grows_publish (cfg : Config) (w : World) (task_id : ObjectId)
    (task : Task) (db : Store) :
  store_grows db (publish_to_wordpress cfg w task_id task db).1.
Proof.
  unfold publish_to_wordpress, update_one. destruct (commit_error w); simpl.
  - apply store_grows_on_batch_error.
  - apply store_grows_update. apply task_grows_set_published.
Qed.

Lemma store_grows_dispatch (cfg : Config) (w : World) (change : ChangeEvent)
    (db : Store) :
  store_grows db (dispatch cfg w change db).1.
Proof.
  unfold dispatch.
  destruct (documentKey_id change) as [task_id|]; [|apply store_grows_refl].
  destruct (find_error w); [apply store_grows_refl|].
  destruct (find_one db task_id) as [task|]; [|apply store_grows_refl].
  destruct (String.eqb _ "PHOTOS_UPLOADED").
  - pose proof (store_grows_color w task_id task db) as H.
    by destruct (color_correct_agent w task_id task db).
  - destruct (String.eqb _ "COLOR_CORRECTED"); [|apply store_grows_refl].
    pose proof (store_grows_publish cfg w task_id task db) as H.
    by destruct (publish_to_wordpress cfg w task_id task db).
Qed.

Lemma linked_app (R : Store -> Store -> Prop) (db : Store) (l1 l2 : list Store) :
  linked R db l1 -> linked R (List.last l1 db) l2 -> linked R db (l1 ++ l2)%list.
Proof.
  revert db. induction l1 as [|s l1 IH]; intros db H1 H2; simpl in *; [done|].
  destruct H1 as [Hs H1]. split; [done|].
  apply IH; [done|]. by rewrite <- (last_cons_default s db).
Qed.

(** With [R] reflexive and transitive, any state of a linked list is
    related to any later one. *)
Lemma linked_lookup (R : Store -> Store -> Prop) :
  (forall db, R db db) ->
  (forall a b c, R a b -> R b c -> R a c) ->
  forall (states : list Store) (db : Store) (i j : nat) (s1 s2 : Store),
    linked R db states ->
    i <= j ->
    (db :: states) !! i = Some s1 ->
    (db :: states) !! j = Some s2 ->
    R s1 s2.
Proof.
  intros Hrefl Htrans states.
  induction states as [|s rest IH]; intros db i j s1 s2 Hl Hij H1 H2.
  - destruct i as [|i]; [|done]. destruct j as [|j]; [|done].
    simpl in *. by simplify_eq.
  - destruct Hl as [Hs Hl]. destruct i as [|i].
    + injection H1 as <-. destruct j as [|j].
      * injection H2 as <-. apply Hrefl.
      * eapply Htrans; [exact Hs|].
        apply (IH s 0 j s s2 Hl); [lia | done | done].
    + destruct j as [|j]; [lia|].
      apply (IH s i j s1 s2 Hl); [lia | done | done].
Qed.

Lemma linked_upload (w : World) (task_sku file_path product_name country : string)
    (db : Store) :
  linked store_grows db
    (upload_real_photo w task_sku file_path product_name country db).1.
Proof.
  unfold upload_real_photo, find_or_create.
  destruct (os_path_exists w _) as [[|]|]; simpl; try done.
  destruct (find_error w); simpl; [done|].
  destruct (find_one_sku db task_sku) as [existing|].
  - unfold update_one. destruct (commit_error w); simpl; [done|].
    destruct (find_one db (_id existing)); simpl; [|done].
    split; [|done]. apply store_grows_update.
    intros t0. apply task_grows_set_photos_uploaded.
  - unfold insert_one. destruct (insert_error w); simpl; [done|].
    destruct (find_one db (new_object_id w)) eqn:Hnew; simpl; [done|].
    set (nt := new_task w (new_object_id w) task_sku product_name country).
    assert (Hins : store_grows db (db ++ [nt])%list)
      by (apply store_grows_insert; done).
    unfold update_one. destruct (commit_error w); simpl; [done|].
    destruct (find_one (db ++ [nt])%list (new_object_id w)); simpl; [|done].
    split; [done|]. split; [|done].
    apply store_grows_update. intros t0. apply task_grows_set_photos_uploaded.
Qed.

Lemma linked_run (cfg : Config) (steps : list Step) (db : Store) :
  linked store_grows db (run_states cfg steps db).
Proof.
  revert db. induction steps as [|st rest IH]; intros db; simpl; [done|].
  apply linked_app; [|apply IH].
  destruct st as [w sku fp pn c | w change]; simpl.
  - apply linked_upload.
  - split; [apply store_grows_dispatch | done].
Qed.

(** Between any two states of a run, the earlier first, every task of the
    earlier state is found in the later one as a later version of itself. *)
Lemma run_task_grows (cfg : Config) (steps : list Step) (db : Store)
    (i j : nat) (s1 s2 : Store) (task_id : ObjectId) (t1 : Task) :
  i <= j ->
  history cfg steps db !! i = Some s1 ->
  history cfg steps db !! j = Some s2 ->
  find_one s1 task_id = Some t1 ->
  exists t2, find_one s2 task_id = Some t2 /\ task_grows t1 t2.
Proof.
  intros Hij H1 H2 Ht1.
  assert (Hg : store_grows s1 s2).
  { eapply (linked_lookup store_grows store_grows_refl store_grows_trans);
      [apply (linked_run cfg steps db) | exact Hij | exact H1 | exact H2]. }
  by apply Hg.
Qed.

(** X1.  The audit log is append-only.  Over any run of upload steps and
    deliveries, a task found in an earlier state is found in every later
    state, and its `agent_log` there extends the earlier one: no entry is
    ever removed, rewritten or reordered, whatever fails in between. *)
Theorem audit_log_append_only (cfg : Config) (steps : list Step) (db : Store)
    (i j : nat) (s1 s2 : Store) (task_id : ObjectId) (t1 : Task)
    (Horder : i <= j)
    (Hearlier : history cfg steps db !! i = Some s1)
    (Hlater : history cfg steps db !! j = Some s2)
    (Hfound : find_one s1 task_id = Some t1) :
  exists t2,
    find_one s2 task_id = Some t2
    /\ agent_log t1 `prefix_of` agent_log t2.
Proof.
  destruct (run_task_grows cfg steps db i j s1 s2 task_id t1) as (t2 & Ht2 & Hg);
    try done.
  exists t2. split; [done|]. apply Hg.
Qed.

Lemma audit_log_append_only_witness :
  exists s1 s2 t1,
    1 <= 4
    /\ history sample_config pipeline_run [] !! 1 = Some s1
    /\ history sample_config pipeline_run [] !! 4 = Some s2
    /\ find_one s1 100 = Some t1
    /\ length (agent_log t1) = 1
    /\ exists t2,
         find_one s2 100 = Some t2
         /\ agent_log t1 `prefix_of` agent_log t2.
Proof.
  eexists _, _, _.
  split; [lia|]. split; [reflexivity|]. split; [reflexivity|].
  split; [reflexivity|]. split; [reflexivity|].
  eapply (audit_log_append_only sample_config pipeline_run [] 1 4);
    [lia | reflexivity | reflexivity | reflexivity].
Defined.

(* ===================================================================== *)
(** ** Ids and SKU codes *)
(* ===================================================================== *)

Lemma task_ids_apply_update (db : Store) (task_id : ObjectId) (u : Task -> Task) :
  (forall t, _id (u t) = _id t) ->
  task_ids (apply_update db task_id u) = task_ids db.
Proof.
  intros Hu. unfold task_ids. induction db as [|t rest IH]; [done|].
  simpl. destruct (Nat.eqb (_id t) task_id).
  - rewrite !fmap_cons. by rewrite Hu.
  - rewrite !fmap_cons. by rewrite IH.
Qed.

Lemma sku_codes_apply_update (db : Store) (task_id : ObjectId) (u : Task -> Task) :
  (forall t, sku_code (u t) = sku_code t) ->
  sku_codes (apply_update db task_id u) = sku_codes db.
Proof.
  intros Hu. unfold sku_codes. induction db as [|t rest IH]; [done|].
  simpl. destruct (Nat.eqb (_id t) task_id).
  - cbn [omap list_omap]. by rewrite Hu.
  - cbn [omap list_omap]. by rewrite IH.
Qed.

Lemma find_one_None_not_in (db : Store) (task_id : ObjectId) :
  find_one db task_id = None -> task_id ∉ task_ids db.
Proof.
  unfold find_one, task_ids. induction db as [|t rest IH]; simpl.
  - intros _. apply not_elem_of_nil.
  - destruct (Nat.eqb (_id t) task_id) eqn:E; [done|].
    intros H. apply not_elem_of_cons. split; [|by apply IH].
    apply Nat.eqb_neq in E. congruence.
Qed.

Lemma find_one_sku_None_not_in (db : Store) (task_sku : string) :
  find_one_sku db task_sku = None -> task_sku ∉ sku_codes db.
Proof.
  unfold find_one_sku, sku_codes. induction db as [|t rest IH]; simpl.
  - intros _. apply not_elem_of_nil.
  - destruct (bool_decide (sku_code t = Some task_sku)) eqn:E; [done|].
    apply bool_decide_eq_false_1 in E. intros H.
    destruct (sku_code t) as [s|]; simpl; [|by apply IH].
    apply not_elem_of_cons. split; [congruence | by apply IH].
Qed.

Lemma store_keeps_keys_refl (db : Store) : store_keeps_keys db db.
Proof. by repeat split. Qed.

Lemma store_keeps_keys_trans (a b c : Store) :
  store_keeps_keys a b -> store_keeps_keys b c -> store_keeps_keys a c.
Proof.
  intros (Ha1 & Ha2 & Ha3) (Hb1 & Hb2 & Hb3).
  split; [by etrans|]. split; auto.
Qed.

Lemma store_keeps_keys_update (db : Store) (task_id : ObjectId) (u : Task -> Task) :
  (forall t, _id (u t) = _id t) ->
  (forall t, sku_code (u t) = sku_code t) ->
  store_keeps_keys db (apply_update db task_id u).
Proof.
  intros Hid Hsku. unfold store_keeps_keys.
  rewrite task_ids_apply_update, sku_codes_apply_update by done.
  by repeat split.
Qed.

Lemma store_keeps_keys_dispatch (cfg : Config) (w : World) (change : ChangeEvent)
    (db : Store) :
  store_keeps_keys db (dispatch cfg w change db).1.
Proof.
  unfold dispatch.
  destruct (documentKey_id change) as [task_id|]; [|apply store_keeps_keys_refl].
  destruct (find_error w); [apply store_keeps_keys_refl|].
  destruct (find_one db task_id) as [task|]; [|apply store_keeps_keys_refl].
  destruct (String.eqb _ "PHOTOS_UPLOADED").
  - unfold color_correct_agent, on_batch_error, update_one.
    destruct (commit_error w); simpl; [destruct (recovery_error w); simpl|];
      first [apply store_keeps_keys_refl | by apply store_keeps_keys_update].
  - destruct (String.eqb _ "COLOR_CORRECTED"); [|apply store_keeps_keys_refl].
    unfold publish_to_wordpress, on_batch_error, update_one.
    destruct (commit_error w); simpl; [destruct (recovery_error w); simpl|];
      first [apply store_keeps_keys_refl | by apply store_keeps_keys_update].
Qed.

Lemma store_keeps_keys_insert (w : World) (task_sku product_name country : string)
    (db : Store) :
  find_one db (new_object_id w) = None ->
  find_one_sku db task_sku = None ->
  store_keeps_keys db
    (db ++ [new_task w (new_object_id w) task_sku product_name country])%list.
Proof.
  intros Hid Hsku. unfold store_keeps_keys, task_ids, sku_codes.
  rewrite fmap_app, omap_app. simpl.
  split; [by apply prefix_app_r|]. split; intros Hnd.
  - apply NoDup_app. split; [done|]. split; [|apply NoDup_singleton].
    intros x Hx Hx'. apply list_elem_of_singleton in Hx'. subst x.
    by apply find_one_None_not_in in Hid.
  - apply NoDup_app. split; [done|]. split; [|apply NoDup_singleton].
    intros x Hx Hx'. apply list_elem_of_singleton in Hx'. subst x.
    by apply find_one_sku_None_not_in in Hsku.
Qed.

Lemma linked_keys_upload (w : World)
    (task_sku file_path product_name country : string) (db : Store) :
  linked store_keeps_keys db
    (upload_real_photo w task_sku file_path product_name country db).1.
Proof.
  unfold upload_real_photo, find_or_create.
  destruct (os_path_exists w _) as [[|]|]; simpl; try done.
  destruct (find_error w); simpl; [done|].
  destruct (find_one_sku db task_sku) as [existing|] eqn:Hsku.
  - unfold update_one. destruct (commit_error w); simpl; [done|].
    destruct (find_one db (_id existing)); simpl; [|done].
    split; [|done]. by apply store_keeps_keys_update.
  - unfold insert_one. destruct (insert_error w); simpl; [done|].
    destruct (find_one db (new_object_id w)) eqn:Hnew; simpl; [done|].
    pose proof (store_keeps_keys_insert w task_sku product_name country db Hnew Hsku)
      as Hins.
    unfold update_one. destruct (commit_error w); simpl; [done|].
    destruct (find_one (db ++ _)%list (new_object_id w)); simpl; [|done].
    split; [done|]. split; [|done]. by apply store_keeps_keys_update.
Qed.

Lemma linked_keys_run (cfg : Config) (steps : list Step) (db : Store) :
  linked store_keeps_keys db (run_states cfg steps db).
Proof.
  revert db. induction steps as [|st rest IH]; intros db; simpl; [done|].
  apply linked_app; [|apply IH].
  destruct st as [w sku fp pn c | w change]; simpl.
  - apply linked_keys_upload.
  - split; [apply store_keeps_keys_dispatch | done].
Qed.

(** X3.  Over any run, documents keep their place in the collection (the
    ids of an earlier state are a prefix of the ids of a later one), and a
    store in which ids, respectively SKU codes, are pairwise distinct stays
    so: the upload step creates a task only for a SKU that has none. *)
Theorem one_task_per_sku_kept (cfg : Config) (steps : list Step) (db : Store)
    (i j : nat) (s1 s2 : Store)
    (Horder : i <= j)
    (Hearlier : history cfg steps db !! i = Some s1)
    (Hlater : history cfg steps db !! j = Some s2) :
  task_ids s1 `prefix_of` task_ids s2
  /\ (NoDup (task_ids s1) -> NoDup (task_ids s2))
  /\ (NoDup (sku_codes s1) -> NoDup (sku_codes s2)).
Proof.
  eapply (linked_lookup store_keeps_keys store_keeps_keys_refl store_keeps_keys_trans);
    [apply (linked_keys_run cfg steps db) | exact Horder | exact Hearlier | exact Hlater].
Qed.

Lemma one_task_per_sku_kept_witness :
  exists s1 s2,
    1 <= 5
    /\ history sample_config pipeline_run [] !! 1 = Some s1
    /\ history sample_config pipeline_run [] !! 5 = Some s2
    /\ task_ids s1 = [100]
    /\ task_ids s1 `prefix_of` task_ids s2
    /\ (NoDup (task_ids s1) -> NoDup (task_ids s2))
    /\ (NoDup (sku_codes s1) -> NoDup (sku_codes s2)).
Proof.
  eexists _, _.
  split; [lia|]. split; [reflexivity|]. split; [reflexivity|].
  split; [reflexivity|].
  eapply (one_task_per_sku_kept sample_config pipeline_run [] 1 5);
    [lia | reflexivity | reflexivity].
Defined.

(* ===================================================================== *)
(** ** Deliveries and the tasks they do not concern *)
(* ===================================================================== *)

Lemma find_one_apply_update_other (db : Store) (task_id other : ObjectId)
    (u : Task -> Task) :
  (forall t, _id (u t) = _id t) ->
  task_id <> other ->
  find_one (apply_update db task_id u) other = find_one db other.
Proof.
  intros Hu Hne. rewrite find_one_apply_update by done.
  apply Nat.eqb_neq in Hne. by rewrite Hne.
Qed.

Lemma color_agent_other (w : World) (task_id other : ObjectId) (task : Task)
    (db : Store) :
  task_id <> other ->
  find_one (color_correct_agent w task_id task db).1 other = find_one db other.
Proof.
  intros Hne. unfold color_correct_agent, on_batch_error, update_one.
  destruct (commit_error w); simpl; [destruct (recovery_error w); simpl|];
    first [done | by apply find_one_apply_update_other].
Qed.

Lemma publish_agent_other (cfg : Config) (w : World) (task_id other : ObjectId)
    (task : Task) (db : Store) :
  task_id <> other ->
  find_one (publish_to_wordpress cfg w task_id task db).1 other = find_one db other.
Proof.
  intros Hne. unfold publish_to_wordpress, on_batch_error, update_one.
  destruct (commit_error w); simpl; [destruct (recovery_error w); simpl|];
    first [done | by apply find_one_apply_update_other].
Qed.

Lemma dispatch_other (cfg : Config) (w : World) (change : ChangeEvent) (db : Store)
    (other : ObjectId) :
  documentKey_id change <> Some other ->
  find_one (dispatch cfg w change db).1 other = find_one db other.
Proof.
  intros Hne. unfold dispatch.
  destruct (documentKey_id change) as [task_id|]; [|done].
  assert (task_id <> other) by congruence.
  destruct (find_error w); [done|].
  destruct (find_one db task_id) as [task|]; [|done].
  destruct (String.eqb _ "PHOTOS_UPLOADED").
  - pose proof (color_agent_other w task_id other task db) as Hc.
    destruct (color_correct_agent w task_id task db). by apply Hc.
  - destruct (String.eqb _ "COLOR_CORRECTED"); [|done].
    pose proof (publish_agent_other cfg w task_id other task db) as Hp.
    destruct (publish_to_wordpress cfg w task_id task db). by apply Hp.
Qed.

Lemma dispatch_settled (cfg : Config) (w : World) (change : ChangeEvent) (db : Store)
    (task_id : ObjectId) (t : Task) :
  find_one db task_id = Some t ->
  settled t ->
  find_one (dispatch cfg w change db).1 task_id = Some t.
Proof.
  intros Hf [H1 H2].
  destruct (decide (documentKey_id change = Some task_id)) as [Hid|Hid].
  - by rewrite (dispatch_other_status cfg w change db task_id t).
  - by rewrite dispatch_other.
Qed.

(** X4.  The events of a subscription change only the tasks they name, and
    among those only tasks at PHOTOS_UPLOADED or COLOR_CORRECTED: a task
    that no event names, or whose status is any other, is found unchanged
    after all of them are processed. *)
Theorem deliveries_leave_other_tasks_alone (cfg : Config)
    (changes : list (World * ChangeEvent)) (db : Store)
    (task_id : ObjectId) (t : Task)
    (Hfound : find_one db task_id = Some t)
    (Hother : task_id ∉ named_ids changes \/ settled t) :
  find_one (process_changes cfg changes db).1 task_id = Some t.
Proof.
  revert db Hfound Hother.
  induction changes as [|[w change] rest IH]; intros db Hfound Hother; [done|].
  simpl.
  assert (Hstep : find_one (dispatch cfg w change db).1 task_id = Some t).
  { destruct Hother as [Hnot|Hs]; [|by apply dispatch_settled].
    rewrite dispatch_other; [done|].
    intros Hid. apply Hnot. unfold named_ids. simpl. rewrite Hid. left. }
  destruct (dispatch cfg w change db) as [db1 eff1]. simpl in Hstep.
  specialize (IH db1 Hstep).
  destruct (process_changes cfg rest db1) as [db2 eff2]. simpl in *.
  apply IH. destruct Hother as [Hnot|Hs]; [left|by right].
  intros Hin. apply Hnot. unfold named_ids in *. simpl.
  destruct (documentKey_id change); [by right | done].
Qed.

Lemma deliveries_leave_other_tasks_alone_witness :
  let other := sample_task 2 "PHOTOS_UPLOADED" [photo_a] None in
  let db := [uploaded_task; other] in
  let changes := [(calm_world, sample_event 1); (calm_world, sample_event 1)] in
  find_one db 2 = Some other
  /\ (2 ∉ named_ids changes \/ settled other)
  /\ find_one (process_changes sample_config changes db).1 2 = Some other.
Proof.
  assert (Hother : 2 ∉ named_ids
            [(calm_world, sample_event 1); (calm_world, sample_event 1)]).
  { simpl. intros H. apply elem_of_cons in H. destruct H as [H|H]; [discriminate|].
    apply elem_of_cons in H. destruct H as [H|H]; [discriminate|].
    by apply elem_of_nil in H. }
  split; [reflexivity|]. split; [left; exact Hother|].
  apply (deliveries_leave_other_tasks_alone sample_config); [reflexivity|].
  left; exact Hother.
Defined.

(* ===================================================================== *)
(** ** The upload step *)
(* ===================================================================== *)

Lemma find_one_inserted (db : Store) (t : Task) :
  find_one db (_id t) = None -> find_one (db ++ [t])%list (_id t) = Some t.
Proof. intros Hnew. by rewrite find_one_app_new, Nat.eqb_refl. Qed.

(** X5.  When upload_real_photo returns True, the file exists at the
    absolute path, and the task of the SKU (the one found, or the one just
    created with status INITIATED) ends with status PHOTOS_UPLOADED, the
    absolute path appended to `metadata.photo_urls` and one `photo_uploaded`
    entry appended to `agent_log`; every other field is as before.  One
    state is written for an existing task, two for a new one.  For a new
    task the clock is read twice: the `task_created` entry carries the first
    reading, the `photo_uploaded` entry the second. *)
Theorem upload_success_records_photo (w : World)
    (task_sku file_path name ctry : string) (db : Store)
    (written : list Store)
    (Hok : upload_real_photo w task_sku file_path name ctry db
           = (written, true)) :
  os_path_exists w (VStr (abspath w file_path)) = Ok true
  /\ exists task_id t0 t' read_at,
       find_one (List.last written db) task_id = Some t'
       /\ status t' = Some "PHOTOS_UPLOADED"
       /\ photo_urls (metadata t')
          = (photo_urls (metadata t0) ++ [abspath w file_path])%list
       /\ agent_log t'
          = (agent_log t0 ++
             [ {| timestamp := read_at;
                  agent := "upload_photo";
                  action := "photo_uploaded";
                  thought := "Uploaded photo: " ++ basename file_path |} ])%list
       /\ sku_code t' = sku_code t0
       /\ product_name (metadata t') = product_name (metadata t0)
       /\ country (metadata t') = country (metadata t0)
       /\ workflow_step t' = workflow_step t0
       /\ color_analysis t' = color_analysis t0
       /\ wordpress_publish_results t' = wordpress_publish_results t0
       /\ retry_metadata t' = retry_metadata t0
       /\ ((exists existing_task,
              find_one_sku db task_sku = Some existing_task
              /\ task_id = _id existing_task
              /\ find_one db task_id = Some t0
              /\ read_at = now w
              /\ length written = 1)
           \/ (find_one_sku db task_sku = None
               /\ task_id = new_object_id w
               /\ find_one db task_id = None
               /\ t0 = new_task w task_id task_sku name ctry
               /\ read_at = now_again w
               /\ written = [ (db ++ [t0])%list; List.last written db ])).
Proof.
  revert Hok. unfold upload_real_photo, find_or_create.
  destruct (os_path_exists w _) as [[|]|]; simpl; try done.
  destruct (find_error w); simpl; [done|].
  destruct (find_one_sku db task_sku) as [existing|] eqn:Hsku.
  - unfold update_one. destruct (commit_error w); simpl; [done|].
    destruct (find_one db (_id existing)) as [t0|] eqn:Hf; simpl; [|done].
    intros [= <-]. split; [done|].
    exists (_id existing), t0,
      (set_photos_uploaded (abspath w file_path)
         (upload_log_entry (now w) file_path) t0), (now w).
    simpl. rewrite find_one_apply_update_same, Hf by done.
    do 11 (split; [done|]). left. by exists existing.
  - unfold insert_one. destruct (insert_error w); simpl; [done|].
    destruct (find_one db (new_object_id w)) eqn:Hnew; simpl; [done|].
    set (nt := new_task w (new_object_id w) task_sku name ctry).
    assert (Hins : find_one (db ++ [nt])%list (new_object_id w) = Some nt)
      by (apply (find_one_inserted db nt); done).
    unfold update_one. destruct (commit_error w); simpl; [done|].
    rewrite Hins. simpl.
    intros [= <-]. split; [done|].
    exists (new_object_id w), nt,
      (set_photos_uploaded (abspath w file_path)
         (upload_log_entry (now_again w) file_path) nt), (now_again w).
    simpl. rewrite find_one_apply_update_same by done.
    rewrite Hins.
    do 11 (split; [done|]). right. by repeat split.
Qed.

Lemma upload_success_records_photo_witness :
  let w := calm_world in
  let db : Store := [] in
  let created := new_task w 100 "NIKE-USA-101" "Nike Running Shoe" "US" in
  let stored :=
    set_photos_uploaded "/srv/photos/a.jpg"
      (upload_log_entry (now_again w) "a.jpg") created in
  let written : list Store := [[created]; [stored]] in
  upload_real_photo w "NIKE-USA-101" "a.jpg" "Nike Running Shoe" "US" db
  = (written, true)
  /\ os_path_exists w (VStr (abspath w "a.jpg")) = Ok true
  /\ now w <> now_again w
  /\ exists task_id t0 t' read_at,
       find_one (List.last written db) task_id = Some t'
       /\ status t' = Some "PHOTOS_UPLOADED"
       /\ photo_urls (metadata t')
          = (photo_urls (metadata t0) ++ [abspath w "a.jpg"])%list
       /\ agent_log t'
          = (agent_log t0 ++
             [ {| timestamp := read_at;
                  agent := "upload_photo";
                  action := "photo_uploaded";
                  thought := "Uploaded photo: " ++ basename "a.jpg" |} ])%list
       /\ sku_code t' = sku_code t0
       /\ product_name (metadata t') = product_name (metadata t0)
       /\ country (metadata t') = country (metadata t0)
       /\ workflow_step t' = workflow_step t0
       /\ color_analysis t' = color_analysis t0
       /\ wordpress_publish_results t' = wordpress_publish_results t0
       /\ retry_metadata t' = retry_metadata t0
       /\ ((exists existing_task,
              find_one_sku db "NIKE-USA-101" = Some existing_task
              /\ task_id = _id existing_task
              /\ find_one db task_id = Some t0
              /\ read_at = now w
              /\ length written = 1)
           \/ (find_one_sku db "NIKE-USA-101" = None
               /\ task_id = new_object_id w
               /\ find_one db task_id = None
               /\ t0 = new_task w task_id "NIKE-USA-101" "Nike Running Shoe" "US"
               /\ read_at = now_again w
               /\ written = [ (db ++ [t0])%list; List.last written db ])).
Proof.
  cbv zeta. split; [reflexivity|].
  destruct (upload_success_records_photo calm_world "NIKE-USA-101" "a.jpg"
              "Nike Running Shoe" "US" [] _ eq_refl) as [Hfile Hrest].
  split; [exact Hfile|]. split; [discriminate | exact Hrest].
Defined.

(** X6.  When upload_real_photo returns False it has written nothing,
    except in one case: the SKU had no task, the file exists and the update
    raised, and then the task just created stays behind with status
    INITIATED and no photo. *)
Theorem failed_upload_writes (w : World)
    (task_sku file_path name ctry : string) (db : Store)
    (written : list Store)
    (Hfailed : upload_real_photo w task_sku file_path name ctry db
               = (written, false)) :
  written = []
  \/ (find_one_sku db task_sku = None
      /\ os_path_exists w (VStr (abspath w file_path)) = Ok true
      /\ is_Some (commit_error w)
      /\ written = [ (db ++ [new_task w (new_object_id w) task_sku
                               name ctry])%list ]).
Proof.
  revert Hfailed. unfold upload_real_photo, find_or_create.
  destruct (os_path_exists w _) as [[|]|]; simpl; try (intros [= <-]; by left).
  destruct (find_error w); simpl; [intros [= <-]; by left|].
  destruct (find_one_sku db task_sku) as [existing|] eqn:Hsku.
  - unfold update_one. destruct (commit_error w); simpl; [intros [= <-]; by left|].
    destruct (find_one db (_id existing)); simpl; [done|]. intros [= <-]. by left.
  - unfold insert_one. destruct (insert_error w); simpl; [intros [= <-]; by left|].
    destruct (find_one db (new_object_id w)) eqn:Hnew; simpl;
      [intros [= <-]; by left|].
    set (nt := new_task w (new_object_id w) task_sku name ctry).
    assert (Hins : find_one (db ++ [nt])%list (new_object_id w) = Some nt)
      by (apply (find_one_inserted db nt); done).
    unfold update_one. destruct (commit_error w) eqn:Hc; simpl.
    + intros [= <-]. right. by repeat split.
    + by rewrite Hins.
Qed.

Lemma failed_upload_writes_witness :
  let w := commit_fails_world in
  let db : Store := [] in
  let written : list Store :=
    [[new_task w 100 "NIKE-USA-101" "Nike Running Shoe" "US"]] in
  upload_real_photo w "NIKE-USA-101" "a.jpg" "Nike Running Shoe" "US" db
  = (written, false)
  /\ (written = []
      \/ (find_one_sku db "NIKE-USA-101" = None
          /\ os_path_exists w (VStr (abspath w "a.jpg")) = Ok true
          /\ is_Some (commit_error w)
          /\ written = [ (db ++ [new_task w (new_object_id w) "NIKE-USA-101"
                                   "Nike Running Shoe" "US"])%list ])).
Proof.
  cbv zeta. split; [reflexivity|].
  apply (failed_upload_writes commit_fails_world "NIKE-USA-101" "a.jpg"
           "Nike Running Shoe" "US" []).
  reflexivity.
Defined.

(* ===================================================================== *)
(** ** upload_to_wordpress and the publish loop *)
(* ===================================================================== *)

Lemma take_chars_len (n : nat) (s : string) :
  py_len (take_chars n s) <= n.
Proof.
  revert n. induction s as [|c s IH]; intros n; simpl; [lia|].
  destruct (is_continuation c) eqn:Hc; simpl.
  - rewrite Hc. apply IH.
  - destruct n as [|n]; simpl; [lia|]. rewrite Hc. specialize (IH n). lia.
Qed.

Lemma take_chars_len_exact (n : nat) (s : string) :
  py_len (take_chars n s) = Nat.min n (py_len s).
Proof.
  revert n. induction s as [|c s IH]; intros n; simpl; [lia|].
  destruct (is_continuation c) eqn:Hc; simpl.
  - rewrite Hc. apply IH.
  - destruct n as [|n]; simpl; [lia|]. rewrite Hc. specialize (IH n). lia.
Qed.

Lemma take_chars_prefix (n : nat) (s : string) :
  String.prefix (take_chars n s) s = true.
Proof.
  revert n. induction s as [|c s IH]; intros n; simpl; [done|].
  destruct (is_continuation c); simpl.
  - destruct (ascii_dec c c); [apply IH | done].
  - destruct n as [|n]; simpl; [done|].
    destruct (ascii_dec c c); [apply IH | done].
Qed.

Lemma take_chars_all (n : nat) (s : string) :
  py_len s <= n -> take_chars n s = s.
Proof.
  revert n. induction s as [|c s IH]; intros n; simpl; [done|].
  destruct (is_continuation c); simpl; intros Hn.
  - by rewrite IH.
  - destruct n as [|n]; [lia|]. rewrite IH; [done | lia].
Qed.

(** Slicing counts characters, not bytes: of three two-byte characters and
    a full stop (seven bytes), the first three characters are six bytes. *)
Lemma take_chars_counts_characters :
  let e_acute := String (ascii_of_nat 195) (String (ascii_of_nat 169) "") in
  take_chars 3 (e_acute ++ e_acute ++ e_acute ++ ".") = e_acute ++ e_acute ++ e_acute
  /\ py_len (e_acute ++ e_acute ++ e_acute ++ ".") = 4
  /\ String.length (e_acute ++ e_acute ++ e_acute ++ ".") = 7.
Proof. repeat split; reflexivity. Qed.

(** X7.  upload_to_wordpress sends at most one request.  The request is
    sent exactly when the file exists and is read; `success` is True exactly
    when, besides, the request returns with status 200 or 201 and a body
    that parses; every other result carries an `error`, and for an answer
    with another status the status code is recorded and the error is the
    body cut to its first 200 characters (the whole body when it has no
    more), or `Unknown error` for an empty body. *)
Theorem upload_to_wordpress_result (w : World) (file_path filename : string) :
  ((upload_to_wordpress w file_path filename).2 = []
   \/ (upload_to_wordpress w file_path filename).2
      = [CallWordPress file_path filename])
  /\ ((upload_to_wordpress w file_path filename).2
      = [CallWordPress file_path filename]
      <-> os_path_exists w (VStr file_path) = Ok true
          /\ read_bytes w file_path = None)
  /\ (truthy (get (upload_to_wordpress w file_path filename).1 "success") = true
      <-> exists response media_data,
            os_path_exists w (VStr file_path) = Ok true
            /\ read_bytes w file_path = None
            /\ requests_post w file_path filename = Ok response
            /\ (status_code response = 200 \/ status_code response = 201)%Z
            /\ json response = Ok media_data)
  /\ (truthy (get (upload_to_wordpress w file_path filename).1 "success") = false ->
      exists e,
        (upload_to_wordpress w file_path filename).1 !! "error" = Some (VStr e))
  /\ (forall response,
        os_path_exists w (VStr file_path) = Ok true ->
        read_bytes w file_path = None ->
        requests_post w file_path filename = Ok response ->
        status_code response <> 200%Z ->
        status_code response <> 201%Z ->
        exists e,
          (upload_to_wordpress w file_path filename).1 !! "error" = Some (VStr e)
          /\ py_len e <= 200
          /\ (text response = "" -> e = "Unknown error")
          /\ (text response <> "" ->
              String.prefix e (text response) = true
              /\ py_len e = Nat.min 200 (py_len (text response))
              /\ (py_len (text response) <= 200 -> e = text response))
          /\ (upload_to_wordpress w file_path filename).1 !! "status_code"
             = Some (VInt (status_code response))).
Proof.
  unfold upload_to_wordpress.
  destruct (os_path_exists w (VStr file_path)) as [[|]|] eqn:Hex.
  2,3: (split; [by left|]; split; [split; [done | by intros [? _]]|];
        split; [split; [done | by intros (? & ? & ? & _)]|];
        split; [intros _; by eexists | by intros]).
  destruct (read_bytes w file_path) as [e|] eqn:Hrd.
  { split; [by left|]. split; [split; [done | by intros [_ ?]]|].
    split; [split; [done | by intros (? & ? & _ & ? & _)]|].
    split; [intros _; by eexists | by intros]. }
  split; [right; by destruct (requests_post w file_path filename) as [r|];
          [destruct (_ || _); [destruct (json r)|]|]|].
  split.
  { split; [done|]. intros _.
    destruct (requests_post w file_path filename) as [r|]; [|done].
    destruct (_ || _); [destruct (json r)|]; done. }
  destruct (requests_post w file_path filename) as [response|] eqn:Hpost.
  2: { split; [split; [done | by intros (? & ? & _ & _ & ? & _)]|].
       split; [intros _; by eexists | by intros]. }
  destruct ((status_code response =? 200)%Z || (status_code response =? 201)%Z)
    eqn:Hcode.
  - assert (Hc : (status_code response = 200 \/ status_code response = 201)%Z).
    { apply orb_true_iff in Hcode. destruct Hcode as [H|H];
        apply Z.eqb_eq in H; auto. }
    destruct (json response) as [media_data|] eqn:Hjson.
    + split; [split; [intros _; by exists response, media_data | done]|].
      split; [done|].
      intros r _ _ [= <-] H200 H201. destruct Hc; done.
    + split.
      { split; [done|]. intros (r & m & _ & _ & [= <-] & _ & Hj). congruence. }
      split; [intros _; by eexists|].
      intros r _ _ [= <-] H200 H201. destruct Hc; done.
  - split.
    { split; [done|]. intros (r & m & _ & _ & [= <-] & Hc & _).
      apply orb_false_iff in Hcode. destruct Hcode as [H1 H2].
      apply Z.eqb_neq in H1, H2. destruct Hc; done. }
    split; [intros _; by eexists|].
    intros r _ _ [= <-] _ _. eexists. split; [done|].
    destruct (String.eqb (text response) "") eqn:Hempty.
    + split; [simpl; lia|]. split; [done|]. split; [|done].
      intros Hne. apply String.eqb_eq in Hempty. done.
    + split; [apply take_chars_len|]. split.
      { intros Htext. apply String.eqb_neq in Hempty. done. }
      split; [|done]. intros _.
      split; [apply take_chars_prefix|].
      split; [apply take_chars_len_exact | apply take_chars_all].
Qed.

Lemma elem_of_concat_imap {A B : Type} (f : nat -> A -> B * list effect)
    (l : list A) (e : effect) :
  e ∈ concat (imap f l).*2 ->
  exists i x, l !! i = Some x /\ e ∈ (f i x).2.
Proof.
  revert f. induction l as [|x l IH]; intros f; simpl.
  - intros H. by apply elem_of_nil in H.
  - intros H. apply elem_of_app in H. destruct H as [H|H].
    + by exists 0, x.
    + destruct (IH _ H) as (i & y & Hi & Hy). by exists (S i), y.
Qed.

Lemma length_concat_imap {A B : Type} (f : nat -> A -> B * list effect)
    (l : list A) :
  (forall i x, length (f i x).2 <= 1) ->
  length (concat (imap f l).*2) <= length l.
Proof.
  revert f. induction l as [|x l IH]; intros f Hf; simpl; [lia|].
  rewrite length_app. pose proof (Hf 0 x) as H0.
  pose proof (IH (f ∘ S) (fun i y => Hf (S i) y)) as H1.
  exact (Nat.add_le_mono _ 1 _ (length l) H0 H1).
Qed.

Lemma upload_to_wordpress_call (w : World) (p f : string) (e : effect) :
  e ∈ (upload_to_wordpress w p f).2 ->
  e = CallWordPress p f
  /\ os_path_exists w (VStr p) = Ok true
  /\ read_bytes w p = None.
Proof.
  unfold upload_to_wordpress.
  destruct (os_path_exists w (VStr p)) as [[|]|]; simpl;
    try (intros H; by apply elem_of_nil in H).
  destruct (read_bytes w p); simpl; [intros H; by apply elem_of_nil in H|].
  intros H.
  assert (He : e ∈ [CallWordPress p f]).
  { destruct (requests_post w p f) as [r|]; simpl in H; [|done].
    destruct (_ || _); [destruct (json r)|]; done. }
  apply list_elem_of_singleton in He. done.
Qed.

Lemma upload_to_wordpress_calls_once (w : World) (p f : string) :
  length (upload_to_wordpress w p f).2 <= 1.
Proof.
  unfold upload_to_wordpress.
  destruct (os_path_exists w (VStr p)) as [[|]|]; simpl; try lia.
  destruct (read_bytes w p); simpl; [lia|].
  destruct (requests_post w p f) as [r|]; simpl; [|lia].
  destruct (_ || _); [destruct (json r)|]; simpl; lia.
Qed.

Lemma publish_file_effects (w : World) (idx : nat) (p : string) :
  (publish_file w idx p).2 = (upload_to_wordpress w p (path_name p)).2.
Proof.
  unfold publish_file. destruct (upload_to_wordpress w p (path_name p)) as [r eff].
  destruct (truthy _); [|done].
  destruct (r !! "media_id"); [|done]. by destruct (r !! "media_url").
Qed.

Lemma publish_one_call (w : World) (idx : nat) (analysis : dict) (e : effect) :
  e ∈ (publish_one w idx analysis).2 ->
  exists p,
    get analysis "corrected_path" = VStr p
    /\ e = CallWordPress p (path_name p)
    /\ os_path_exists w (VStr p) = Ok true
    /\ read_bytes w p = None.
Proof.
  unfold publish_one. destruct (negb _); [intros H; by apply elem_of_nil in H|].
  destruct (os_path_exists w _) as [[|]|]; simpl;
    try (intros H; by apply elem_of_nil in H).
  destruct (get analysis "corrected_path") as [| | |p|]; simpl;
    try (intros H; by apply elem_of_nil in H).
  rewrite publish_file_effects. intros H.
  apply upload_to_wordpress_call in H. by exists p.
Qed.

Lemma publish_one_calls_once (w : World) (idx : nat) (analysis : dict) :
  length (publish_one w idx analysis).2 <= 1.
Proof.
  unfold publish_one. destruct (negb _); [simpl; lia|].
  destruct (os_path_exists w _) as [[|]|]; simpl; try lia.
  destruct (get analysis "corrected_path") as [| | |p|]; simpl; try lia.
  rewrite publish_file_effects. apply upload_to_wordpress_calls_once.
Qed.

(** X8.  The publish loop sends at most one request per analysis entry, and
    every request it sends is for the `corrected_path` of some entry, under
    that file's name, for a file that exists and was read, with the
    credentials configured. *)
Theorem uploads_only_existing_corrected_files (cfg : Config) (w : World)
    (analysis : list dict) :
  length (concat (publish_batch cfg w analysis).*2) <= length analysis
  /\ forall e,
       e ∈ concat (publish_batch cfg w analysis).*2 ->
       not_configured cfg = false
       /\ exists n a p,
            analysis !! n = Some a
            /\ get a "corrected_path" = VStr p
            /\ e = CallWordPress p (path_name p)
            /\ os_path_exists w (VStr p) = Ok true
            /\ read_bytes w p = None.
Proof.
  unfold publish_batch. destruct (not_configured cfg).
  - split.
    + apply length_concat_imap. intros i x. simpl. lia.
    + intros e He. apply elem_of_concat_imap in He.
      destruct He as (i & x & _ & He). by apply elem_of_nil in He.
  - split.
    + apply length_concat_imap. intros i x. apply publish_one_calls_once.
    + intros e He. apply elem_of_concat_imap in He.
      destruct He as (i & a & Hi & He). split; [done|].
      apply publish_one_call in He. destruct He as (p & H).
      by exists i, a, p.
Qed.

Lemma entry_has_status (entry : dict) (s : string) :
  entry !! "status" = Some (VStr s) -> get entry "status" = VStr s.
Proof. unfold get. by intros ->. Qed.

Lemma publish_file_tags (w : World) (idx : nat) (p : string) :
  (publish_file w idx p).1 !! "status" = Some (VStr "published")
  \/ ((publish_file w idx p).1 !! "status" = Some (VStr "failed")
      /\ is_Some ((publish_file w idx p).1 !! "error")).
Proof.
  unfold publish_file.
  pose proof (upload_success w p (path_name p)) as Hup.
  destruct (upload_to_wordpress w p (path_name p)) as [r eff]. simpl in Hup.
  destruct (truthy (get r "success")).
  - destruct (Hup eq_refl) as (response & media_data & _ & _ & _ & Hid & Hurl).
    rewrite Hid, Hurl. by left.
  - right. split; [done|]. by eexists.
Qed.

(** X9.  Every entry of `wordpress_publish_results` carries a status.
    Without credentials it is `skipped` with the reason; with credentials it
    is `published`, with `media_id`, `media_url` and `file_path` and no
    `error`, or `failed`, with the reason `Corrected image not found` or an
    `error`. *)
Theorem publish_entry_tags (cfg : Config) (w : World) (analysis : list dict)
    (entry : dict)
    (Hentry : entry ∈ (publish_batch cfg w analysis).*1) :
  if not_configured cfg then
    entry !! "status" = Some (VStr "skipped")
    /\ entry !! "reason" = Some (VStr "WordPress credentials not fully configured")
  else
    (entry !! "status" = Some (VStr "published")
     /\ is_Some (entry !! "media_id")
     /\ is_Some (entry !! "media_url")
     /\ is_Some (entry !! "file_path")
     /\ entry !! "error" = None)
    \/ (entry !! "status" = Some (VStr "failed")
        /\ (entry !! "reason" = Some (VStr "Corrected image not found")
            \/ is_Some (entry !! "error"))).
Proof.
  apply list_elem_of_lookup in Hentry. destruct Hentry as [n Hn].
  rewrite publish_batch_lookup in Hn.
  destruct (analysis !! n) as [a|]; [|done]. simpl in Hn. injection Hn as <-.
  destruct (not_configured cfg); [done|].
  destruct (is_published (publish_one w n a).1) eqn:Hp.
  - left. destruct (publish_one_published w n a Hp)
      as (p & _ & Hfp & response & media_data & _ & _ & _ & Hid & Hurl).
    apply is_published_get in Hp. unfold get in Hp.
    split.
    { destruct ((publish_one w n a).1 !! "status") as [v|]; simpl in Hp; by subst. }
    rewrite Hid, Hurl, Hfp. split; [by eexists|]. split; [by eexists|].
    split; [by eexists|].
    revert Hid. unfold publish_one. destruct (negb _); [done|].
    destruct (os_path_exists w _) as [[|]|]; try done.
    destruct (get a "corrected_path") as [| | |q|]; try done.
    unfold publish_file. destruct (upload_to_wordpress w q (path_name q)) as [r eff].
    destruct (truthy _); [|done].
    destruct (r !! "media_id"); [|done]. by destruct (r !! "media_url").
  - right. revert Hp. unfold publish_one. destruct (negb _); [by split; [|left]|].
    destruct (os_path_exists w _) as [[|]|];
      try (intros _; split; [done|]; first [by left | right; by eexists]).
    destruct (get a "corrected_path") as [| | |q|];
      try (intros _; split; [done|]; right; by eexists).
    intros Hp. destruct (publish_file_tags w n q) as [Hpub|[Hf He]].
    + apply entry_has_status in Hpub. apply is_published_get in Hpub. congruence.
    + split; [done|]. by right.
Qed.

Lemma publish_entry_tags_witness :
  let analysis := (color_batch calm_world [photo_a; photo_missing]).*1 in
  exists entry,
    (publish_batch sample_config calm_world analysis).*1 !! 0 = Some entry
    /\ entry ∈ (publish_batch sample_config calm_world analysis).*1
    /\ not_configured sample_config = false
    /\ if not_configured sample_config then
         entry !! "status" = Some (VStr "skipped")
         /\ entry !! "reason" = Some (VStr "WordPress credentials not fully configured")
       else
         (entry !! "status" = Some (VStr "published")
          /\ is_Some (entry !! "media_id")
          /\ is_Some (entry !! "media_url")
          /\ is_Some (entry !! "file_path")
          /\ entry !! "error" = None)
         \/ (entry !! "status" = Some (VStr "failed")
             /\ (entry !! "reason" = Some (VStr "Corrected image not found")
                 \/ is_Some (entry !! "error"))).
Proof.
  cbv zeta. eexists.
  assert (Hin : forall e,
            (publish_batch sample_config calm_world
               (color_batch calm_world [photo_a; photo_missing]).*1).*1 !! 0 = Some e ->
            e ∈ (publish_batch sample_config calm_world
                   (color_batch calm_world [photo_a; photo_missing]).*1).*1).
  { intros e He. apply list_elem_of_lookup. by exists 0. }
  split; [reflexivity|]. split; [apply Hin; reflexivity|].
  split; [reflexivity|].
  apply (publish_entry_tags sample_config calm_world
           (color_batch calm_world [photo_a; photo_missing]).*1).
  apply Hin; reflexivity.
Defined.

(* ===================================================================== *)
(** ** From the analysis of a photo to its publication *)
(* ===================================================================== *)

(** An analysis entry of Agent 2A names a corrected file only for a local
    photo that existed and was enhanced and saved. *)
Lemma analyze_photo_corrected_local (w : World) (saved : list string) (idx : nat)
    (url p : string) :
  get (analyze_photo w saved idx url).1 "corrected_path" = VStr p ->
  is_local url = true
  /\ path_exists w saved (VStr url) = Ok true
  /\ pil_enhance_save w url agent_adjustments p = None
  /\ p = splitext_root url ++ "_color_corrected.jpg".
Proof.
  unfold analyze_photo. destruct (is_local url).
  - unfold apply_color_corrections.
    destruct (path_exists w saved (VStr url)) as [[|]|]; try done.
    simpl. destruct (pil_enhance_save w url _ _) eqn:Hpil; [done|].
    simpl. dict_lookup. by intros [= <-].
  - done.
Qed.

(** What the loop saves is the corrected copy of a local reference. *)
Lemma analyze_photo_saves (w : World) (saved : list string) (idx : nat)
    (url p : string) :
  p ∈ saved_files (analyze_photo w saved idx url).2 ->
  is_local url = true /\ p = splitext_root url ++ "_color_corrected.jpg".
Proof.
  unfold analyze_photo. destruct (is_local url).
  - unfold apply_color_corrections.
    destruct (path_exists w saved (VStr url)) as [[|]|]; simpl;
      try (intros H; by apply elem_of_nil in H).
    destruct (pil_enhance_save w url _ _); simpl;
      [intros H; by apply elem_of_nil in H|].
    intros H. apply list_elem_of_singleton in H. done.
  - simpl. intros H. by apply elem_of_nil in H.
Qed.

Lemma color_loop_saves (w : World) (saved : list string) (idx : nat)
    (urls : list string) (n : nat) (p : string) :
  p ∈ saved_files (concat (take n (color_loop w saved idx urls)).*2) ->
  exists m url,
    m < n /\ urls !! m = Some url
    /\ is_local url = true
    /\ p = splitext_root url ++ "_color_corrected.jpg".
Proof.
  revert saved idx n. induction urls as [|url rest IH]; intros saved idx n.
  - destruct n; simpl; intros H; by apply elem_of_nil in H.
  - destruct n as [|n]; [simpl; intros H; by apply elem_of_nil in H|].
    cbn [color_loop take fmap list_fmap concat]. rewrite saved_files_app.
    intros H. apply elem_of_app in H. destruct H as [H|H].
    + apply analyze_photo_saves in H. exists 0, url. split; [lia|]. by split.
    + apply IH in H. destruct H as (m & url' & Hm & Hu & Hrest).
      exists (S m), url'. split; [lia|]. by split.
Qed.

Lemma saved_before_copies (w : World) (urls : list string) (n : nat) (p : string) :
  p ∈ saved_before w urls n ->
  exists m url,
    m < n /\ urls !! m = Some url
    /\ is_local url = true
    /\ p = splitext_root url ++ "_color_corrected.jpg".
Proof. apply color_loop_saves. Qed.

(** A file is there when the loop reaches position [n] if it was there when
    the invocation started or is the corrected copy of an earlier
    reference. *)
Lemma path_exists_before (w : World) (urls : list string) (n : nat) (url : string) :
  path_exists w (saved_before w urls n) (VStr url) = Ok true ->
  os_path_exists w (VStr url) = Ok true
  \/ exists m earlier,
       m < n /\ urls !! m = Some earlier
       /\ url = splitext_root earlier ++ "_color_corrected.jpg".
Proof.
  unfold path_exists. destruct (bool_decide _) eqn:Hb; [|by left].
  intros _. right. apply bool_decide_eq_true in Hb.
  apply saved_before_copies in Hb. destruct Hb as (m & earlier & Hm & Hu & _ & Hp).
  by exists m, earlier.
Qed.

Lemma published_from_local (cfg : Config) (w1 w2 : World) (urls : list string)
    (n : nat) (url : string) (entry : dict) :
  urls !! n = Some url ->
  (publish_batch cfg w2 (color_batch w1 urls).*1).*1 !! n = Some entry ->
  is_published entry = true ->
  is_local url = true
  /\ path_exists w1 (saved_before w1 urls n) (VStr url) = Ok true
  /\ pil_enhance_save w1 url agent_adjustments
       (splitext_root url ++ "_color_corrected.jpg") = None
  /\ os_path_exists w2 (VStr (splitext_root url ++ "_color_corrected.jpg")) = Ok true
  /\ not_configured cfg = false.
Proof.
  intros Hn He Hp.
  rewrite publish_batch_lookup, color_batch_lookup, Hn in He. simpl in He.
  injection He as <-. destruct (not_configured cfg); [done|].
  destruct (publish_one_published w2 n _ Hp) as (p & Hcp & _).
  destruct (analyze_photo_corrected_local w1 _ n url p Hcp) as (Hl & Hex & Hpil & ->).
  do 3 (split; [done|]). split; [|done].
  revert Hp. unfold publish_one. rewrite Hcp. simpl.
  destruct (negb _); [done|].
  by destruct (os_path_exists w2 _) as [[|]|].
Qed.

(** X10.  When the publish loop runs on the analysis Agent 2A built and
    marks the n-th entry published, the n-th photo reference is a local
    file that existed when the color-correction loop reached it (it was
    there when that invocation started, or it is the corrected copy saved
    for an earlier reference) and was enhanced and saved, the corrected copy
    exists at publish time, the credentials are configured, and the entry's
    `file_path` is that corrected copy. *)
Theorem published_implies_corrected_local_file (cfg : Config) (w1 w2 : World)
    (urls : list string) (n : nat) (url : string) (entry : dict)
    (Hurl : urls !! n = Some url)
    (Hentry : (publish_batch cfg w2 (color_batch w1 urls).*1).*1 !! n = Some entry)
    (Hpublished : entry !! "status" = Some (VStr "published")) :
  is_local url = true
  /\ path_exists w1 (saved_before w1 urls n) (VStr url) = Ok true
  /\ (os_path_exists w1 (VStr url) = Ok true
      \/ exists m earlier,
           m < n /\ urls !! m = Some earlier
           /\ url = splitext_root earlier ++ "_color_corrected.jpg")
  /\ pil_enhance_save w1 url agent_adjustments
       (splitext_root url ++ "_color_corrected.jpg") = None
  /\ os_path_exists w2 (VStr (splitext_root url ++ "_color_corrected.jpg")) = Ok true
  /\ not_configured cfg = false
  /\ entry !! "file_path"
     = Some (VStr (splitext_root url ++ "_color_corrected.jpg")).
Proof.
  assert (Hp : is_published entry = true).
  { apply is_published_get. by apply entry_has_status. }
  destruct (published_from_local cfg w1 w2 urls n url entry Hurl Hentry Hp)
    as (H1 & H2 & H3 & H4 & H5).
  split; [done|]. split; [done|]. split; [by apply path_exists_before|].
  do 3 (split; [done|]).
  destruct (end_to_end_aligned cfg w1 w2 urls) as [_ Hal].
  destruct (Hal n url Hurl) as (entry' & He' & _ & Hfp).
  rewrite Hentry in He'. injection He' as <-. by apply Hfp.
Qed.

Lemma published_implies_corrected_local_file_witness :
  let urls := [photo_a; photo_missing] in
  exists entry,
    urls !! 0 = Some photo_a
    /\ (publish_batch sample_config calm_world
          (color_batch calm_world urls).*1).*1 !! 0 = Some entry
    /\ entry !! "status" = Some (VStr "published")
    /\ is_local photo_a = true
    /\ path_exists calm_world (saved_before calm_world urls 0) (VStr photo_a)
       = Ok true
    /\ (os_path_exists calm_world (VStr photo_a) = Ok true
        \/ exists m earlier,
             m < 0 /\ urls !! m = Some earlier
             /\ photo_a = splitext_root earlier ++ "_color_corrected.jpg")
    /\ pil_enhance_save calm_world photo_a agent_adjustments
         (splitext_root photo_a ++ "_color_corrected.jpg") = None
    /\ os_path_exists calm_world
         (VStr (splitext_root photo_a ++ "_color_corrected.jpg")) = Ok true
    /\ not_configured sample_config = false
    /\ entry !! "file_path"
       = Some (VStr (splitext_root photo_a ++ "_color_corrected.jpg")).
Proof.
  cbv zeta. eexists.
  split; [reflexivity|]. split; [reflexivity|]. split; [vm_compute; reflexivity|].
  apply (published_implies_corrected_local_file sample_config calm_world calm_world
           [photo_a; photo_missing] 0 photo_a);
    [reflexivity | reflexivity | vm_compute; reflexivity].
Defined.

(** X11.  A task whose photo references are all handled as URLs (none
    starts with `/` or `file://`) cannot be published: Agent 2A writes no
    `corrected_path` for them, so the publish loop sends no request, the
    status computed is PUBLISH_FAILED, and with credentials every entry is
    failed with the reason `Corrected image not found`. *)
Theorem remote_photos_are_never_published (cfg : Config) (w1 w2 : World)
    (urls : list string)
    (Hremote : Forall (fun url => is_local url = false) urls) :
  next_status (publish_batch cfg w2 (color_batch w1 urls).*1).*1 = "PUBLISH_FAILED"
  /\ concat (publish_batch cfg w2 (color_batch w1 urls).*1).*2 = []
  /\ (not_configured cfg = false ->
      forall entry,
        entry ∈ (publish_batch cfg w2 (color_batch w1 urls).*1).*1 ->
        entry !! "status" = Some (VStr "failed")
        /\ entry !! "reason" = Some (VStr "Corrected image not found")).
Proof.
  assert (Hnone : forall saved n url,
            urls !! n = Some url ->
            truthy (get (analyze_photo w1 saved n url).1 "corrected_path") = false).
  { intros saved n url Hn. rewrite Forall_forall in Hremote.
    assert (Hr : is_local url = false).
    { apply Hremote. apply list_elem_of_lookup. by exists n. }
    unfold analyze_photo. by rewrite Hr. }
  assert (Hone : forall saved n url,
            urls !! n = Some url ->
            publish_one w2 n (analyze_photo w1 saved n url).1
            = (entry_reason n "failed" "Corrected image not found", [])).
  { intros saved n url Hn. unfold publish_one. by rewrite (Hnone saved n url Hn). }
  split; [|split].
  - unfold next_status.
    destruct (existsb is_published _) eqn:Hb; [|done].
    apply existsb_exists in Hb. destruct Hb as (entry & Hin & Hp).
    apply list_elem_of_In, list_elem_of_lookup in Hin. destruct Hin as [n Hn].
    assert (Hlen : n < length urls).
    { apply lookup_lt_Some in Hn.
      by rewrite publish_batch_length, color_batch_length in Hn. }
    destruct (lookup_lt_is_Some_2 urls n Hlen) as [url Hurl].
    destruct (published_from_local cfg w1 w2 urls n url entry Hurl Hn Hp)
      as (Hl & _).
    rewrite Forall_forall in Hremote.
    assert (is_local url = false).
    { apply Hremote. apply list_elem_of_lookup. by exists n. }
    congruence.
  - destruct (concat _) as [|e rest] eqn:Hc; [done|].
    assert (He : e ∈ concat (publish_batch cfg w2 (color_batch w1 urls).*1).*2)
      by (rewrite Hc; left).
    unfold publish_batch in He. destruct (not_configured cfg).
    + apply elem_of_concat_imap in He. destruct He as (i & x & _ & He).
      by apply elem_of_nil in He.
    + apply elem_of_concat_imap in He. destruct He as (i & a & Hi & He).
      rewrite color_batch_lookup in Hi.
      destruct (urls !! i) as [url|] eqn:Hurl; [|done]. simpl in Hi.
      injection Hi as <-. rewrite (Hone _ i url Hurl) in He.
      by apply elem_of_nil in He.
  - intros Hcfg entry Hin. apply list_elem_of_lookup in Hin. destruct Hin as [n Hn].
    rewrite publish_batch_lookup, color_batch_lookup, Hcfg in Hn.
    destruct (urls !! n) as [url|] eqn:Hurl; [|done]. simpl in Hn.
    injection Hn as <-. by rewrite (Hone _ n url Hurl).
Qed.

Lemma remote_photos_are_never_published_witness :
  let urls := [photo_remote; "http://cdn.example/b.png"] in
  Forall (fun url => is_local url = false) urls
  /\ next_status (publish_batch sample_config calm_world
                    (color_batch calm_world urls).*1).*1 = "PUBLISH_FAILED"
  /\ concat (publish_batch sample_config calm_world
               (color_batch calm_world urls).*1).*2 = []
  /\ (not_configured sample_config = false ->
      forall entry,
        entry ∈ (publish_batch sample_config calm_world
                   (color_batch calm_world urls).*1).*1 ->
        entry !! "status" = Some (VStr "failed")
        /\ entry !! "reason" = Some (VStr "Corrected image not found")).
Proof.
  cbv zeta.
  assert (Hremote : Forall (fun url => is_local url = false)
                      [photo_remote; "http://cdn.example/b.png"]).
  { repeat constructor. }
  split; [exact Hremote|].
  apply (remote_photos_are_never_published sample_config calm_world calm_world).
  exact Hremote.
Defined.

(* ===================================================================== *)
(** ** apply_color_corrections: where the corrected copy goes *)
(* ===================================================================== *)


















(* ===================================================================== *)
(** ** The supervisor loop: what it waits for and when it ends *)
(* ===================================================================== *)


Lemma concat_imap_supervisor {A B : Type} (f : nat -> A -> B * list effect)
    (l : list A) :
  (forall i x, Forall (fun e => is_supervisor_effect e = false) (f i x).2) ->
  Forall (fun e => is_supervisor_effect e = false) (concat (imap f l).*2).
Proof. apply concat_imap_Forall. Qed.

Lemma analyze_photo_quiet (w : World) (saved : list string) (idx : nat)
    (url : string) :
  Forall (fun e => is_supervisor_effect e = false) (analyze_photo w saved idx url).2.
Proof.
  unfold analyze_photo. destruct (is_local url).
  - unfold apply_color_corrections.
    destruct (path_exists w saved (VStr url)) as [[|]|]; simpl; try constructor.
    destruct (pil_enhance_save w url _ _); simpl; repeat constructor.
  - constructor.
Qed.

Lemma publish_one_quiet (w : World) (idx : nat) (analysis : dict) :
  Forall (fun e => is_supervisor_effect e = false) (publish_one w idx analysis).2.
Proof.
  apply Forall_forall. intros e He.
  apply publish_one_call in He. by destruct He as (p & _ & -> & _).
Qed.

Lemma dispatch_quiet (cfg : Config) (w : World) (change : ChangeEvent) (db : Store) :
  Forall (fun e => is_supervisor_effect e = false) (dispatch cfg w change db).2.
Proof.
  unfold dispatch.
  destruct (documentKey_id change) as [task_id|]; [|constructor].
  destruct (find_error w); [constructor|].
  destruct (find_one db task_id) as [task|]; [|constructor].
  destruct (String.eqb _ "PHOTOS_UPLOADED").
  - assert (H : Forall (fun e => is_supervisor_effect e = false)
                  (color_correct_agent w task_id task db).2).
    { unfold color_correct_agent.
      assert (Hb : Forall (fun e => is_supervisor_effect e = false)
                     (concat (color_batch w (photo_urls (metadata task))).*2)).
      { apply color_loop_Forall. intros saved i x. apply analyze_photo_quiet. }
      by destruct (update_one _ _ _ _). }
    destruct (color_correct_agent w task_id task db). by constructor.
  - destruct (String.eqb _ "COLOR_CORRECTED"); [|constructor].
    assert (H : Forall (fun e => is_supervisor_effect e = false)
                  (publish_to_wordpress cfg w task_id task db).2).
    { rewrite publish_effects. unfold publish_batch.
      destruct (not_configured cfg); apply concat_imap_supervisor; intros i x.
      - constructor.
      - apply publish_one_quiet. }
    destruct (publish_to_wordpress cfg w task_id task db). by constructor.
Qed.

Lemma process_changes_quiet (cfg : Config) (changes : list (World * ChangeEvent))
    (db : Store) :
  Forall (fun e => is_supervisor_effect e = false) (process_changes cfg changes db).2.
Proof.
  revert db. induction changes as [|[w change] rest IH]; intros db; simpl;
    [constructor|].
  pose proof (dispatch_quiet cfg w change db) as Hd.
  destruct (dispatch cfg w change db) as [db1 eff1].
  specialize (IH db1). destruct (process_changes cfg rest db1) as [db2 eff2].
  simpl in *. by apply Forall_app.
Qed.

(** One pass of the loop body, for a counter below the ceiling. *)
Lemma agent_loop_step (cfg : Config) (a : Attempt) (rest : list Attempt)
    (r : nat) (db : Store) :
  r < max_retries ->
  agent_loop cfg (a :: rest) r db =
  let r0 := match opened a with Some _ => 0 | None => r end in
  let db1 := (process_changes cfg (default [] (opened a)) db).1 in
  let eff := (process_changes cfg (default [] (opened a)) db).2 in
  match ending a with
  | KeyboardInterrupt =>
      {| ls_retry_count := r0; ls_store := db1; ls_effects := eff;
         ls_shut_down := true |}
  | Exception _ =>
      if Nat.ltb (S r0) max_retries then
        after_effects (eff ++ [Sleep (2 ^ Z.of_nat (S r0))])
          (agent_loop cfg rest (S r0) db1)
      else
        {| ls_retry_count := S r0; ls_store := db1;
           ls_effects := (eff ++ [FatalLog])%list; ls_shut_down := true |}
  end.
Proof.
  intros Hr. apply Nat.ltb_lt in Hr.
  cbn [agent_loop]. rewrite Hr. cbn [negb].
  by destruct (process_changes cfg (default [] (opened a)) db).
Qed.

Lemma agent_loop_nil (cfg : Config) (r : nat) (db : Store) :
  r < max_retries ->
  agent_loop cfg [] r db =
  {| ls_retry_count := r; ls_store := db; ls_effects := []; ls_shut_down := false |}.
Proof. intros Hr. apply Nat.ltb_lt in Hr. simpl. by rewrite Hr. Qed.

Lemma backoff_wait (r : nat) :
  S r < max_retries ->
  (2 ^ Z.of_nat (S r))%Z ∈ [2; 4; 8; 16]%Z.
Proof.
  unfold max_retries. intros Hr.
  assert (H : r = 0 \/ r = 1 \/ r = 2 \/ r = 3) by lia.
  destruct H as [H | [H | [H | H] ] ]; subst r; simpl; set_solver.
Qed.

Lemma agent_loop_waits (cfg : Config) (attempts : list Attempt) (r : nat)
    (db : Store) (seconds : Z) :
  r < max_retries ->
  Sleep seconds ∈ ls_effects (agent_loop cfg attempts r db) ->
  seconds ∈ [2; 4; 8; 16]%Z.
Proof.
  revert r db. induction attempts as [|a rest IH]; intros r db Hr.
  - rewrite agent_loop_nil by done. simpl. intros H. by apply elem_of_nil in H.
  - rewrite agent_loop_step by done. cbv zeta.
    pose proof (process_changes_quiet cfg (default [] (opened a)) db) as Hq.
    rewrite Forall_forall in Hq.
    set (r0 := match opened a with Some _ => 0 | None => r end).
    destruct (ending a).
    + destruct (Nat.ltb (S r0) max_retries) eqn:Hlt; simpl.
      * apply Nat.ltb_lt in Hlt. intros H.
        rewrite <- app_assoc in H. apply elem_of_app in H. destruct H as [H|H].
        { apply Hq in H. done. }
        apply elem_of_cons in H. destruct H as [ [= ->] |H].
        { by apply backoff_wait. }
        by eapply (IH (S r0)); [exact Hlt | exact H].
      * intros H. apply elem_of_app in H. destruct H as [H|H].
        { apply Hq in H. done. }
        apply list_elem_of_singleton in H. done.
    + simpl. intros H. apply Hq in H. done.
Qed.

(** X13.  Whatever the subscriptions do, the worker only ever sleeps 2, 4,
    8 or 16 seconds between two attempts. *)
Theorem waits_are_bounded (cfg : Config) (attempts : list Attempt) (db : Store)
    (seconds : Z)
    (Hwait : Sleep seconds ∈ ls_effects (agent_worker cfg attempts db)) :
  seconds ∈ [2; 4; 8; 16]%Z.
Proof.
  eapply (agent_loop_waits cfg attempts 0 db); [unfold max_retries; lia | exact Hwait].
Qed.

Lemma waits_are_bounded_witness :
  let attempts := [watch_fails "no primary"; watch_fails "no primary";
                   watch_fails "no primary"] in
  Sleep 8 ∈ ls_effects (agent_worker sample_config attempts [])
  /\ (8 ∈ [2; 4; 8; 16])%Z.
Proof.
  cbv zeta.
  assert (Hwait : Sleep 8 ∈ ls_effects (agent_worker sample_config
            [watch_fails "no primary"; watch_fails "no primary";
             watch_fails "no primary"] [])).
  { vm_compute. repeat constructor. }
  split; [exact Hwait|].
  apply (waits_are_bounded sample_config
           [watch_fails "no primary"; watch_fails "no primary";
            watch_fails "no primary"] [] 8 Hwait).
Defined.

Lemma agent_loop_shut_down_final (cfg : Config) (attempts more : list Attempt)
    (r : nat) (db : Store) :
  ls_shut_down (agent_loop cfg attempts r db) = true ->
  agent_loop cfg (attempts ++ more)%list r db = agent_loop cfg attempts r db.
Proof.
  revert r db. induction attempts as [|a rest IH]; intros r db.
  - destruct (Nat.ltb r max_retries) eqn:Hr.
    + apply Nat.ltb_lt in Hr. by rewrite agent_loop_nil.
    + intros _. simpl. destruct more; simpl; by rewrite Hr.
  - destruct (Nat.ltb r max_retries) eqn:Hr.
    + apply Nat.ltb_lt in Hr. simpl app.
      rewrite !agent_loop_step by done. cbv zeta.
      destruct (ending a); [|done].
      destruct (Nat.ltb _ max_retries); [|done].
      simpl. intros H. by rewrite IH.
    + intros _. simpl. by rewrite Hr.
Qed.

Lemma agent_loop_fatal_shuts_down (cfg : Config) (attempts : list Attempt)
    (r : nat) (db : Store) :
  r < max_retries ->
  FatalLog ∈ ls_effects (agent_loop cfg attempts r db) ->
  ls_shut_down (agent_loop cfg attempts r db) = true.
Proof.
  revert r db. induction attempts as [|a rest IH]; intros r db Hr.
  - rewrite agent_loop_nil by done. simpl. intros H. by apply elem_of_nil in H.
  - rewrite agent_loop_step by done. cbv zeta.
    pose proof (process_changes_quiet cfg (default [] (opened a)) db) as Hq.
    rewrite Forall_forall in Hq.
    destruct (ending a); [|done].
    destruct (Nat.ltb _ max_retries) eqn:Hlt; [|done].
    apply Nat.ltb_lt in Hlt. simpl. intros H.
    rewrite <- app_assoc in H. apply elem_of_app in H. destruct H as [H|H].
    { apply Hq in H. done. }
    apply elem_of_cons in H. destruct H as [H|H]; [done|].
    by apply IH.
Qed.

(** X14.  Once the worker loop has ended (Ctrl+C, or the fifth failure in
    a row) nothing that would have come next has any effect; the fatal
    error is logged only when the loop ends; and the retry counter never
    exceeds `max_retries`. *)
Theorem loop_exit_is_final (cfg : Config) (attempts more : list Attempt) (db : Store) :
  (ls_shut_down (agent_worker cfg attempts db) = true ->
   agent_worker cfg (attempts ++ more)%list db = agent_worker cfg attempts db)
  /\ (FatalLog ∈ ls_effects (agent_worker cfg attempts db) ->
      ls_shut_down (agent_worker cfg attempts db) = true)
  /\ ls_retry_count (agent_worker cfg attempts db) <= max_retries.
Proof.
  unfold agent_worker. split; [apply agent_loop_shut_down_final|].
  split; [apply agent_loop_fatal_shuts_down; unfold max_retries; lia|].
  assert (H : forall r db0, r <= max_retries ->
            ls_retry_count (agent_loop cfg attempts r db0) <= max_retries).
  { induction attempts as [|a rest IH]; intros r db0 Hr.
    - simpl. by destruct (negb _).
    - destruct (Nat.ltb r max_retries) eqn:Hlt.
      + apply Nat.ltb_lt in Hlt. rewrite agent_loop_step by done. cbv zeta.
        destruct (ending a).
        * destruct (Nat.ltb _ max_retries) eqn:Hlt2.
          { apply Nat.ltb_lt in Hlt2. simpl. apply IH. lia. }
          simpl. destruct (opened a); unfold max_retries in *; lia.
        * simpl. destruct (opened a); lia.
      + simpl. by rewrite Hlt. }
  apply H. lia.
Qed.

Lemma agent_loop_flapping (cfg : Config) (attempts : list Attempt) (r : nat)
    (db : Store) :
  r < max_retries ->
  Forall (fun a => is_Some (opened a)) attempts ->
  (FatalLog ∉ ls_effects (agent_loop cfg attempts r db))
  /\ (forall seconds,
        Sleep seconds ∈ ls_effects (agent_loop cfg attempts r db) -> seconds = 2%Z).
Proof.
  intros Hr Hall. revert r db Hr.
  induction Hall as [|a rest [cs Ha] Hrest IH]; intros r db Hr.
  - rewrite agent_loop_nil by done. simpl.
    split; [apply not_elem_of_nil|]. intros s H. by apply elem_of_nil in H.
  - rewrite agent_loop_step by done. cbv zeta. rewrite Ha. simpl.
    pose proof (process_changes_quiet cfg cs db) as Hq.
    rewrite Forall_forall in Hq.
    destruct (IH 1 (process_changes cfg cs db).1) as [Hf Hs];
      [unfold max_retries; lia|].
    destruct (ending a); simpl.
    + split.
      * intros H. rewrite <- app_assoc in H. apply elem_of_app in H.
        destruct H as [H|H]; [by apply Hq in H|].
        apply elem_of_cons in H. destruct H as [H|H]; done.
      * intros s H. rewrite <- app_assoc in H. apply elem_of_app in H.
        destruct H as [H|H]; [by apply Hq in H|].
        apply elem_of_cons in H. destruct H as [ [= ->] |H]; [done|].
        by apply Hs.
    + split.
      * intros H. by apply Hq in H.
      * intros s H. by apply Hq in H.
Qed.

Lemma agent_loop_flapping_count (cfg : Config) (attempts : list Attempt) (r : nat)
    (db : Store) :
  r <= 1 ->
  Forall (fun a => is_Some (opened a)) attempts ->
  ls_retry_count (agent_loop cfg attempts r db) <= 1.
Proof.
  intros Hr Hall. revert r db Hr.
  induction Hall as [|a rest [cs Ha] Hrest IH]; intros r db Hr.
  - rewrite agent_loop_nil by (unfold max_retries; lia). done.
  - rewrite agent_loop_step by (unfold max_retries; lia). cbv zeta.
    rewrite Ha. destruct (ending a); simpl.
    + apply IH. lia.
    + lia.
Qed.

Lemma filter_quiet (effs : list effect) :
  Forall (fun e => is_supervisor_effect e = false) effs ->
  List.filter is_supervisor_effect effs = [].
Proof.
  induction 1 as [|e l He _ IH]; simpl; [done|]. by rewrite He.
Qed.

Lemma agent_loop_drops (cfg : Config) (attempts : list Attempt) (r : nat)
    (db : Store) :
  r < max_retries ->
  Forall (fun a => is_Some (opened a)) attempts ->
  Forall (fun a => ending a <> KeyboardInterrupt) attempts ->
  List.filter is_supervisor_effect (ls_effects (agent_loop cfg attempts r db))
  = replicate (length attempts) (Sleep 2)
  /\ ls_shut_down (agent_loop cfg attempts r db) = false
  /\ (attempts <> [] -> ls_retry_count (agent_loop cfg attempts r db) = 1).
Proof.
  intros Hr Hall. revert r db Hr.
  induction Hall as [|a rest [cs Ha] Hrest IH]; intros r db Hr Hdrops.
  - rewrite agent_loop_nil by done. done.
  - apply Forall_cons in Hdrops. destruct Hdrops as [Hdrop Hdrops].
    rewrite agent_loop_step by done. cbv zeta. rewrite Ha.
    destruct (ending a) as [e|]; [|done]. simpl.
    destruct (IH 1 (process_changes cfg cs db).1) as (Hf & Hs & Hc);
      [unfold max_retries; lia | done |].
    split; [|split; [done|]].
    + rewrite !List.filter_app, Hf.
      by rewrite (filter_quiet _ (process_changes_quiet cfg cs db)).
    + intros _. destruct rest as [|b rest]; [|by apply Hc].
      by rewrite agent_loop_nil by (unfold max_retries; lia).
Qed.

(** X15.  A stream that opens is never given up on.  While every attempt
    opens the stream, the worker never logs the fatal error, every wait is
    2 seconds and the retry counter stays at most 1.  When besides every
    attempt ends with the stream dropping on an exception, the worker
    sleeps exactly once, 2 seconds, after each attempt, stays in its loop,
    and the counter is 1 after every drop.  A drop does count as a first
    failure: after one drop, four failures to open in a row end the worker
    with the fatal error, where five are needed from a fresh start. *)
Theorem flapping_stream_is_never_fatal (cfg : Config) (attempts : list Attempt)
    (db : Store)
    (Hopened : Forall (fun a => is_Some (opened a)) attempts) :
  (FatalLog ∉ ls_effects (agent_worker cfg attempts db))
  /\ (forall seconds,
        Sleep seconds ∈ ls_effects (agent_worker cfg attempts db) -> seconds = 2%Z)
  /\ ls_retry_count (agent_worker cfg attempts db) <= 1
  /\ (Forall (fun a => ending a <> KeyboardInterrupt) attempts ->
      List.filter is_supervisor_effect (ls_effects (agent_worker cfg attempts db))
      = replicate (length attempts) (Sleep 2)
      /\ ls_shut_down (agent_worker cfg attempts db) = false
      /\ (attempts <> [] -> ls_retry_count (agent_worker cfg attempts db) = 1))
  /\ (forall changes e e1 e2 e3 e4 rest,
        agent_worker cfg
          ({| opened := Some changes; ending := Exception e |}
           :: watch_fails e1 :: watch_fails e2 :: watch_fails e3
           :: watch_fails e4 :: rest) db
        = {| ls_retry_count := max_retries;
             ls_store := (process_changes cfg changes db).1;
             ls_effects := ((process_changes cfg changes db).2
                            ++ [Sleep 2; Sleep 4; Sleep 8; Sleep 16; FatalLog])%list;
             ls_shut_down := true |}).
Proof.
  unfold agent_worker.
  destruct (agent_loop_flapping cfg attempts 0 db) as [Hf Hs];
    [unfold max_retries; lia | done |].
  split; [done|]. split; [done|].
  split; [apply agent_loop_flapping_count; [lia | done]|].
  split; [apply agent_loop_drops; [unfold max_retries; lia | done]|].
  intros changes e e1 e2 e3 e4 rest.
  rewrite agent_loop_reconnected by (unfold max_retries; lia).
  rewrite !agent_loop_watch_fails by (unfold max_retries; lia).
  unfold after_effects. simpl. by rewrite <- app_assoc.
Qed.

Lemma flapping_stream_is_never_fatal_witness :
  let drops := {| opened := Some []; ending := Exception "cursor killed" |} in
  let attempts := [drops; drops; drops; drops; drops; drops] in
  Forall (fun a => is_Some (opened a)) attempts
  /\ Forall (fun a => ending a <> KeyboardInterrupt) attempts
  /\ (FatalLog ∉ ls_effects (agent_worker sample_config attempts []))
  /\ (forall seconds,
        Sleep seconds ∈ ls_effects (agent_worker sample_config attempts []) ->
        seconds = 2%Z)
  /\ ls_retry_count (agent_worker sample_config attempts []) <= 1
  /\ ls_effects (agent_worker sample_config attempts [])
     = [Sleep 2; Sleep 2; Sleep 2; Sleep 2; Sleep 2; Sleep 2]
  /\ ls_shut_down (agent_worker sample_config attempts []) = false
  /\ ls_retry_count (agent_worker sample_config attempts []) = 1.
Proof.
  cbv zeta.
  assert (Hopened : Forall (fun a => is_Some (opened a))
            (replicate 6 {| opened := Some []; ending := Exception "cursor killed" |})).
  { repeat constructor; by eexists. }
  assert (Hdrops : Forall (fun a => ending a <> KeyboardInterrupt)
            (replicate 6 {| opened := Some []; ending := Exception "cursor killed" |})).
  { repeat constructor; discriminate. }
  split; [exact Hopened|]. split; [exact Hdrops|].
  destruct (flapping_stream_is_never_fatal sample_config
              (replicate 6 {| opened := Some []; ending := Exception "cursor killed" |})
              [] Hopened) as (Hf & Hs & Hc & Hall & _).
  split; [exact Hf|]. split; [exact Hs|]. split; [exact Hc|].
  destruct (Hall Hdrops) as (_ & Hdown & Hone).
  split; [reflexivity|]. split; [exact Hdown|]. apply Hone. discriminate.
Defined.

(** X2.  Over any run of upload steps and deliveries a task is never
    deleted, its `sku_code`, `metadata.product_name` and `metadata.country`
    never change, `metadata.photo_urls` only grows at its end, and
    `retry_metadata.count` never decreases. *)
Theorem task_identity_and_photos_kept (cfg : Config) (steps : list Step) (db : Store)
    (i j : nat) (s1 s2 : Store) (task_id : ObjectId) (t1 : Task)
    (Horder : i <= j)
    (Hearlier : history cfg steps db !! i = Some s1)
    (Hlater : history cfg steps db !! j = Some s2)
    (Hfound : find_one s1 task_id = Some t1) :
  exists t2,
    find_one s2 task_id = Some t2
    /\ sku_code t2 = sku_code t1
    /\ product_name (metadata t2) = product_name (metadata t1)
    /\ country (metadata t2) = country (metadata t1)
    /\ photo_urls (metadata t1) `prefix_of` photo_urls (metadata t2)
    /\ (count (retry_metadata t1) <= count (retry_metadata t2))%Z.
Proof.
  destruct (run_task_grows cfg steps db i j s1 s2 task_id t1)
    as (t2 & Ht2 & _ & Hsku & Hname & Hctry & Hurls & _ & Hcount); try done.
  by exists t2.
Qed.

Lemma task_identity_and_photos_kept_witness :
  exists s1 s2 t1,
    2 <= 5
    /\ history sample_config pipeline_run [] !! 2 = Some s1
    /\ history sample_config pipeline_run [] !! 5 = Some s2
    /\ find_one s1 100 = Some t1
    /\ photo_urls (metadata t1) = [photo_a]
    /\ exists t2,
         find_one s2 100 = Some t2
         /\ sku_code t2 = sku_code t1
         /\ product_name (metadata t2) = product_name (metadata t1)
         /\ country (metadata t2) = country (metadata t1)
         /\ photo_urls (metadata t1) `prefix_of` photo_urls (metadata t2)
         /\ (count (retry_metadata t1) <= count (retry_metadata t2))%Z.
Proof.
  eexists _, _, _.
  split; [lia|]. split; [reflexivity|]. split; [reflexivity|].
  split; [reflexivity|]. split; [reflexivity|].
  eapply (task_identity_and_photos_kept sample_config pipeline_run [] 2 5);
    [lia | reflexivity | reflexivity | reflexivity].
Defined.

(* ===================================================================== *)
(** ** Two deliveries take an uploaded task to its end *)
(* ===================================================================== *)

Lemma dispatch_color_corrected (cfg : Config) (w : World) (change : ChangeEvent)
    (db : Store) (task_id : ObjectId) (t : Task) :
  documentKey_id change = Some task_id ->
  find_error w = None ->
  find_one db task_id = Some t ->
  status t = Some "COLOR_CORRECTED" ->
  dispatch cfg w change db =
  ((publish_to_wordpress cfg w task_id t db).1,
   Invoke "publish_to_wordpress" task_id :: (publish_to_wordpress cfg w task_id t db).2).
Proof.
  intros Hid Hfe Hf Hs. unfold dispatch. rewrite Hid, Hfe, Hf, Hs. simpl.
  by destruct (publish_to_wordpress cfg w task_id t db).
Qed.

Lemma next_status_cases (results : list dict) :
  next_status results = "WORDPRESS_PUBLISHED" \/ next_status results = "PUBLISH_FAILED".
Proof. unfold next_status. destruct (existsb _ _); auto. Qed.

(** X16.  The two handlers compose.  For a task at PHOTOS_UPLOADED, two
    events naming it, each processed with the store reachable and the
    commit applied, invoke Agent 2A and then Agent 2B, once each, and leave
    the task at WORDPRESS_PUBLISHED or PUBLISH_FAILED with `workflow_step`
    3, one analysis entry and one publish entry per photo, two more audit
    entries, and the metadata and retry bookkeeping as before; any further
    event for the task does nothing. *)
Theorem two_deliveries_finish_task (cfg : Config) (w1 w2 : World)
    (c1 c2 : ChangeEvent) (db : Store) (task_id : ObjectId) (t : Task)
    (Hfirst : documentKey_id c1 = Some task_id)
    (Hsecond : documentKey_id c2 = Some task_id)
    (Hfound : find_one db task_id = Some t)
    (Hstatus : status t = Some "PHOTOS_UPLOADED")
    (Hfind1 : find_error w1 = None) (Hfind2 : find_error w2 = None)
    (Hcommit1 : commit_error w1 = None) (Hcommit2 : commit_error w2 = None) :
  let urls := photo_urls (metadata t) in
  let analysis := (color_batch w1 urls).*1 in
  let results := (publish_batch cfg w2 analysis).*1 in
  let out := process_changes cfg [(w1, c1); (w2, c2)] db in
  exists t2,
    find_one out.1 task_id = Some t2
    /\ (status t2 = Some "WORDPRESS_PUBLISHED" \/ status t2 = Some "PUBLISH_FAILED")
    /\ status t2 = Some (next_status results)
    /\ workflow_step t2 = Some 3%Z
    /\ color_analysis t2 = Some analysis
    /\ wordpress_publish_results t2 = Some results
    /\ length analysis = length urls
    /\ length results = length urls
    /\ agent_log t2 =
       (agent_log t ++ [color_log_entry w1 urls; publish_log_entry w2 results])%list
    /\ metadata t2 = metadata t
    /\ retry_metadata t2 = retry_metadata t
    /\ List.filter is_invoke out.2 =
       [Invoke "color_correct_agent" task_id; Invoke "publish_to_wordpress" task_id]
    /\ (forall w3 c3, documentKey_id c3 = Some task_id ->
          dispatch cfg w3 c3 out.1 = (out.1, [])).
Proof.
  intros urls analysis results out.
  set (t1 := set_color_corrected analysis (color_log_entry w1 urls) t).
  set (db1 := (color_correct_agent w1 task_id t db).1).
  assert (H1 : find_one db1 task_id = Some t1) by by apply color_commit.
  set (db2 := (publish_to_wordpress cfg w2 task_id t1 db1).1).
  set (t2 := set_published results (publish_log_entry w2 results) t1).
  assert (H2 : find_one db2 task_id = Some t2).
  { unfold db2, t2. by apply (publish_commit cfg w2 task_id t1 t1 db1). }
  assert (Hout : out =
            (db2, (Invoke "color_correct_agent" task_id
                     :: (color_correct_agent w1 task_id t db).2)
                  ++ (Invoke "publish_to_wordpress" task_id
                        :: (publish_to_wordpress cfg w2 task_id t1 db1).2) ++ [])%list).
  { unfold out. cbn [process_changes].
    rewrite (dispatch_photos_uploaded cfg w1 c1 db task_id t) by done.
    fold db1.
    rewrite (dispatch_color_corrected cfg w2 c2 db1 task_id t1) by done.
    done. }
  rewrite Hout. cbn [fst snd].
  exists t2. split; [done|].
  split; [destruct (next_status_cases results) as [H|H]; simpl; rewrite H; auto|].
  do 4 (split; [done|]).
  assert (Hla : length analysis = length urls).
  { unfold analysis. apply color_batch_length. }
  split; [done|].
  split.
  { unfold results. by rewrite publish_batch_length. }
  do 3 (split; [by (simpl; rewrite <- ?app_assoc)|]).
  split.
  - simpl. f_equal. rewrite List.filter_app. simpl. rewrite app_nil_r.
    pose proof (color_agent_effects w1 task_id t db) as Hc.
    pose proof (publish_agent_effects cfg w2 task_id t1 db1) as Hp.
    assert (Hnone : forall effs, Forall (fun e => is_invoke e = false) effs ->
              List.filter is_invoke effs = []).
    { induction 1 as [|e l He _ IH]; simpl; [done|]. by rewrite He. }
    rewrite (Hnone _ Hc), (Hnone _ Hp). done.
  - intros w3 c3 H3.
    apply (dispatch_other_status cfg w3 c3 db2 task_id t2 H3 H2).
    + simpl. destruct (next_status_cases results) as [H|H]; rewrite H; done.
    + simpl. destruct (next_status_cases results) as [H|H]; rewrite H; done.
Qed.

Lemma two_deliveries_finish_task_witness :
  let cfg := sample_config in
  let w1 := calm_world in
  let w2 := calm_world in
  let db := [uploaded_task] in
  let t := uploaded_task in
  let urls := photo_urls (metadata t) in
  let analysis := (color_batch w1 urls).*1 in
  let results := (publish_batch cfg w2 analysis).*1 in
  let out := process_changes cfg [(w1, sample_event 1); (w2, sample_event 1)] db in
  documentKey_id (sample_event 1) = Some 1
  /\ find_one db 1 = Some t
  /\ status t = Some "PHOTOS_UPLOADED"
  /\ find_error w1 = None /\ commit_error w1 = None
  /\ exists t2,
       find_one out.1 1 = Some t2
       /\ (status t2 = Some "WORDPRESS_PUBLISHED" \/ status t2 = Some "PUBLISH_FAILED")
       /\ status t2 = Some (next_status results)
       /\ workflow_step t2 = Some 3%Z
       /\ color_analysis t2 = Some analysis
       /\ wordpress_publish_results t2 = Some results
       /\ length analysis = length urls
       /\ length results = length urls
       /\ agent_log t2 =
          (agent_log t ++ [color_log_entry w1 urls; publish_log_entry w2 results])%list
       /\ metadata t2 = metadata t
       /\ retry_metadata t2 = retry_metadata t
       /\ List.filter is_invoke out.2 =
          [Invoke "color_correct_agent" 1; Invoke "publish_to_wordpress" 1]
       /\ (forall w3 c3, documentKey_id c3 = Some 1 ->
             dispatch cfg w3 c3 out.1 = (out.1, [])).
Proof.
  cbv zeta. do 5 (split; [reflexivity|]).
  apply (two_deliveries_finish_task sample_config calm_world calm_world
           (sample_event 1) (sample_event 1) [uploaded_task] 1 uploaded_task);
    reflexivity.
Defined.

(* ===================================================================== *)
(** ** A failed commit leaves the task where the dispatcher picks it up *)
(* ===================================================================== *)

(** X17.  A failed commit is retried on the next event, without limit:
    when the commit of Agent 2A raises, the task stays at PHOTOS_UPLOADED
    with its analysis and its audit log as they were (the retry counter
    goes up by one if the bookkeeping update is applied), and the next
    event naming the task for which the worker's read of the task does not
    raise invokes Agent 2A again; `retry_metadata.count` is never read. *)
Theorem failed_commit_is_retried (cfg : Config) (w1 w2 : World)
    (c1 c2 : ChangeEvent) (db : Store) (task_id : ObjectId) (t : Task) (e : string)
    (Hfirst : documentKey_id c1 = Some task_id)
    (Hsecond : documentKey_id c2 = Some task_id)
    (Hfound : find_one db task_id = Some t)
    (Hstatus : status t = Some "PHOTOS_UPLOADED")
    (Hfind1 : find_error w1 = None) (Hfind2 : find_error w2 = None)
    (Hcommit : commit_error w1 = Some e) :
  let db1 := (dispatch cfg w1 c1 db).1 in
  exists t1,
    find_one db1 task_id = Some t1
    /\ status t1 = Some "PHOTOS_UPLOADED"
    /\ color_analysis t1 = color_analysis t
    /\ agent_log t1 = agent_log t
    /\ (count (retry_metadata t1) =
        match recovery_error w1 with
        | Some _ => count (retry_metadata t)
        | None => count (retry_metadata t) + 1
        end)%Z
    /\ (dispatch cfg w2 c2 db1).2 =
       Invoke "color_correct_agent" task_id :: (color_correct_agent w2 task_id t1 db1).2.
Proof.
  intros db1.
  assert (Hdb1 : db1 = on_batch_error w1 task_id e db).
  { unfold db1. rewrite (dispatch_photos_uploaded cfg w1 c1 db task_id t) by done.
    simpl. unfold color_correct_agent, update_one. by rewrite Hcommit. }
  pose proof (on_batch_error_lookup w1 task_id e t db Hfound) as Hl.
  rewrite <- Hdb1 in Hl.
  eexists. split; [exact Hl|].
  assert (Hst : status (match recovery_error w1 with
                        | Some _ => t | None => record_failure e t end)
                = Some "PHOTOS_UPLOADED").
  { by destruct (recovery_error w1). }
  split; [done|].
  split; [by destruct (recovery_error w1)|].
  split; [by destruct (recovery_error w1)|].
  split; [by destruct (recovery_error w1)|].
  by rewrite (dispatch_photos_uploaded cfg w2 c2 db1 task_id _ Hsecond Hfind2 Hl Hst).
Qed.

Lemma failed_commit_is_retried_witness :
  let cfg := sample_config in
  let w1 := commit_fails_world in
  let w2 := calm_world in
  let db := [uploaded_task] in
  let t := uploaded_task in
  let db1 := (dispatch cfg w1 (sample_event 1) db).1 in
  documentKey_id (sample_event 1) = Some 1
  /\ find_one db 1 = Some t
  /\ status t = Some "PHOTOS_UPLOADED"
  /\ find_error w1 = None /\ find_error w2 = None
  /\ commit_error w1 = Some "document too large"
  /\ exists t1,
       find_one db1 1 = Some t1
       /\ status t1 = Some "PHOTOS_UPLOADED"
       /\ color_analysis t1 = color_analysis t
       /\ agent_log t1 = agent_log t
       /\ (count (retry_metadata t1) =
           match recovery_error w1 with
           | Some _ => count (retry_metadata t)
           | None => count (retry_metadata t) + 1
           end)%Z
       /\ (dispatch cfg w2 (sample_event 1) db1).2 =
          Invoke "color_correct_agent" 1 :: (color_correct_agent w2 1 t1 db1).2.
Proof.
  cbv zeta. do 6 (split; [reflexivity|]).
  apply (failed_commit_is_retried sample_config commit_fails_world calm_world
           (sample_event 1) (sample_event 1) [uploaded_task] 1 uploaded_task
           "document too large");
    reflexivity.
Defined.

(* ===================================================================== *)
(** ** The configuration read from the environment *)
(* ===================================================================== *)

Lemma rstrip_slash_empty (s : string) :
  rstrip_slash s = "" <-> only_slashes s = true.
Proof.
  induction s as [|c r IH]; simpl; [done|].
  destruct (rstrip_slash r) eqn:Er.
  - destruct (Ascii.eqb c "/"); simpl.
    + split; [intros _; by apply IH | done].
    + split; done.
  - split; [done|]. intros H. apply andb_true_iff in H as [_ H].
    apply IH in H. done.
Qed.

Lemma rstrip_slash_no_trailing (s : string) :
  ends_with_slash (rstrip_slash s) = false.
Proof.
  induction s as [|c r IH]; simpl; [done|].
  destruct (rstrip_slash r) eqn:Er.
  - destruct (Ascii.eqb c "/") eqn:Ec; simpl; [done|]. by rewrite Ec.
  - simpl in *. done.
Qed.

Lemma rstrip_slash_prefix (s : string) :
  String.prefix (rstrip_slash s) s = true.
Proof.
  induction s as [|c r IH]; simpl; [done|].
  destruct (rstrip_slash r) eqn:Er.
  - destruct (Ascii.eqb c "/"); simpl; [done|].
    destruct (ascii_dec c c); [|done]. by destruct r.
  - simpl. destruct (ascii_dec c c); [|done]. exact IH.
Qed.

(** X18.  The publish batch is skipped exactly when WORDPRESS_USER or
    WORDPRESS_PASSWORD is unset or empty, or WORDPRESS_URL is unset, empty
    or made of slashes only.  The configured URL never ends in a slash and
    is a prefix of the variable's value. *)
Theorem slash_only_url_is_unconfigured (env : gmap string string) :
  (not_configured (load_config env) = true <->
     only_slashes (default "" (env !! "WORDPRESS_URL")) = true
     \/ default "" (env !! "WORDPRESS_USER") = ""
     \/ default "" (env !! "WORDPRESS_PASSWORD") = "")
  /\ ends_with_slash (WORDPRESS_URL (load_config env)) = false
  /\ String.prefix (WORDPRESS_URL (load_config env))
       (default "" (env !! "WORDPRESS_URL")) = true.
Proof.
  split; [|split; [apply rstrip_slash_no_trailing | apply rstrip_slash_prefix]].
  unfold not_configured, load_config. simpl.
  rewrite !orb_true_iff, !String.eqb_eq, rstrip_slash_empty. tauto.
Qed.
